(** * Knowledge agent: cache, webhook, ledger and note tools

    A shallow embedding of the knowledge-base synchronisation and
    contribution pipeline:

    - [backend/github_client.py]: [extract_title_from_content],
      [verify_webhook_signature], [get_pr_status], [fetch_knowledge_base],
      [create_pr], [create_pr_batch];
    - [backend/main.py]: [refresh_notes_cache], [get_pr_status_endpoint],
      [github_webhook], [contribute], [contribute_batch], [track_pr];
    - [agent/tools]: [draft_note], [list_notes], [search_knowledge],
      [get_note], [surface_note];
    - [scripts/cluster_notes.py]: the title that [main] gives a local note.

    Conventions of the embedding.

    - A Python [str] is a [string]: a sequence of code points 0..255.  The
      character classes ([str.isspace], the regular expression class [\s],
      [str.lower], casedness) are those of Python on that whole range;
      [str.title] is Python's except on the code points 181, 223 and 255,
      whose title-case images lie outside the range and which are left
      unchanged here.  On this range [str.lower] keeps the length of a
      text; beyond it, it may not (the lowercase of the code point 304 has
      two code points), so what is stated about lengths is stated of the
      lowercase text where the code measures that one.
    - What [json.loads] returns (the manifest [clusters.json], the body of
      a webhook request) is a [json] value: any of them, not only the
      shapes that the clustering script and GitHub write.  [dict.get] on
      what is no [dict] raises [AttributeError], a loop over what is not
      iterable and a [list] or [dict] used as a key raise [TypeError].
    - A Python [dict] that is iterated ([notes], [by_topic]) is an
      association list in insertion order; the ledger [_submitted_prs],
      only ever looked up and updated by key, is a [gmap].
    - [time.time()] is a rational number of seconds.
    - A call either returns or raises: [outcome].  The remote repository,
      the clock and the process environment are inputs of the calls.
    - A contribution is a computation that calls the repository:
      [remote_call] carries its outcome and the calls it made, in order. *)

From Stdlib Require Import ZArith QArith Lqa Bool List Ascii String DecimalString Sorted.
From stdpp Require Import base option list gmap strings.
Import ListNotations.

Local Open Scope string_scope.

(** ** Python strings *)

Module PyStr.

Definition nl : string := String "010" "".

Definition code (c : ascii) : nat := nat_of_ascii c.

Definition between (lo hi n : nat) : bool := (lo <=? n)%nat && (n <=? hi)%nat.

(** [str.isspace] on one character, also the class [\s] of [re]. *)
Definition isspace (c : ascii) : bool :=
  let n := code c in
  between 9 13 n || between 28 32 n || (n =? 133)%nat || (n =? 160)%nat.

Definition is_upper (c : ascii) : bool :=
  let n := code c in
  between 65 90 n || between 192 214 n || between 216 222 n.

Definition is_ascii_lower (c : ascii) : bool := between 97 122 (code c).

Definition is_digit (c : ascii) : bool := between 48 57 (code c).

(** Characters that map to another 8-bit character under upper-casing. *)
Definition has_upper (c : ascii) : bool :=
  let n := code c in
  between 97 122 n || between 224 246 n || between 248 254 n.

(** The property Cased, as [str.title] consults it. *)
Definition is_cased (c : ascii) : bool :=
  let n := code c in
  between 65 90 n || between 97 122 n || (n =? 170)%nat || (n =? 181)%nat
  || (n =? 186)%nat || between 192 214 n || between 216 246 n
  || between 248 255 n.

Definition lower_char (c : ascii) : ascii :=
  if is_upper c then ascii_of_nat (code c + 32) else c.

Definition title_char (c : ascii) : ascii :=
  if has_upper c then ascii_of_nat (code c - 32) else c.

Fixpoint map_chars (f : ascii -> ascii) (s : string) : string :=
  match s with
  | "" => ""
  | String c s' => String (f c) (map_chars f s')
  end.

(** [s.lower()] *)
Definition lower (s : string) : string := map_chars lower_char s.

(** [s.title()]: a character that follows a cased character is
    lower-cased, any other character is title-cased. *)
Fixpoint title_from (previous_is_cased : bool) (s : string) : string :=
  match s with
  | "" => ""
  | String c s' =>
      String (if previous_is_cased then lower_char c else title_char c)
             (title_from (is_cased c) s')
  end.

Definition title (s : string) : string := title_from false s.

Fixpoint rev_acc (s acc : string) : string :=
  match s with
  | "" => acc
  | String c s' => rev_acc s' (String c acc)
  end.

Definition rev (s : string) : string := rev_acc s "".

Fixpoint drop_while (p : ascii -> bool) (s : string) : string :=
  match s with
  | "" => ""
  | String c s' => if p c then drop_while p s' else s
  end.

Fixpoint take_while (p : ascii -> bool) (s : string) : string :=
  match s with
  | "" => ""
  | String c s' => if p c then String c (take_while p s') else ""
  end.

(** Stripping at the right end only. *)
Definition rstrip_with (p : ascii -> bool) (s : string) : string :=
  rev (drop_while p (rev s)).

Definition strip_with (p : ascii -> bool) (s : string) : string :=
  rstrip_with p (drop_while p s).

(** [s.strip()] *)
Definition strip (s : string) : string := strip_with isspace s.

Definition not_nl (c : ascii) : bool := negb (Ascii.eqb c "010").

(** A text of one line: no newline in it. *)
Definition one_line (s : string) : Prop := take_while not_nl s = s.

(** A text of whitespace only. *)
Definition blank (s : string) : Prop := drop_while isspace s = "".

(** What may follow the first line: nothing, or a newline and more. *)
Definition line_end (s : string) : Prop :=
  s = "" \/ exists rest, s = String "010" rest.

(** [s.strip(chars)] for a one-character [chars]. *)
Definition strip_char (c : ascii) (s : string) : string :=
  strip_with (Ascii.eqb c) s.

Fixpoint drop (n : nat) (s : string) : string :=
  match n, s with
  | O, _ => s
  | S _, "" => ""
  | S n', String _ s' => drop n' s'
  end.

Fixpoint take (n : nat) (s : string) : string :=
  match n, s with
  | O, _ => ""
  | S _, "" => ""
  | S n', String c s' => String c (take n' s')
  end.

(** [s[i:j]] for [0 <= i] and [0 <= j]. *)
Definition slice (i j : Z) (s : string) : string :=
  take (Z.to_nat (j - i)) (drop (Z.to_nat i) s).

(** [s.startswith(p)] *)
Definition startswith (p s : string) : bool := String.prefix p s.

(** [s.endswith(p)] *)
Definition endswith (p s : string) : bool := String.prefix (rev p) (rev s).

(** [s.split(sep)] for a one-character separator: never the empty list. *)
Fixpoint split_char (sep : ascii) (s : string) : list string :=
  match s with
  | "" => [""]
  | String c s' =>
      if Ascii.eqb c sep then "" :: split_char sep s'
      else match split_char sep s' with
           | [] => [String c ""]
           | w :: ws => String c w :: ws
           end
  end.

(** [l[0]] on a list that [split] returned. *)
Definition first_item (l : list string) : string := hd "" l.

(** [s.replace(old, new)] for a non-empty [old], leftmost occurrences
    first, not overlapping. *)
Fixpoint replace_fuel (fuel : nat) (old new s : string) : string :=
  match fuel with
  | O => s
  | S fuel' =>
      match s with
      | "" => ""
      | String c s' =>
          if String.prefix old s
          then new ++ replace_fuel fuel' old new (drop (String.length old) s)
          else String c (replace_fuel fuel' old new s')
      end
  end.

Definition replace (old new s : string) : string :=
  replace_fuel (String.length s) old new s.

(** [hay.find(needle)], the index of the leftmost occurrence. *)
Fixpoint find_from (i : nat) (needle hay : string) : option nat :=
  if String.prefix needle hay then Some i
  else match hay with
       | "" => None
       | String _ hay' => find_from (S i) needle hay'
       end.

Definition find (needle hay : string) : Z :=
  match find_from 0 needle hay with
  | Some i => Z.of_nat i
  | None => (-1)%Z
  end.

(** [needle in hay] *)
Definition contains (needle hay : string) : bool :=
  match find_from 0 needle hay with Some _ => true | None => false end.

Definition len (s : string) : Z := Z.of_nat (String.length s).

(** [str(n)] for a natural number. *)
Definition str_of_nat (n : nat) : string := NilEmpty.string_of_uint (Nat.to_uint n).

(** [sep.join(l)] *)
Fixpoint join (sep : string) (l : list string) : string :=
  match l with
  | [] => ""
  | [w] => w
  | w :: ws => w ++ sep ++ join sep ws
  end.

(** Code point order on strings, as [sorted] compares them. *)
Definition str_leb (a b : string) : bool := String.leb a b.

End PyStr.

Import PyStr.

(** ** Outcomes of calls *)

Inductive exn : Type :=
  | TypeError
  | AttributeError
  | ValueError (msg : string)
  | HTTPException (status_code : Z) (detail : string)
  | RemoteError.

Inductive outcome (A : Type) : Type :=
  | Returns (a : A)
  | Raises (e : exn).

Arguments Returns {A} a.
Arguments Raises {A} e.

(** ** JSON values, as [json.loads] returns them *)

(** A Python [float]: its value when it is finite. *)
Inductive pyfloat : Type :=
  | Finite (value : Q)
  | Infinity (negative : bool)
  | NaN.

(** [None], a [bool], an [int], a [float], a [str], a [list] or a [dict]
    with strings as keys, distinct and in insertion order. *)
#[warnings="-register-all"]
Inductive json : Type :=
  | JNull
  | JBool (b : bool)
  | JInt (n : Z)
  | JFloat (x : pyfloat)
  | JStr (s : string)
  | JList (items : list json)
  | JObj (entries : list (string * json)).

(** [d.get(key)] on a dict in insertion order: the value of the key, if
    it is there. *)
Fixpoint dict_get {V : Type} (key : string) (d : list (string * V)) : option V :=
  match d with
  | [] => None
  | (k, v) :: d' => if String.eqb k key then Some v else dict_get key d'
  end.

(** [v.get(key, default)]: only a [dict] has [get]. *)
Definition jget (key : string) (default : json) (v : json) : outcome json :=
  match v with
  | JObj entries =>
      Returns (match dict_get key entries with Some x => x | None => default end)
  | _ => Raises AttributeError
  end.

(** [for x in v]: the items of a list, the keys of a dict, the characters
    of a string; nothing else is iterable. *)
Definition jiter (v : json) : outcome (list json) :=
  match v with
  | JList items => Returns items
  | JObj entries => Returns (map (fun kv => JStr (fst kv)) entries)
  | JStr s => Returns (map (fun c => JStr (String c "")) (list_ascii_of_string s))
  | _ => Raises TypeError
  end.

(** [v == s] for a string [s]. *)
Definition jeq_str (v : json) (s : string) : bool :=
  match v with
  | JStr t => String.eqb t s
  | _ => false
  end.

(** [if v:] *)
Definition jtruthy (v : json) : bool :=
  match v with
  | JNull => false
  | JBool b => b
  | JInt n => negb (n =? 0)%Z
  | JFloat (Finite q) => negb (Qnum q =? 0)%Z
  | JFloat _ => true
  | JStr s => negb (String.eqb s "")
  | JList items => match items with [] => false | _ => true end
  | JObj entries => match entries with [] => false | _ => true end
  end.

(** ** The note store: [dict[str, dict]] in insertion order *)

(** [topic] is whatever the manifest names: any JSON value. *)
Record note_data : Type := mk_note {
  nd_content : option string;
  nd_title : option string;
  nd_path : option string;
  nd_topic : option json
}.

(** [d.get(key, default)] on one field of a note. *)
Definition get_default (field : option string) (default : string) : string :=
  match field with Some v => v | None => default end.

(** [d[key] = v]: the value of a present key is replaced where it stands,
    a new key goes last. *)
Fixpoint dict_set {V : Type} (key : string) (v : V) (d : list (string * V)) : list (string * V) :=
  match d with
  | [] => [(key, v)]
  | (k, w) :: d' =>
      if String.eqb k key then (k, v) :: d' else (k, w) :: dict_set key v d'
  end.

(** [key in d] *)
Definition dict_mem {V : Type} (key : string) (d : list (string * V)) : bool :=
  existsb (fun kv => String.eqb (fst kv) key) d.

(** ** backend/github_client.py *)

Module GithubClient.

(** *** [extract_title_from_content] *)

(** Where [$] matches under [re.MULTILINE]: at the end of the text and
    before a newline. *)
Definition at_eol (s : string) : bool :=
  match s with
  | "" => true
  | String c _ => Ascii.eqb c "010"
  end.

(** [(.+)$] matched at the head of [s], greedy with backtracking: the
    longer match is tried before the shorter one.  [.] is any character
    but the newline.  The result is the text of group 1. *)
Fixpoint dot_plus_eol (s : string) : option string :=
  match s with
  | "" => None
  | String c s' =>
      if Ascii.eqb c "010" then None
      else match dot_plus_eol s' with
           | Some g => Some (String c g)
           | None => if at_eol s' then Some (String c "") else None
           end
  end.

(** [\s+(.+)$] matched at the head of [s], [\s+] greedy with
    backtracking. *)
Fixpoint spaces_then_group (s : string) : option string :=
  match s with
  | "" => None
  | String c s' =>
      if isspace c then
        match spaces_then_group s' with
        | Some g => Some g
        | None => dot_plus_eol s'
        end
      else None
  end.

(** [re.match(r"^#\s+(.+)$", s, re.MULTILINE)]: [re.match] tries position
    0 only, where [^] holds; [Some g] is a match whose group 1 is [g]. *)
Definition re_match_heading (s : string) : option string :=
  match s with
  | String "#" s' => spaces_then_group s'
  | _ => None
  end.

Definition filename_title (filename : string) : string :=
  title (replace ".md" "" (replace "_" " " (replace "-" " " filename))).

Definition extract_title_from_content (content filename : string) : string :=
  match re_match_heading (strip content) with
  | Some g => strip g
  | None => filename_title filename
  end.

(** *** [verify_webhook_signature] *)

Definition is_ascii_char (c : ascii) : bool := (code c <? 128)%nat.

Fixpoint is_ascii_str (s : string) : bool :=
  match s with
  | "" => true
  | String c s' => is_ascii_char c && is_ascii_str s'
  end.

(** [hmac.compare_digest(a, b)] on two [str]: a [TypeError] unless both
    are ASCII, else their equality. *)
Definition compare_digest (a b : string) : outcome bool :=
  if is_ascii_str a && is_ascii_str b then Returns (String.eqb a b)
  else Raises TypeError.

(** [s.encode("utf-8")] on code points 0..255. *)
Fixpoint encode_utf8 (s : string) : list Byte.byte :=
  match s with
  | "" => []
  | String c s' =>
      let n := code c in
      if (n <? 128)%nat then byte_of_ascii c :: encode_utf8 s'
      else byte_of_ascii (ascii_of_nat (192 + n / 64))
           :: byte_of_ascii (ascii_of_nat (128 + n mod 64))
           :: encode_utf8 s'
  end.

Definition hex_digit (n : nat) : ascii :=
  if (n <? 10)%nat then ascii_of_nat (48 + n) else ascii_of_nat (87 + n).

(** The value of a hexadecimal digit. *)
Definition hex_value (c : ascii) : nat :=
  let n := code c in if (n <? 58)%nat then n - 48 else n - 87.

(** [digest.hex()] *)
Fixpoint hex (bs : list Byte.byte) : string :=
  match bs with
  | [] => ""
  | b :: bs' =>
      let n := Byte.to_nat b in
      String (hex_digit (n / 16)) (String (hex_digit (n mod 16)) (hex bs'))
  end.

Section Signature.

(** [hmac.new(key, msg, hashlib.sha256).digest()], from Python's standard
    library. *)
Variable hmac_sha256 : list Byte.byte -> list Byte.byte -> list Byte.byte.

Definition expected_signature (payload : list Byte.byte) (secret : string) : string :=
  "sha256=" ++ hex (hmac_sha256 (encode_utf8 secret) payload).

(** A missing header reaches the function as the empty string. *)
Definition verify_webhook_signature
    (payload : list Byte.byte) (signature secret : string) : outcome bool :=
  if String.eqb signature "" || negb (startswith "sha256=" signature)
  then Returns false
  else compare_digest signature (expected_signature payload secret).

End Signature.

(** *** [get_pr_status] *)

(** What the remote repository holds about a pull request. *)
Record pull_request : Type := mk_pull {
  pr_merged : bool;
  pr_state : string;
  pr_merged_at : option string;
  pr_closed_at : option string;
  pr_html_url : string
}.

Record pr_status : Type := mk_status {
  st_pr_number : Z;
  st_status : string;
  st_merged_at : option string;
  st_closed_at : option string;
  st_html_url : string
}.

(** [client] is whether the GitHub App credentials are configured;
    [pull] is what [repo.get_pull(pr_number)] does. *)
Definition get_pr_status (client : bool) (pull : outcome pull_request) (pr_number : Z)
  : outcome pr_status :=
  if negb client then Raises (ValueError "GitHub App not configured")
  else match pull with
       | Raises e => Raises e
       | Returns pr =>
           let status :=
             if pr_merged pr then "merged"
             else if String.eqb (pr_state pr) "closed" then "closed"
             else "open" in
           Returns (mk_status pr_number status (pr_merged_at pr) (pr_closed_at pr)
                              (pr_html_url pr))
       end.

(** *** [fetch_knowledge_base] *)

Record content_file : Type := mk_file {
  cf_type : string;
  cf_name : string;
  cf_decoded : outcome string
}.

(** What the remote repository answers to one fetch: [rm_clusters] is
    [json.loads] of the decoded [clusters.json] (it raises when the file
    is missing, does not decode or is not JSON), [rm_contents] the listing
    of the root; [client] below is whether the GitHub App credentials are
    configured. *)
Record remote : Type := mk_remote {
  rm_clusters : outcome json;
  rm_contents : outcome (list content_file)
}.

(** [note_to_cluster[note_file] = cluster_name].  A list or a dict is
    unhashable.  The mapping is only read with the name of a file, a
    string: a key that is no string is never found, and is not kept
    here. *)
Definition set_item (note_file cluster_name : json) (note_to_cluster : gmap string json)
  : outcome (gmap string json) :=
  match note_file with
  | JStr s => Returns (<[s := cluster_name]> note_to_cluster)
  | JList _ | JObj _ => Raises TypeError
  | _ => Returns note_to_cluster
  end.

(** The inner loop: the mapping as the loop leaves it, and how the loop
    ended.  What was assigned before an exception stays assigned. *)
Fixpoint assign_cluster (cluster_name : json) (note_files : list json)
    (note_to_cluster : gmap string json) : gmap string json * outcome unit :=
  match note_files with
  | [] => (note_to_cluster, Returns tt)
  | note_file :: rest =>
      match set_item note_file cluster_name note_to_cluster with
      | Returns m => assign_cluster cluster_name rest m
      | Raises e => (note_to_cluster, Raises e)
      end
  end.

(** The outer loop, over the clusters. *)
Fixpoint assign_clusters (clusters : list json) (note_to_cluster : gmap string json)
  : gmap string json * outcome unit :=
  match clusters with
  | [] => (note_to_cluster, Returns tt)
  | cluster :: rest =>
      match jget "name" (JStr "General") cluster with
      | Raises e => (note_to_cluster, Raises e)
      | Returns cluster_name =>
          match jget "notes" (JList []) cluster with
          | Raises e => (note_to_cluster, Raises e)
          | Returns notes =>
              match jiter notes with
              | Raises e => (note_to_cluster, Raises e)
              | Returns note_files =>
                  match assign_cluster cluster_name note_files note_to_cluster with
                  | (m, Returns _) => assign_clusters rest m
                  | (m, Raises e) => (m, Raises e)
                  end
              end
          end
      end
  end.

(** [note_to_cluster] after the [try] block: [except Exception: pass]
    keeps what the loops assigned before an exception. *)
Definition build_note_to_cluster (r : outcome json) : gmap string json :=
  match r with
  | Raises _ => ∅
  | Returns clusters_data =>
      match jget "clusters" (JList []) clusters_data with
      | Raises _ => ∅
      | Returns v =>
          match jiter v with
          | Raises _ => ∅
          | Returns clusters => fst (assign_clusters clusters ∅)
          end
      end
  end.

Definition add_file (note_to_cluster : gmap string json)
    (notes : list (string * note_data)) (f : content_file) : list (string * note_data) :=
  if String.eqb (cf_type f) "file" && endswith ".md" (cf_name f) then
    match cf_decoded f with
    | Raises _ => notes
    | Returns file_content =>
        let filename := cf_name f in
        let title := extract_title_from_content file_content filename in
        let topic := default (JStr "General") (note_to_cluster !! filename) in
        dict_set filename
          (mk_note (Some file_content) (Some title) (Some filename) (Some topic)) notes
    end
  else notes.

(** The message of the [ValueError] of a listing that cannot be read ends
    with the text of the exception it wraps, which is left out here: the
    backend catches the error and goes on with the cache it has. *)
Definition fetch_knowledge_base (client : bool) (r : remote)
  : outcome (list (string * note_data)) :=
  if negb client then Raises (ValueError "GitHub App not configured")
  else
    let note_to_cluster := build_note_to_cluster (rm_clusters r) in
    match rm_contents r with
    | Raises _ => Raises (ValueError "Failed to fetch knowledge base")
    | Returns contents => Returns (fold_left (add_file note_to_cluster) contents [])
    end.

End GithubClient.

Import GithubClient.

(** ** agent/tools *)

Module Tools.

(** [tool_context.state.get("notes", {})]: the ["notes"] entry of the
    session state, the empty dict when there is none. *)
Definition state_notes (state : option (list (string * note_data))) : list (string * note_data) :=
  match state with Some notes => notes | None => [] end.

Definition no_knowledge_base : string :=
  "No knowledge base loaded. Please ensure notes are available.".

(** *** draft_note.py *)

Record draft_event : Type := mk_draft {
  de_path : string;
  de_title : string;
  de_content : string;
  de_is_new : bool
}.

(** [not x] for an optional string argument: [None] and [""] are falsy. *)
Definition not_given (x : option string) : bool :=
  match x with
  | None => true
  | Some s => String.eqb s ""
  end.

Definition slug_char (c : ascii) : bool := is_ascii_lower c || is_digit c.

(** [re.sub(r"[^a-z0-9]+", "-", s)]: each maximal run of characters
    outside [a-z0-9] becomes one hyphen.  [in_run] holds while the
    current run has already been replaced. *)
Fixpoint re_sub_hyphen_from (in_run : bool) (s : string) : string :=
  match s with
  | "" => ""
  | String c s' =>
      if slug_char c then String c (re_sub_hyphen_from false s')
      else if in_run then re_sub_hyphen_from true s'
      else String "-" (re_sub_hyphen_from true s')
  end.

Definition re_sub_hyphen (s : string) : string := re_sub_hyphen_from false s.

Definition slugify (title : string) : string :=
  strip_char "-" (re_sub_hyphen (lower title)).

Definition derive_title (content : string) : string :=
  let first_line := first_item (split_char "010" (strip content)) in
  if startswith "# " first_line then strip (drop 2 first_line)
  else "Untitled Note".

Definition draft_note_event (content : string) (title path : option string)
    (tool_context : option (option (list (string * note_data)))) : draft_event :=
  let notes := match tool_context with
               | Some state => state_notes state
               | None => []
               end in
  let title := if not_given title then derive_title content
               else get_default title "" in
  let path := if not_given path then slugify title ++ ".md"
              else get_default path "" in
  let is_new := negb (dict_mem path notes) in
  mk_draft path title content is_new.

Definition dq : string := String "034" "".

Definition hex4 (n : nat) : string :=
  String (hex_digit (n / 4096 mod 16)) (String (hex_digit (n / 256 mod 16))
    (String (hex_digit (n / 16 mod 16)) (String (hex_digit (n mod 16)) ""))).

(** One character of a JSON string, as [json.dumps] writes it. *)
Definition json_escape_char (c : ascii) : string :=
  let n := code c in
  if (n =? 34)%nat then String "\" dq
  else if (n =? 92)%nat then "\\"
  else if (n =? 10)%nat then "\n"
  else if (n =? 13)%nat then "\r"
  else if (n =? 9)%nat then "\t"
  else if (n =? 8)%nat then "\b"
  else if (n =? 12)%nat then "\f"
  else if (n <? 32)%nat || (126 <? n)%nat then "\u" ++ hex4 n
  else String c "".

Fixpoint json_escape (s : string) : string :=
  match s with
  | "" => ""
  | String c s' => json_escape_char c ++ json_escape s'
  end.

Definition json_str (s : string) : string := dq ++ json_escape s ++ dq.

Definition json_entry (key value : string) : string := json_str key ++ ": " ++ value.

(** [json.dumps(draft_event)] *)
Definition json_dumps_draft (e : draft_event) : string :=
  "{" ++ json_entry "type" (json_str "draft_note")
  ++ ", " ++ json_entry "path" (json_str (de_path e))
  ++ ", " ++ json_entry "title" (json_str (de_title e))
  ++ ", " ++ json_entry "content" (json_str (de_content e))
  ++ ", " ++ json_entry "is_new" (if de_is_new e then "true" else "false")
  ++ "}".

Definition draft_note (content : string) (title path : option string)
    (tool_context : option (option (list (string * note_data)))) : string :=
  let e := draft_note_event content title path tool_context in
  let marker := "<!--DRAFT:" ++ json_dumps_draft e ++ "-->" in
  marker ++ nl ++ "I've drafted the note '" ++ de_title e
  ++ "'. Please review the content in the editor above. You can make any changes and then click 'Submit PR' to contribute it to the knowledge base.".

(** *** list_notes.py *)

(** One entry of a topic: its path and its title. *)
Definition entry : Type := (string * string)%type.

Definition entry_path (e : entry) : string := fst e.
Definition entry_title (e : entry) : string := snd e.

(** The topic of a path: its first directory level. *)
Definition path_topic (path : string) : string :=
  let parts := split_char "/" path in
  if (1 <? List.length parts)%nat then first_item parts else "General".

(** [by_topic[topic].append(e)] on a [defaultdict(list)]. *)
Fixpoint topic_append (topic : string) (e : entry) (by_topic : list (string * list entry))
  : list (string * list entry) :=
  match by_topic with
  | [] => [(topic, [e])]
  | (k, es) :: rest =>
      if String.eqb k topic then (k, (es ++ [e])%list) :: rest
      else (k, es) :: topic_append topic e rest
  end.

Definition group_notes (notes : list (string * note_data)) : list (string * list entry) :=
  fold_left
    (fun by_topic kv =>
       let path := fst kv in
       topic_append (path_topic path) (path, get_default (nd_title (snd kv)) path) by_topic)
    notes [].

(** [sorted(l, key=...)]: a stable sort, by insertion. *)
Fixpoint insert_by {A : Type} (key : A -> string) (x : A) (l : list A) : list A :=
  match l with
  | [] => [x]
  | y :: l' => if str_leb (key x) (key y) then x :: y :: l' else y :: insert_by key x l'
  end.

Fixpoint sorted_by {A : Type} (key : A -> string) (l : list A) : list A :=
  match l with
  | [] => []
  | x :: l' => insert_by key x (sorted_by key l')
  end.

Definition format_entry (e : entry) : string :=
  "- **" ++ entry_title e ++ "** (`" ++ entry_path e ++ "`)" ++ nl.

Definition format_topic (g : string * list entry) : string :=
  "## " ++ title (replace "-" " " (fst g)) ++ " (" ++ str_of_nat (List.length (snd g))
  ++ " notes)" ++ nl
  ++ String.concat "" (map format_entry (sorted_by entry_title (snd g)))
  ++ nl.

(** The topics in the order of the listing, each with its entries in the
    order of the listing. *)
Definition listing (notes : list (string * note_data)) : list (string * list entry) :=
  map (fun g => (fst g, sorted_by entry_title (snd g)))
      (sorted_by fst (group_notes notes)).

Definition list_notes (state : option (list (string * note_data))) : string :=
  let notes := state_notes state in
  match notes with
  | [] => no_knowledge_base
  | _ =>
      let by_topic := group_notes notes in
      "Knowledge Base: " ++ str_of_nat (List.length notes) ++ " note(s) across "
      ++ str_of_nat (List.length by_topic) ++ " topic(s)" ++ nl ++ nl
      ++ String.concat "" (map format_topic (sorted_by fst by_topic))
      ++ "Use search_knowledge to find specific information, or get_note to read a full note."
  end.

(** *** search_knowledge.py *)

Record search_match : Type := mk_match {
  m_path : string;
  m_title : string;
  m_snippet : string
}.

Definition snippet_of (query content : string) : string :=
  let content_lower := lower content in
  let match_pos := find (lower query) content_lower in
  if negb (match_pos =? -1)%Z then
    let start := Z.max 0 (match_pos - 100) in
    let end_ := Z.min (len content) (match_pos + len query + 100) in
    let snippet := slice start end_ content in
    let snippet := if (0 <? start)%Z then "..." ++ snippet else snippet in
    if (end_ <? len content)%Z then snippet ++ "..." else snippet
  else
    if (200 <? len content)%Z then take 200 content ++ "..." else content.

Definition match_note (query : string) (kv : string * note_data) : option search_match :=
  let path := fst kv in
  let title := get_default (nd_title (snd kv)) path in
  let content := get_default (nd_content (snd kv)) "" in
  let query_lower := lower query in
  if contains query_lower (lower title) || contains query_lower (lower content)
  then Some (mk_match path title (strip (snippet_of query content)))
  else None.

Definition search_matches (query : string) (notes : list (string * note_data)) : list search_match :=
  omap (match_note query) notes.

Definition format_match (m : search_match) : string :=
  "**" ++ m_title m ++ "** (`" ++ m_path m ++ "`)" ++ nl
  ++ "> " ++ m_snippet m ++ nl ++ nl.

Definition more_results (n : nat) : string :=
  "...and " ++ str_of_nat n ++ " more results.".

Definition search_knowledge (query : string) (state : option (list (string * note_data))) : string :=
  let notes := state_notes state in
  match notes with
  | [] => no_knowledge_base
  | _ =>
      let matches := search_matches query notes in
      match matches with
      | [] => "No notes found matching '" ++ query
              ++ "'. Try different keywords or use list_notes to see all available notes."
      | _ =>
          let result := "Found " ++ str_of_nat (List.length matches)
                        ++ " note(s) matching '" ++ query ++ "':" ++ nl ++ nl in
          let result := result ++ String.concat "" (map format_match (firstn 10 matches)) in
          if (10 <? List.length matches)%nat
          then result ++ more_results (List.length matches - 10)
          else result
      end
  end.

End Tools.

Import Tools.

(** ** backend/main.py *)

Module Backend.

Definition _CACHE_TTL : Q := 300.

Record submitted_pr : Type := mk_pr {
  sp_pr_number : Z;
  sp_pr_url : string;
  sp_branch : string;
  sp_user_email : string;
  sp_files : list string;
  sp_status : string;
  sp_submitted_at : string;
  sp_merged_at : option string;
  sp_closed_at : option string
}.

Definition set_status (status : string) (r : submitted_pr) : submitted_pr :=
  mk_pr (sp_pr_number r) (sp_pr_url r) (sp_branch r) (sp_user_email r) (sp_files r)
        status (sp_submitted_at r) (sp_merged_at r) (sp_closed_at r).

Definition set_merged_at (t : string) (r : submitted_pr) : submitted_pr :=
  mk_pr (sp_pr_number r) (sp_pr_url r) (sp_branch r) (sp_user_email r) (sp_files r)
        (sp_status r) (sp_submitted_at r) (Some t) (sp_closed_at r).

Definition set_closed_at (t : string) (r : submitted_pr) : submitted_pr :=
  mk_pr (sp_pr_number r) (sp_pr_url r) (sp_branch r) (sp_user_email r) (sp_files r)
        (sp_status r) (sp_submitted_at r) (sp_merged_at r) (Some t).

(** The module-level globals [_notes_cache], [_cache_timestamp] and
    [_submitted_prs]. *)
Record state : Type := mk_state {
  _notes_cache : list (string * note_data);
  _cache_timestamp : Q;
  _submitted_prs : gmap Z submitted_pr
}.

Definition initial_state : state := mk_state [] 0 ∅.

Record environ : Type := mk_environ {
  KNOWLEDGE_REPO : option string;
  KNOWLEDGE_BRANCH : option string;
  GITHUB_WEBHOOK_SECRET : option string
}.

(** What one request finds outside the process: the environment, the
    clock at the freshness test and after a fetch, the UTC timestamp, the
    GitHub credentials and the answers of the remote repository. *)
Record world : Type := mk_world {
  w_environ : environ;
  w_now : Q;
  w_stamp : Q;
  w_utcnow : string;
  w_client : bool;
  w_repo : string -> option string -> remote;
  w_pull : string -> Z -> outcome pull_request
}.

Inductive effect : Type :=
  | Refresh (force : bool)
  | Fetch (repo_name : string) (branch : option string).

(** What a call leaves behind: its outcome, the globals and what it did. *)
Record result (A : Type) : Type := mk_result {
  res_outcome : outcome A;
  res_state : state;
  res_effects : list effect
}.

Arguments mk_result {A}.
Arguments res_outcome {A}.
Arguments res_state {A}.
Arguments res_effects {A}.

Definition is_refresh (force : bool) (e : effect) : bool :=
  match e with Refresh f => Bool.eqb f force | Fetch _ _ => false end.

Definition is_fetch (e : effect) : bool :=
  match e with Fetch _ _ => true | Refresh _ => false end.

Definition count_fetches {A : Type} (r : result A) : nat :=
  List.length (List.filter is_fetch (res_effects r)).

Definition count_forced_refreshes {A : Type} (r : result A) : nat :=
  List.length (List.filter (is_refresh true) (res_effects r)).

Definition count_refreshes {A : Type} (r : result A) : nat :=
  List.length (List.filter (fun e => negb (is_fetch e)) (res_effects r)).

(** Truth value of an optional string, as [if x:] tests it. *)
Definition truthy (x : option string) : bool := negb (not_given x).

Definition nonempty {A : Type} (l : list A) : bool :=
  match l with [] => false | _ => true end.

Definition Qltb (x y : Q) : bool := negb (Qle_bool y x).

(** [(time.time() - _cache_timestamp) < _CACHE_TTL] *)
Definition cache_valid (now : Q) (st : state) : bool :=
  Qltb (now - _cache_timestamp st) _CACHE_TTL.

Definition refresh_notes_cache (w : world) (force : bool) (st : state)
  : result (list (string * note_data)) :=
  if negb force && nonempty (_notes_cache st) && cache_valid (w_now w) st
  then mk_result (Returns (_notes_cache st)) st [Refresh force]
  else
    let repo := KNOWLEDGE_REPO (w_environ w) in
    if not_given repo then mk_result (Returns []) st [Refresh force]
    else
      let repo_name := get_default repo "" in
      let branch := KNOWLEDGE_BRANCH (w_environ w) in
      let effects := [Refresh force; Fetch repo_name branch] in
      match fetch_knowledge_base (w_client w) (w_repo w repo_name branch) with
      | Returns notes =>
          mk_result (Returns notes)
                    (mk_state notes (w_stamp w) (_submitted_prs st)) effects
      | Raises _ =>
          if nonempty (_notes_cache st)
          then mk_result (Returns (_notes_cache st)) st effects
          else mk_result (Returns []) st effects
      end.

(** *** [get_pr_status_endpoint] *)

Definition track_status (result : pr_status) (r : submitted_pr) : submitted_pr :=
  let r := set_status (st_status result) r in
  let r := if truthy (st_merged_at result)
           then set_merged_at (get_default (st_merged_at result) "") r else r in
  if truthy (st_closed_at result)
  then set_closed_at (get_default (st_closed_at result) "") r else r.

Definition get_pr_status_endpoint (w : world) (pr_number : Z) (st : state)
  : result pr_status :=
  let repo := KNOWLEDGE_REPO (w_environ w) in
  if not_given repo
  then mk_result (Raises (HTTPException 500 "KNOWLEDGE_REPO environment variable not set"))
                 st []
  else
    match get_pr_status (w_client w) (w_pull w (get_default repo "") pr_number) pr_number with
    | Returns result =>
        let prs := _submitted_prs st in
        let prs := match prs !! pr_number with
                   | Some r => <[pr_number := track_status result r]> prs
                   | None => prs
                   end in
        mk_result (Returns result)
                  (mk_state (_notes_cache st) (_cache_timestamp st) prs) []
    | Raises (ValueError msg) => mk_result (Raises (HTTPException 500 msg)) st []
    | Raises _ => mk_result (Raises (HTTPException 404 "PR not found or error")) st []
    end.

(** *** [github_webhook] *)

(** A request: the headers [X-Hub-Signature-256] and [X-GitHub-Event],
    the raw body, and the body parsed as JSON ([None] when it is not
    JSON). *)
Record request : Type := mk_request {
  rq_signature : option string;
  rq_event : option string;
  rq_body : list Byte.byte;
  rq_json : option json
}.

(** The [message] of the reply.  [PrMerged n] is
    [f"PR #{pr_number} merged, knowledge base refreshed"] and [PrClosed n]
    is [f"PR #{pr_number} closed"], with [pr_number] as it was read;
    [Refreshed] is ["Knowledge base refreshed"] and [Received] is
    ["Webhook received"]. *)
Inductive message : Type :=
  | PrMerged (pr_number : json)
  | PrClosed (pr_number : json)
  | Refreshed
  | Received.

(** [pr_number in _submitted_prs]: the key of the ledger that equals
    [pr_number], if one can.  The keys are integers, [True == 1] and
    [7.0 == 7]; a list or a dict is unhashable. *)
Definition ledger_key (pr_number : json) : outcome (option Z) :=
  match pr_number with
  | JInt n => Returns (Some n)
  | JBool b => Returns (Some (if b then 1 else 0)%Z)
  | JFloat (Finite q) =>
      Returns (if (Qnum q mod Zpos (Qden q) =? 0)%Z
               then Some (Qnum q / Zpos (Qden q))%Z else None)
  | JFloat _ | JNull | JStr _ => Returns None
  | JList _ | JObj _ => Raises TypeError
  end.

Definition str_of_Z (z : Z) : string :=
  if (z <? 0)%Z then "-" ++ str_of_nat (Z.to_nat (- z)) else str_of_nat (Z.to_nat z).

Definition with_prs (prs : gmap Z submitted_pr) (st : state) : state :=
  mk_state (_notes_cache st) (_cache_timestamp st) prs.

(** [if pr_number in _submitted_prs: ...], for the key that equals
    [pr_number]. *)
Definition update_tracked (n : option Z) (f : submitted_pr -> submitted_pr) (st : state) : state :=
  match n with
  | Some k =>
      match _submitted_prs st !! k with
      | Some r => with_prs (<[k := f r]> (_submitted_prs st)) st
      | None => st
      end
  | None => st
  end.

Section Webhook.

Variable hmac_sha256 : list Byte.byte -> list Byte.byte -> list Byte.byte.

(** The events, once the signature and the JSON body are accepted.  An
    exception that the handler does not catch ends the call where it is
    raised: what was done before stays done. *)
Definition dispatch (w : world) (event_type : string) (payload : json) (st : state)
  : result message :=
  let received := mk_result (Returns Received) st [] in
  let raises := fun e => mk_result (A := message) (Raises e) st [] in
  if String.eqb event_type "pull_request" then
    match jget "action" (JStr "") payload with
    | Raises e => raises e
    | Returns action =>
    match jget "pull_request" (JObj []) payload with
    | Raises e => raises e
    | Returns pr =>
    match jget "number" JNull pr with
    | Raises e => raises e
    | Returns pr_number =>
        if jeq_str action "closed" then
          match jget "merged" (JBool false) pr with
          | Raises e => raises e
          | Returns merged =>
              if jtruthy merged then
                let r := refresh_notes_cache w true st in
                match ledger_key pr_number with
                | Raises e => mk_result (Raises e) (res_state r) (res_effects r)
                | Returns key =>
                    let st1 := update_tracked key
                                 (fun r => set_merged_at (w_utcnow w) (set_status "merged" r))
                                 (res_state r) in
                    mk_result (Returns (PrMerged pr_number)) st1 (res_effects r)
                end
              else
                match ledger_key pr_number with
                | Raises e => raises e
                | Returns key =>
                    let st1 := update_tracked key
                                 (fun r => set_closed_at (w_utcnow w) (set_status "closed" r))
                                 st in
                    mk_result (Returns (PrClosed pr_number)) st1 []
                end
          end
        else received
    end end end
  else if String.eqb event_type "push" then
    match jget "ref" (JStr "") payload with
    | Raises e => raises e
    | Returns ref =>
        let branch := KNOWLEDGE_BRANCH (w_environ w) in
        let default_branch := if truthy branch then get_default branch "" else "main" in
        if jeq_str ref ("refs/heads/" ++ default_branch) then
          let r := refresh_notes_cache w true st in
          mk_result (Returns Refreshed) (res_state r) (res_effects r)
        else received
    end
  else received.

(** The signature gate: [Returns tt] lets the request through. *)
Definition check_signature (w : world) (rq : request) : outcome unit :=
  let secret := GITHUB_WEBHOOK_SECRET (w_environ w) in
  if truthy secret then
    match verify_webhook_signature hmac_sha256 (rq_body rq)
            (get_default (rq_signature rq) "") (get_default secret "") with
    | Returns true => Returns tt
    | Returns false => Raises (HTTPException 401 "Invalid webhook signature")
    | Raises e => Raises e
    end
  else Returns tt.

Definition github_webhook (w : world) (rq : request) (st : state) : result message :=
  match check_signature w rq with
  | Raises e => mk_result (Raises e) st []
  | Returns _ =>
      match rq_json rq with
      | None => mk_result (Raises (HTTPException 400 "Invalid JSON payload")) st []
      | Some p => dispatch w (get_default (rq_event rq) "") p st
      end
  end.

(** *** Sequences of webhook events and status polls *)

Inductive operation : Type :=
  | Webhook (w : world) (rq : request)
  | Poll (w : world) (pr_number : Z).

Definition step (st : state) (o : operation) : state :=
  match o with
  | Webhook w rq => res_state (github_webhook w rq st)
  | Poll w n => res_state (get_pr_status_endpoint w n st)
  end.

Definition run (ops : list operation) (st : state) : state := fold_left step ops st.

(** The status that a poll of pull request [n] reads from the remote
    repository, when the poll is one of [n] and gets an answer. *)
Definition polled_status (n : Z) (o : operation) : option string :=
  match o with
  | Webhook _ _ => None
  | Poll w k =>
      if (k =? n)%Z then
        match res_outcome (get_pr_status_endpoint w k initial_state) with
        | Returns s => Some (st_status s)
        | Raises _ => None
        end
      else None
  end.

End Webhook.

End Backend.

Import Backend.

(** ** backend/github_client.py: contributions *)

Module Contribution.

(** [str.isalnum] on one character. *)
Definition isalnum (c : ascii) : bool :=
  let n := code c in
  between 48 57 n || between 65 90 n || between 97 122 n
  || (n =? 170)%nat || between 178 179 n || (n =? 181)%nat || between 185 186 n
  || between 188 190 n || between 192 214 n || between 216 246 n
  || between 248 255 n.

(** ["".join(c if c.isalnum() else "-" for c in title.lower())[:30]] *)
Definition safe_title (title : string) : string :=
  take 30 (map_chars (fun c => if isalnum c then c else "-"%char) (lower title)).

(** [f"kb/{safe_title}-{timestamp}"] *)
Definition branch_name (title : string) (timestamp : Z) : string :=
  "kb/" ++ safe_title title ++ "-" ++ str_of_Z timestamp.

(** The commit author: name and email. *)
Definition author : Type := (string * string)%type.

(** A repository as PyGithub presents it: what each call answers. *)
Record repo : Type := mk_repo {
  default_branch : string;
  get_branch : string -> outcome string;
  create_git_ref : string -> string -> outcome unit;
  create_file : string -> string -> string -> string -> author -> outcome unit;
  get_contents : string -> string -> outcome string;
  update_file : string -> string -> string -> string -> string -> author -> outcome unit;
  create_pull : string -> string -> string -> string -> outcome (string * Z)
}.

(** The calls made on the repository, with their arguments. *)
Inductive call : Type :=
  | GetBranch (branch : string)
  | CreateGitRef (ref sha : string)
  | CreateFile (path message content branch : string) (a : author)
  | GetContents (path ref : string)
  | UpdateFile (path message content sha branch : string) (a : author)
  | CreatePull (title body head base : string).

(** A computation that calls the repository: its outcome and the calls it
    made, in order. *)
Definition remote_call (A : Type) : Type := (outcome A * list call)%type.

#[global] Instance remote_ret : MRet remote_call := fun A a => (Returns a, []).

#[global] Instance remote_bind : MBind remote_call := fun A B f m =>
  match m with
  | (Returns a, l) => let '(r, l') := f a in (r, (l ++ l')%list)
  | (Raises e, l) => (Raises e, l)
  end.

Definition invoke {A : Type} (c : call) (answer : outcome A) : remote_call A :=
  (answer, [c]).

Definition raise {A : Type} (e : exn) : remote_call A := (Raises e, []).

(** [try: m except Exception: handler] *)
Definition try_except {A : Type} (m handler : remote_call A) : remote_call A :=
  match m with
  | (Raises _, l) => let '(r, l') := handler in (r, (l ++ l')%list)
  | ok => ok
  end.

Record pr_result : Type := mk_pr_result {
  cr_pr_url : string;
  cr_pr_number : Z;
  cr_branch : string;
  cr_files_changed : option nat
}.

(** One entry of [changes]: [path] and [content] are read with
    [change[...]], [title] and [is_new] with [change.get]. *)
Record change : Type := mk_change {
  ch_path : string;
  ch_content : string;
  ch_title : option string;
  ch_is_new : option bool
}.

Definition not_configured : string :=
  "GitHub App not configured. Set GITHUB_APP_ID, GITHUB_APP_PRIVATE_KEY, and GITHUB_APP_INSTALLATION_ID.".

(** [target_branch or repo.default_branch] *)
Definition base_of (r : repo) (target_branch : option string) : string :=
  if truthy target_branch then get_default target_branch "" else default_branch r.

(** Create the file, or update it and fall back to creating it when the
    read or the update fails.  Returns whether the file was created. *)
Definition write_file (r : repo) (base_branch branch : string) (a : author)
    (file_path content commit_message : string) (is_new : bool) : remote_call bool :=
  let create :=
    invoke (CreateFile file_path commit_message content branch a)
           (create_file r file_path commit_message content branch a)
    ≫= fun _ => mret true in
  if is_new then create
  else
    try_except
      (invoke (GetContents file_path base_branch) (get_contents r file_path base_branch)
       ≫= fun sha =>
       invoke (UpdateFile file_path commit_message content sha branch a)
              (update_file r file_path commit_message content sha branch a)
       ≫= fun _ => mret false)
      create.

Definition action_of (is_new : bool) : string := if is_new then "Add" else "Update".

Definition single_body (title file_path action user_name user_email : string) : string :=
  "## Knowledge Base Contribution" ++ nl ++ nl
  ++ "**Note:** " ++ title ++ nl
  ++ "**File:** `" ++ file_path ++ "`" ++ nl
  ++ "**Action:** " ++ action ++ nl
  ++ "**Contributed by:** " ++ user_name ++ " (" ++ user_email ++ ")" ++ nl ++ nl
  ++ "---" ++ nl ++ nl
  ++ "Please review the changes and merge if appropriate." ++ nl.

(** The branch, the file and the pull request, once the repository is at
    hand. *)
Definition open_branch (r : repo) (base_branch branch : string) : remote_call unit :=
  invoke (GetBranch base_branch) (get_branch r base_branch)
  ≫= fun sha =>
  invoke (CreateGitRef ("refs/heads/" ++ branch) sha)
         (create_git_ref r ("refs/heads/" ++ branch) sha).

Definition open_pull (r : repo) (title body head base : string)
    (files_changed : option nat) : remote_call pr_result :=
  invoke (CreatePull title body head base) (create_pull r title body head base)
  ≫= fun pr => mret (mk_pr_result (fst pr) (snd pr) head files_changed).

(** [github] is [None] when the GitHub App credentials are not
    configured, else what [client.get_repo] answers; [timestamp] is
    [int(time.time())]. *)
Definition create_pr (github : option (string -> outcome repo)) (timestamp : Z)
    (repo_name file_path content title user_name user_email : string)
    (is_new : bool) (target_branch : option string) : remote_call pr_result :=
  match github with
  | None => raise (ValueError not_configured)
  | Some get_repo =>
      match get_repo repo_name with
      | Raises e => raise e
      | Returns r =>
          let branch := branch_name title timestamp in
          let base_branch := base_of r target_branch in
          open_branch r base_branch branch
          ≫= fun _ =>
          let action := action_of is_new in
          write_file r base_branch branch (user_name, user_email) file_path content
                     (action ++ " " ++ title) is_new
          ≫= fun _ =>
          open_pull r (action ++ ": " ++ title)
                    (single_body title file_path action user_name user_email)
                    branch base_branch None
      end
  end.

Definition added_line (file_path : string) : string := "- `" ++ file_path ++ "` (new)".

Definition updated_line (file_path : string) : string := "- `" ++ file_path ++ "`".

(** The loop over [changes], with the lists [files_added] and
    [files_updated] it fills. *)
Fixpoint write_changes (r : repo) (base_branch branch : string) (a : author)
    (changes : list change) (files_added files_updated : list string)
  : remote_call (list string * list string) :=
  match changes with
  | [] => mret (files_added, files_updated)
  | c :: rest =>
      let file_path := ch_path c in
      let title := get_default (ch_title c) file_path in
      let is_new := default false (ch_is_new c) in
      write_file r base_branch branch a file_path (ch_content c)
                 (action_of is_new ++ " " ++ title) is_new
      ≫= fun created =>
      if created : bool
      then write_changes r base_branch branch a rest
             (files_added ++ [added_line file_path])%list files_updated
      else write_changes r base_branch branch a rest
             files_added (files_updated ++ [updated_line file_path])%list
  end.

Definition batch_head (user_name user_email : string) : list string :=
  ["## Knowledge Base Contribution" ++ nl;
   "**Contributed by:** " ++ user_name ++ " (" ++ user_email ++ ")" ++ nl].

Definition batch_section (heading : string) (files : list string) : list string :=
  if nonempty files then List.app (heading :: files) [""] else [].

Definition batch_foot : list string :=
  ["---" ++ nl; "Please review the changes and merge if appropriate."].

Definition batch_body (user_name user_email : string)
    (files_added files_updated : list string) : string :=
  join nl
    (List.app (batch_head user_name user_email)
       (List.app (batch_section "### New Notes" files_added)
          (List.app (batch_section "### Updated Notes" files_updated) batch_foot))).

Definition create_pr_batch (github : option (string -> outcome repo)) (timestamp : Z)
    (repo_name : string) (changes : list change)
    (pr_title user_name user_email : string) (target_branch : option string)
  : remote_call pr_result :=
  match github with
  | None => raise (ValueError not_configured)
  | Some get_repo =>
      match get_repo repo_name with
      | Raises e => raise e
      | Returns r =>
          let branch := branch_name pr_title timestamp in
          let base_branch := base_of r target_branch in
          open_branch r base_branch branch
          ≫= fun _ =>
          write_changes r base_branch branch (user_name, user_email) changes [] []
          ≫= fun files =>
          open_pull r pr_title
                    (batch_body user_name user_email (fst files) (snd files))
                    branch base_branch (Some (List.length changes))
      end
  end.

End Contribution.

Import Contribution.

(** ** backend/main.py: contributions and tracking *)

Module Endpoints.

(** [s.split(sep, 1)] for a one-character separator. *)
Definition split_once (sep : ascii) (s : string) : list string :=
  let before := take_while (fun c => negb (Ascii.eqb c sep)) s in
  match drop_while (fun c => negb (Ascii.eqb c sep)) s with
  | "" => [s]
  | String _ after => [before; after]
  end.

(** [email.split("@")[0].replace(".", " ").title()] *)
Definition name_of_email (email : string) : string :=
  title (replace "." " " (first_item (split_char "@" email))).

(** Where the identity of a contributor comes from: the header
    [X-Goog-Authenticated-User-Email] and the environment. *)
Record identity_source : Type := mk_identity_source {
  iap_header : option string;
  DEV_USER_EMAIL : option string;
  DEV_USER_NAME : option string
}.

(** The pair [(user_email, user_name)] of [contribute] and
    [contribute_batch]. *)
Definition resolve_identity (src : identity_source) : string * string :=
  let iap_email := get_default (iap_header src) "" in
  if negb (String.eqb iap_email "") && contains ":" iap_email then
    let user_email := nth 1 (split_once ":" iap_email) "" in
    (user_email, name_of_email user_email)
  else if truthy (DEV_USER_EMAIL src) then
    let user_email := get_default (DEV_USER_EMAIL src) "" in
    (user_email,
     if truthy (DEV_USER_NAME src) then get_default (DEV_USER_NAME src) ""
     else name_of_email user_email)
  else ("anonymous@knowledge-agent.local", "Anonymous Contributor").

(** [FileChange]: every field is there, [is_new] false by default. *)
Record file_change : Type := mk_file_change {
  fc_path : string;
  fc_title : string;
  fc_content : string;
  fc_is_new : bool
}.

Definition to_change (c : file_change) : change :=
  mk_change (fc_path c) (fc_content c) (Some (fc_title c)) (Some (fc_is_new c)).

Definition repo_not_set : exn :=
  HTTPException 500 "KNOWLEDGE_REPO environment variable not set".

(** [HTTPException(status_code=500, detail=f"Failed to create PR: {str(e)}")] *)
Definition failed_to_create (text : string) : exn :=
  HTTPException 500 ("Failed to create PR: " ++ text).

(** [contribute_batch]: the outcome, the globals, and the calls made on
    the repository.  [describe] is [str] on the exception that
    [create_pr_batch] raised. *)
Definition contribute_batch (w : world) (github : option (string -> outcome repo))
    (describe : exn -> string) (timestamp : Z) (src : identity_source)
    (body_changes : list file_change) (pr_title : string) (st : state)
  : result pr_result * list call :=
  let repo := KNOWLEDGE_REPO (w_environ w) in
  if not_given repo then (mk_result (Raises repo_not_set) st [], [])
  else
    let '(user_email, user_name) := resolve_identity src in
    let changes := map to_change body_changes in
    match create_pr_batch github timestamp (get_default repo "") changes pr_title
            user_name user_email (KNOWLEDGE_BRANCH (w_environ w)) with
    | (Returns res, calls) =>
        let record :=
          mk_pr (cr_pr_number res) (cr_pr_url res) (cr_branch res) user_email
                (map ch_path changes) "open" (w_utcnow w) None None in
        (mk_result (Returns res)
           (with_prs (<[cr_pr_number res := record]> (_submitted_prs st)) st) [],
         calls)
    | (Raises (ValueError msg), calls) =>
        (mk_result (Raises (HTTPException 500 msg)) st [], calls)
    | (Raises e, calls) =>
        (mk_result (Raises (failed_to_create (describe e))) st [], calls)
    end.

(** [contribute]: one file, and no entry in the ledger. *)
Definition contribute (w : world) (github : option (string -> outcome repo))
    (describe : exn -> string) (timestamp : Z) (src : identity_source)
    (body : file_change) (st : state) : result pr_result * list call :=
  let repo := KNOWLEDGE_REPO (w_environ w) in
  if not_given repo then (mk_result (Raises repo_not_set) st [], [])
  else
    let '(user_email, user_name) := resolve_identity src in
    match create_pr github timestamp (get_default repo "") (fc_path body)
            (fc_content body) (fc_title body) user_name user_email (fc_is_new body)
            (KNOWLEDGE_BRANCH (w_environ w)) with
    | (Returns res, calls) => (mk_result (Returns res) st [], calls)
    | (Raises (ValueError msg), calls) =>
        (mk_result (Raises (HTTPException 500 msg)) st [], calls)
    | (Raises e, calls) =>
        (mk_result (Raises (failed_to_create (describe e))) st [], calls)
    end.

(** The body of a [track-pr] request: every entry is read with [get]. *)
Record pr_data : Type := mk_pr_data {
  pd_pr_number : option Z;
  pd_pr_url : option string;
  pd_branch : option string;
  pd_user_email : option string;
  pd_files : option (list string)
}.

Definition track_pr (w : world) (d : pr_data) (st : state) : result string :=
  match pd_pr_number d with
  | None => mk_result (Raises (HTTPException 400 "pr_number required")) st []
  | Some pr_number =>
      if (pr_number =? 0)%Z
      then mk_result (Raises (HTTPException 400 "pr_number required")) st []
      else
        let record :=
          mk_pr pr_number (get_default (pd_pr_url d) "") (get_default (pd_branch d) "")
                (get_default (pd_user_email d) "")
                (match pd_files d with Some l => l | None => [] end)
                "open" (w_utcnow w) None None in
        mk_result (Returns ("Tracking PR #" ++ str_of_Z pr_number))
                  (with_prs (<[pr_number := record]> (_submitted_prs st)) st) []
  end.

(** What a record keeps from its submission. *)
Definition submission (r : submitted_pr) : Z * string * string * string * list string * string :=
  (sp_pr_number r, sp_pr_url r, sp_branch r, sp_user_email r, sp_files r, sp_submitted_at r).

End Endpoints.

Import Endpoints.

(** ** agent/tools: get_note and surface_note *)

Module NoteTools.

Definition render_note (path : string) (nd : note_data) : string :=
  "<note path=" ++ dq ++ path ++ dq ++ " title=" ++ dq ++ get_default (nd_title nd) path
  ++ dq ++ ">" ++ nl ++ get_default (nd_content nd) "" ++ nl ++ "</note>".

(** [note_path in path or path.endswith(note_path)] *)
Definition partial_match (note_path : string) (kv : string * note_data) : bool :=
  contains note_path (fst kv) || endswith note_path (fst kv).

Definition note_not_found (note_path : string) (available : list string) : string :=
  "Note '" ++ note_path ++ "' not found." ++ nl ++ nl
  ++ "Available notes include:" ++ nl
  ++ join nl (map (fun p => "- " ++ p) available) ++ nl ++ nl
  ++ "Use list_notes to see all available notes.".

Definition get_note (note_path : string) (state : option (list (string * note_data))) : string :=
  let notes := state_notes state in
  match notes with
  | [] => no_knowledge_base
  | _ =>
      match dict_get note_path notes with
      | Some nd => render_note note_path nd
      | None =>
          match List.find (partial_match note_path) notes with
          | Some (path, nd) => render_note path nd
          | None => note_not_found note_path (firstn 5 (map fst notes))
          end
      end
  end.

Record surface_event : Type := mk_surface {
  se_path : string;
  se_title : string;
  se_highlight_text : option string;
  se_section_title : option string
}.

(** The session state that [surface_note] reads and writes. *)
Record tool_state : Type := mk_tool_state {
  ts_notes : option (list (string * note_data));
  ts_surface_requests : option (list surface_event)
}.

Definition json_opt (x : option string) : string :=
  match x with Some s => json_str s | None => "null" end.

(** [json.dumps(surface_event)] *)
Definition json_dumps_surface (e : surface_event) : string :=
  "{" ++ json_entry "type" (json_str "surface_note")
  ++ ", " ++ json_entry "path" (json_str (se_path e))
  ++ ", " ++ json_entry "title" (json_str (se_title e))
  ++ ", " ++ json_entry "highlight_text" (json_opt (se_highlight_text e))
  ++ ", " ++ json_entry "section_title" (json_opt (se_section_title e))
  ++ "}".

(** The text returned and the session state after the call. *)
Definition surface_note (path : string) (highlight_text section_title : option string)
    (tool_context : option tool_state) : string * option tool_state :=
  let notes := match tool_context with
               | Some st => state_notes (ts_notes st)
               | None => []
               end in
  match dict_get path notes with
  | None =>
      ("Note '" ++ path ++ "' not found. Available notes: "
       ++ join ", " (firstn 5 (map fst notes)), tool_context)
  | Some note =>
      let title := get_default (nd_title note) path in
      let e := mk_surface path title highlight_text section_title in
      let marker := "<!--SURFACE:" ++ json_dumps_surface e ++ "-->" in
      (marker ++ nl ++ "Note '" ++ title ++ "' has been surfaced to the user's viewer.",
       match tool_context with
       | Some st =>
           let current :=
             match ts_surface_requests st with Some l => l | None => [] end in
           Some (mk_tool_state (ts_notes st) (Some (List.app current [e])))
       | None => None
       end)
  end.

(** The surface requests recorded in a session state. *)
Definition requests (tool_context : option tool_state) : list surface_event :=
  match tool_context with
  | Some st => match ts_surface_requests st with Some l => l | None => [] end
  | None => []
  end.

(** Successive calls on one session. *)
Definition surface_all (calls : list (string * option string * option string))
    (tool_context : option tool_state) : option tool_state :=
  fold_left (fun ctx c => snd (surface_note (fst (fst c)) (snd (fst c)) (snd c) ctx))
            calls tool_context.

End NoteTools.

Import NoteTools.

(** ** scripts/cluster_notes.py: the title of a local note *)

Module ClusterScript.

(** The title that [main] gives a local file: the text of the first line
    that starts with [# ], else the stem of the file name, title-cased. *)
Definition local_title (stem content : string) : string :=
  match List.find (startswith "# ") (split_char "010" content) with
  | Some line => strip (drop 2 line)
  | None => title (replace "_" " " (replace "-" " " stem))
  end.

End ClusterScript.

Import ClusterScript.

(** ** Notions used to state further properties *)

Module Notions.

(** A manifest as the clustering script writes it: clusters, each with a
    name and the names of its notes, either of which may be missing. *)
Record cluster : Type := mk_cluster {
  cl_name : option string;
  cl_notes : option (list string)
}.

Record clusters_data : Type := mk_clusters { cd_clusters : option (list cluster) }.

Definition json_of_cluster (c : cluster) : json :=
  JObj (List.app
          (match cl_name c with Some n => [("name", JStr n)] | None => [] end)
          (match cl_notes c with Some l => [("notes", JList (map JStr l))] | None => [] end)).

Definition json_of_manifest (cd : clusters_data) : json :=
  JObj (match cd_clusters cd with
        | Some l => [("clusters", JList (map json_of_cluster l))]
        | None => []
        end).

(** The mapping of such a manifest, cluster after cluster. *)
Definition assign_names (name : string) (files : list string) (m : gmap string json)
  : gmap string json :=
  fold_left (fun m file => <[file := JStr name]> m) files m.

Definition manifest_mapping (clusters : list cluster) (m : gmap string json)
  : gmap string json :=
  fold_left
    (fun m c => assign_names (get_default (cl_name c) "General") (default [] (cl_notes c)) m)
    clusters m.

(** A JSON value that is no object. *)
Definition not_an_object (v : json) : Prop :=
  match v with JObj _ => False | _ => True end.

(** A file of the listing that becomes a note. *)
Definition readable (f : content_file) : bool :=
  String.eqb (cf_type f) "file" && endswith ".md" (cf_name f)
  && match cf_decoded f with Returns _ => true | Raises _ => false end.

(** A string with a character outside ASCII. *)
Definition non_ascii (s : string) : Prop := is_ascii_str s = false.

(** What a record keeps from its submission, whatever happens to its
    status. *)
Definition same_submission (r r' : submitted_pr) : Prop :=
  sp_pr_number r' = sp_pr_number r /\ sp_pr_url r' = sp_pr_url r
  /\ sp_branch r' = sp_branch r /\ sp_user_email r' = sp_user_email r
  /\ sp_files r' = sp_files r /\ sp_submitted_at r' = sp_submitted_at r.

(** Successive calls of [refresh_notes_cache], each with its world and
    its [force]. *)
Definition refresh_all (calls : list (world * bool)) (st : state) : state :=
  fold_left (fun st c => res_state (refresh_notes_cache (fst c) (snd c) st)) calls st.

(** The events on which the webhook refreshes the cache: a pull request
    (an object) reported closed and merged, and a push to the default
    branch. *)
Definition closed_and_merged (p : json) : bool :=
  match jget "action" (JStr "") p, jget "pull_request" (JObj []) p with
  | Returns action, Returns pr =>
      match jget "merged" (JBool false) pr with
      | Returns merged => jeq_str action "closed" && jtruthy merged
      | Raises _ => false
      end
  | _, _ => false
  end.

Definition push_to (branch : string) (p : json) : bool :=
  match jget "ref" (JStr "") p with
  | Returns ref => jeq_str ref ("refs/heads/" ++ branch)
  | Raises _ => false
  end.

Definition refreshing_event (w : world) (event_type : string) (p : json) : bool :=
  (String.eqb event_type "pull_request" && closed_and_merged p)
  || (String.eqb event_type "push"
      && push_to (if truthy (KNOWLEDGE_BRANCH (w_environ w))
                  then get_default (KNOWLEDGE_BRANCH (w_environ w)) "" else "main") p).

(** Every character of a string satisfies [p]. *)
Fixpoint all_chars (p : ascii -> bool) (s : string) : bool :=
  match s with
  | "" => true
  | String c s' => p c && all_chars p s'
  end.

(** A change that ends as an update: it is not marked new, and the read
    of the current file and the update both succeed. *)
Definition updates (r : repo) (base_branch branch : string) (a : author) (c : change)
  : bool :=
  let file_path := ch_path c in
  let is_new := default false (ch_is_new c) in
  let message := action_of is_new ++ " " ++ get_default (ch_title c) file_path in
  negb is_new
  && match get_contents r file_path base_branch with
     | Returns sha =>
         match update_file r file_path message (ch_content c) sha branch a with
         | Returns _ => true
         | Raises _ => false
         end
     | Raises _ => false
     end.

(** A call that writes a file writes it to [branch] in the name of [a]. *)
Definition writes_to (branch : string) (a : author) (c : call) : Prop :=
  match c with
  | CreateFile _ _ _ b a' => b = branch /\ a' = a
  | UpdateFile _ _ _ _ b a' => b = branch /\ a' = a
  | _ => True
  end.

(** A string without colon. *)
Definition no_colon (s : string) : bool :=
  all_chars (fun c => negb (Ascii.eqb c ":")) s.

(** The characters of the title part of a branch name. *)
Definition branch_char (c : ascii) : bool := isalnum c || Ascii.eqb c "-".

(** A call that writes a file. *)
Definition is_write (c : call) : bool :=
  match c with
  | CreateFile _ _ _ _ _ | UpdateFile _ _ _ _ _ _ => true
  | _ => false
  end.

(** A call that opens a pull request. *)
Definition is_pull (c : call) : bool :=
  match c with CreatePull _ _ _ _ => true | _ => false end.

(** A call that wrote a file: the repository accepted it. *)
Definition written (r : repo) (c : call) : bool :=
  match c with
  | CreateFile path message content branch a =>
      match create_file r path message content branch a with
      | Returns _ => true
      | Raises _ => false
      end
  | UpdateFile path message content sha branch a =>
      match update_file r path message content sha branch a with
      | Returns _ => true
      | Raises _ => false
      end
  | _ => false
  end.

(** The paths of the changes that end as updates, and of the others. *)
Definition updated_paths (r : repo) (base_branch branch : string) (a : author)
    (changes : list change) : list string :=
  map ch_path (List.filter (updates r base_branch branch a) changes).

Definition added_paths (r : repo) (base_branch branch : string) (a : author)
    (changes : list change) : list string :=
  map ch_path (List.filter (fun c => negb (updates r base_branch branch a c)) changes).

(** The surface request that a call records: none when the path is
    not a key of the notes. *)
Definition surface_event_of (notes : list (string * note_data))
    (c : string * option string * option string) : option surface_event :=
  let path := fst (fst c) in
  match dict_get path notes with
  | Some note =>
      Some (mk_surface path (get_default (nd_title note) path) (snd (fst c)) (snd c))
  | None => None
  end.

(** The entry that the listing shows for a note. *)
Definition note_entry (kv : string * note_data) : entry :=
  (fst kv, get_default (nd_title (snd kv)) (fst kv)).

(** Topics in the order of [sorted]. *)
Definition topic_le (a b : string) : Prop := str_leb a b = true.

(** Entries in the order of their titles. *)
Definition title_le (a b : entry) : Prop := str_leb (entry_title a) (entry_title b) = true.



End Notions.

Import Notions.

(** ** The specification's own words, for comparison with the code *)

Module Spec.

(** Staleness as the specification defines it:
    [now - fetched_at > TTL]. *)
Definition spec_stale (now fetched_at : Q) : bool :=
  Qltb _CACHE_TTL (now - fetched_at).

(** A status moves forward when it stays as it is or leaves [open] for
    [merged] or [closed]. *)
Definition forward (a b : string) : Prop :=
  a = b \/ (a = "open" /\ (b = "merged" \/ b = "closed")).

(** A settled status: [merged] or [closed]. *)
Definition settled (a : string) : Prop := a = "merged" \/ a = "closed".

(** The maximal runs of characters that satisfy [p]. *)
Fixpoint runs_from (p : ascii -> bool) (current : string) (s : string) : list string :=
  match s with
  | "" => match current with "" => [] | _ => [rev current] end
  | String c s' =>
      if p c then runs_from p (String c current) s'
      else match current with
           | "" => runs_from p "" s'
           | _ => rev current :: runs_from p "" s'
           end
  end.

(** The characters that a slug keeps: the letters [a] to [z] and the
    digits. *)
Definition slug_letter (c : ascii) : bool :=
  between 97 122 (code c) || between 48 57 (code c).

(** Slugifying in words: lowercase, then the runs of letters [a] to [z]
    and digits joined by single hyphens, none at either end. *)
Definition spec_slugify (title : string) : string :=
  join "-" (runs_from slug_letter "" (lower title)).

(** Slugifying as the claim states it: the runs of alphanumeric
    characters ([str.isalnum]) of the lowercase title, joined by single
    hyphens. *)
Definition stated_slugify (title : string) : string :=
  join "-" (runs_from isalnum "" (lower title)).

(** A text without slash: a path without directory, or one directory
    name. *)
Definition no_slash (s : string) : bool :=
  all_chars (fun c => negb (Ascii.eqb c "/")) s.

(** A note is listed under a topic when the listing has a section of that
    topic with an entry of that path. *)
Definition listed_under (notes : list (string * note_data)) (path topic : string) : Prop :=
  exists es t, In (topic, es) (listing notes) /\ In (path, t) es.

(** An entry is held by a grouping under a topic. *)
Definition held (by_topic : list (string * list entry)) (topic : string) (e : entry) : Prop :=
  exists es, In (topic, es) by_topic /\ In e es.

(** One section of the listing as text: the heading of the topic with the
    number of its entries, then one line per entry. *)
Definition format_section (g : string * list entry) : string :=
  "## " ++ title (replace "-" " " (fst g)) ++ " (" ++ str_of_nat (List.length (snd g))
  ++ " notes)" ++ nl
  ++ String.concat "" (map format_entry (snd g))
  ++ nl.

(** The heading that a line of the form [# Heading] supplies. *)
Definition heading_of_line (line : string) : option string :=
  match line with
  | String "#" rest =>
      match rest with
      | String c _ =>
          if isspace c then
            match strip rest with
            | "" => None
            | h => Some h
            end
          else None
      | "" => None
      end
  | _ => None
  end.

(** The title as the claim on [draft_note] states it: the text of the
    first top-level heading of the content, ["Untitled Note"] when no
    line is one. *)
Definition stated_title (content : string) : string :=
  match omap heading_of_line (split_char "010" content) with
  | h :: _ => h
  | [] => "Untitled Note"
  end.

(** The title as the specification derives it: the heading of the first
    line, else the filename without its extension, hyphens and
    underscores as spaces, title-cased. *)
Definition spec_filename_title (filename : string) : string :=
  let stem := if endswith ".md" filename
              then take (String.length filename - 3) filename else filename in
  title (replace "_" " " (replace "-" " " stem)).

Definition spec_extract_title (content filename : string) : string :=
  match heading_of_line (first_item (split_char "010" (strip content))) with
  | Some h => h
  | None => spec_filename_title filename
  end.

End Spec.

Import Spec.

(** ** Sample data *)

Module Samples.

Definition alpha : note_data :=
  mk_note (Some ("# Alpha" ++ nl ++ "hello world")) (Some "Alpha") (Some "a.md")
          (Some (JStr "Engineering")).

Definition one_note : list (string * note_data) := [("a.md", alpha)].

Definition numbered (i : nat) : string * note_data :=
  (str_of_nat i ++ ".md",
   mk_note (Some "hello") (Some ("Note " ++ str_of_nat i)) (Some (str_of_nat i ++ ".md"))
           (Some (JStr "General"))).

Definition twelve_notes : list (string * note_data) := map numbered (seq 0 12).

Definition env : environ := mk_environ (Some "org/kb") None None.

Definition file_a : content_file :=
  mk_file "file" "a.md" (Returns ("# Alpha" ++ nl ++ "hello world")).

Definition manifest : clusters_data :=
  mk_clusters (Some [mk_cluster (Some "Engineering") (Some ["a.md"])]).

Definition repo_up : remote :=
  mk_remote (Returns (json_of_manifest manifest)) (Returns [file_a]).

Definition repo_down : remote := mk_remote (Raises RemoteError) (Raises RemoteError).

Definition open_pull : pull_request := mk_pull false "open" None None "https://example/pr/7".

Definition merged_pull : pull_request :=
  mk_pull true "closed" (Some "2024-01-02T00:00:00") (Some "2024-01-02T00:00:00")
          "https://example/pr/7".

(** A world whose clock reads [now], with the repository answering
    [repo] and pull requests read as [pull]. *)
Definition world_at (now : Q) (repo : remote) (pull : pull_request) : world :=
  mk_world env now now "2024-01-01T00:00:00" true (fun _ _ => repo)
           (fun _ _ => Returns pull).

Definition tracked (status : string) : submitted_pr :=
  mk_pr 7 "https://example/pr/7" "kb/x-1" "a@b.c" ["a.md"] status
        "2024-01-01T00:00:00" None None.

(** A cache filled at time 0 and a ledger that tracks pull request 7. *)
Definition state_with (status : string) : state :=
  mk_state one_note 0 {[ 7%Z := tracked status ]}.

Definition closed_payload (merged : bool) (number : Z) : json :=
  JObj [("action", JStr "closed");
        ("pull_request", JObj [("number", JInt number); ("merged", JBool merged)])].

Definition closed_event (merged : bool) (number : Z) : request :=
  mk_request None (Some "pull_request") [] (Some (closed_payload merged number)).

(** A stand-in for HMAC-SHA256 in examples: the key followed by the
    message. *)
Definition toy_hmac (key msg : list Byte.byte) : list Byte.byte := (key ++ msg)%list.

End Samples.

(** ** More sample data *)

Module Examples.

(** A repository where [guide.md] exists and every call succeeds, except
    the read of any other file. *)
Definition repo_ok : repo :=
  mk_repo "main"
    (fun _ => Returns "c0ffee")
    (fun _ _ => Returns tt)
    (fun _ _ _ _ _ => Returns tt)
    (fun path _ => if String.eqb path "guide.md" then Returns "abc123"
                   else Raises RemoteError)
    (fun _ _ _ _ _ _ => Returns tt)
    (fun _ _ _ _ => Returns ("https://example/pr/8", 8%Z)).

Definition github_ok : option (string -> outcome repo) := Some (fun _ => Returns repo_ok).

Definition two_changes : list change :=
  [mk_change "intro.md" "# Intro" (Some "Intro") (Some true);
   mk_change "guide.md" "# Guide" (Some "Guide") (Some false)].

Definition two_file_changes : list file_change :=
  [mk_file_change "intro.md" "Intro" "# Intro" true;
   mk_file_change "guide.md" "Guide" "# Guide" false].

Definition jane : identity_source :=
  mk_identity_source (Some "accounts.google.com:jane.doe@example.com")
                     (Some "dev@example.com") None.

(** A listing with a file that does not decode and a directory. *)
Definition file_bad : content_file := mk_file "file" "broken.md" (Raises RemoteError).

Definition dir_docs : content_file := mk_file "dir" "docs" (Raises RemoteError).

Definition mixed_listing : list content_file := [Samples.file_a; file_bad; dir_docs].

Definition repo_mixed : remote :=
  mk_remote (Returns (json_of_manifest Samples.manifest)) (Returns mixed_listing).

(** A manifest whose second cluster is a string. *)
Definition repo_broken : remote :=
  mk_remote
    (Returns
       (JObj [("clusters",
               JList [json_of_cluster (mk_cluster (Some "Engineering") (Some ["a.md"]));
                      JStr "oops";
                      json_of_cluster (mk_cluster (Some "Ops") (Some ["a.md"]))])]))
    (Returns mixed_listing).

(** A merge reported with a list as number. *)
Definition unhashable_event : request :=
  mk_request None (Some "pull_request") []
    (Some (JObj [("action", JStr "closed");
                 ("pull_request",
                  JObj [("number", JList [JInt 1]); ("merged", JBool true)])])).

Definition beta : note_data :=
  mk_note (Some "second note") (Some "Beta") (Some "b.md") (Some (JStr "General")).

Definition two_notes : list (string * note_data) :=
  [("a.md", Samples.alpha); ("docs/b.md", beta)].

End Examples.

(** * Properties *)

(** ** Strings *)

Section StringFacts.

Lemma str_app_cons (c : ascii) (s t : string) : String c s ++ t = String c (s ++ t).
Proof. reflexivity. Qed.

Lemma str_app_empty_l (s : string) : "" ++ s = s.
Proof. reflexivity. Qed.

Lemma str_app_empty_r (s : string) : s ++ "" = s.
Proof. induction s as [|c s IH]; [reflexivity|]. now rewrite str_app_cons, IH. Qed.

Lemma str_app_assoc (s t u : string) : (s ++ t) ++ u = s ++ (t ++ u).
Proof. induction s as [|c s IH]; [reflexivity|]. now rewrite !str_app_cons, IH. Qed.

Lemma str_length_app (s t : string) :
  String.length (s ++ t) = (String.length s + String.length t)%nat.
Proof. induction s as [|c s IH]; [reflexivity|]. rewrite str_app_cons. simpl. now rewrite IH. Qed.

End StringFacts.

(** ** search_knowledge *)

(** C9: on an empty note store, whatever the query, [search_knowledge]
    returns the "no knowledge base loaded" message; it is a total function,
    so nothing is raised.  The store is empty when the session state has no
    ["notes"] entry and when the entry is the empty dict. *)
Theorem search_knowledge_empty_store (query : string) :
  search_knowledge query None
    = "No knowledge base loaded. Please ensure notes are available."
  /\ search_knowledge query (Some [])
    = "No knowledge base loaded. Please ensure notes are available.".
Proof. split; reflexivity. Qed.

Lemma search_matches_nil (query : string) : search_matches query [] = [].
Proof. reflexivity. Qed.

Lemma length_firstn_10 {A : Type} (l : list A) :
  (List.length (firstn 10 l) <= 10)%nat
  /\ ((10 < List.length l)%nat ->
      (List.length (firstn 10 l) + (List.length l - 10) = List.length l)%nat).
Proof.
  pose proof (firstn_le_length 10 l) as H1.
  pose proof (length_firstn 10 l) as H2.
  split; [exact H1|]. intros Hlt. rewrite H2. lia.
Qed.

(** C10: for every query and every store, the result itemizes a prefix
    of the matches (in the order of the store) of at most 10 items, all
    of them unless there are more than 10; after the items, exactly when
    more than 10 notes match, comes the sentence "...and N more results."
    where N is the number of matches that are not itemized.  (An empty
    store and a query without match give their own messages and no
    item.) *)
Theorem search_knowledge_itemizes_at_most_10
    (query : string) (state : option (list (string * note_data))) :
  exists items omitted,
    search_matches query (state_notes state) = (items ++ omitted)%list
    /\ (List.length items <= 10)%nat
    /\ (omitted <> [] -> List.length items = 10%nat)
    /\ search_knowledge query state
       = match state_notes state, search_matches query (state_notes state) with
         | [], _ => no_knowledge_base
         | _, [] =>
             "No notes found matching '" ++ query
             ++ "'. Try different keywords or use list_notes to see all available notes."
         | _, _ =>
             "Found " ++ str_of_nat (List.length items + List.length omitted)
             ++ " note(s) matching '" ++ query ++ "':" ++ nl ++ nl
             ++ String.concat "" (map format_match items)
             ++ match omitted with
                | [] => ""
                | _ => "...and " ++ str_of_nat (List.length omitted) ++ " more results."
                end
         end.
Proof.
  set (ms := search_matches query (state_notes state)).
  exists (firstn 10 ms), (skipn 10 ms).
  pose proof (length_firstn_10 ms) as [Hle Hsum].
  split; [symmetry; apply firstn_skipn|].
  split; [exact Hle|].
  split.
  - intros Hom. rewrite length_firstn.
    destruct (Nat.le_gt_cases 10 (List.length ms)) as [H|H]; [lia|].
    exfalso. apply Hom. apply skipn_all2. lia.
  - unfold search_knowledge. fold ms.
    destruct (state_notes state) as [|kv notes']; [reflexivity|].
    destruct ms as [|m ms'] eqn:Hms; [reflexivity|]. rewrite <- Hms.
    rewrite <- length_app, firstn_skipn.
    destruct (10 <? List.length ms)%nat eqn:Hlt.
    + apply Nat.ltb_lt in Hlt.
      destruct (skipn 10 ms) as [|o os] eqn:Hsk.
      * apply (f_equal (@List.length _)) in Hsk.
        rewrite length_skipn in Hsk. simpl in Hsk. lia.
      * rewrite <- Hsk, length_skipn. unfold more_results.
        rewrite !str_app_assoc. reflexivity.
    + apply Nat.ltb_ge in Hlt.
      rewrite skipn_all2 by exact Hlt.
      rewrite !str_app_assoc, str_app_empty_r. reflexivity.
Qed.

(** ** refresh_notes_cache *)

Lemma Qltb_lt (x y : Q) : Qltb x y = true <-> (x < y)%Q.
Proof.
  unfold Qltb. rewrite negb_true_iff. split.
  - intros H. apply Qnot_le_lt. intros Hle. apply Qle_bool_iff in Hle. congruence.
  - intros H. destruct (Qle_bool y x) eqn:E; [|reflexivity].
    apply Qle_bool_iff in E. exfalso. apply (Qlt_not_le _ _ H E).
Qed.

Lemma Qltb_ge (x y : Q) : Qltb x y = false <-> (y <= x)%Q.
Proof.
  unfold Qltb. rewrite negb_false_iff. apply Qle_bool_iff.
Qed.

Lemma cache_valid_true (now : Q) (st : state) :
  cache_valid now st = true <-> (now < _cache_timestamp st + 300)%Q.
Proof.
  unfold cache_valid, _CACHE_TTL. rewrite Qltb_lt. split; intros H; lra.
Qed.

Lemma cache_valid_false (now : Q) (st : state) :
  cache_valid now st = false <-> (_cache_timestamp st + 300 <= now)%Q.
Proof.
  unfold cache_valid, _CACHE_TTL. rewrite Qltb_ge. split; intros H; lra.
Qed.

Lemma nonempty_true {A : Type} (l : list A) : nonempty l = true <-> l <> [].
Proof. destruct l; simpl; split; congruence. Qed.

(** A fetch that succeeds replaces the cache by what it fetched and stamps
    it with the clock. *)
Lemma refresh_fetch_success (w : world) (force : bool) (st : state)
    (notes : list (string * note_data)) :
  let r := refresh_notes_cache w force st in
  count_fetches r = 1%nat ->
  fetch_knowledge_base (w_client w)
    (w_repo w (get_default (KNOWLEDGE_REPO (w_environ w)) "")
            (KNOWLEDGE_BRANCH (w_environ w))) = Returns notes ->
  res_outcome r = Returns notes
  /\ _notes_cache (res_state r) = notes
  /\ _cache_timestamp (res_state r) = w_stamp w.
Proof.
  unfold refresh_notes_cache. cbv zeta.
  destruct (negb force && nonempty (_notes_cache st) && cache_valid (w_now w) st);
    [discriminate|].
  destruct (not_given (KNOWLEDGE_REPO (w_environ w))); [discriminate|].
  intros _ ->. auto.
Qed.

(** C1, amended: with a non-empty cache fetched at time T, an unforced
    call strictly before T + 300 returns the cached mapping, performs no
    remote fetch and leaves the globals alone; a call at T + 300 or later,
    the repository being configured, performs exactly one remote fetch.
    The cache is stale when [now - fetched_at >= 300]. *)
Theorem refresh_ttl (w : world) (st : state) :
  _notes_cache st <> [] ->
  let r := refresh_notes_cache w false st in
  ((w_now w < _cache_timestamp st + 300)%Q ->
     res_outcome r = Returns (_notes_cache st)
     /\ count_fetches r = 0%nat /\ res_state r = st)
  /\ ((_cache_timestamp st + 300 <= w_now w)%Q ->
      truthy (KNOWLEDGE_REPO (w_environ w)) = true ->
      count_fetches r = 1%nat).
Proof.
  intros Hne r. subst r. apply nonempty_true in Hne.
  unfold refresh_notes_cache. rewrite Hne. simpl negb. simpl andb.
  split.
  - intros Hlt. apply cache_valid_true in Hlt. rewrite Hlt. auto.
  - intros Hge Hrepo. apply cache_valid_false in Hge. rewrite Hge.
    unfold truthy in Hrepo. apply negb_true_iff in Hrepo. rewrite Hrepo.
    destruct (fetch_knowledge_base _ _); [reflexivity|].
    destruct (_notes_cache st); reflexivity.
Qed.

Lemma refresh_ttl_witness :
  res_outcome (refresh_notes_cache
                 (Samples.world_at 299 Samples.repo_up Samples.open_pull) false
                 (Samples.state_with "open"))
    = Returns Samples.one_note
  /\ count_fetches (refresh_notes_cache
                      (Samples.world_at 300 Samples.repo_up Samples.open_pull) false
                      (Samples.state_with "open")) = 1%nat.
Proof.
  split.
  - apply (refresh_ttl (Samples.world_at 299 Samples.repo_up Samples.open_pull)
                       (Samples.state_with "open")).
    + discriminate.
    + reflexivity.
  - apply (refresh_ttl (Samples.world_at 300 Samples.repo_up Samples.open_pull)
                       (Samples.state_with "open")).
    + discriminate.
    + discriminate.
    + reflexivity.
Defined.

(** C1 as stated fails at the boundary: at exactly T + 300 the cache is
    not stale in the specification's sense ([now - fetched_at > 300] is
    false), yet the call performs a remote fetch. *)
Lemma refresh_ttl_boundary_counterexample :
  ~ (count_fetches (refresh_notes_cache
                      (Samples.world_at 300 Samples.repo_up Samples.open_pull) false
                      (Samples.state_with "open")) = 1%nat
     <-> spec_stale 300 (_cache_timestamp (Samples.state_with "open")) = true).
Proof.
  intros [H _]. specialize (H eq_refl). vm_compute in H. discriminate.
Qed.

(** C2: when the remote fetch of a call fails, the call returns: the
    previous mapping when it is non-empty, the empty mapping when it is
    empty; the globals are as before. *)
Theorem refresh_fetch_failure (w : world) (force : bool) (st : state) (e : exn) :
  let r := refresh_notes_cache w force st in
  count_fetches r = 1%nat ->
  fetch_knowledge_base (w_client w)
    (w_repo w (get_default (KNOWLEDGE_REPO (w_environ w)) "")
            (KNOWLEDGE_BRANCH (w_environ w))) = Raises e ->
  (_notes_cache st <> [] -> res_outcome r = Returns (_notes_cache st))
  /\ (_notes_cache st = [] -> res_outcome r = Returns [])
  /\ (exists notes, res_outcome r = Returns notes)
  /\ res_state r = st.
Proof.
  unfold refresh_notes_cache. cbv zeta.
  destruct (negb force && nonempty (_notes_cache st) && cache_valid (w_now w) st);
    [discriminate|].
  destruct (not_given (KNOWLEDGE_REPO (w_environ w))); [discriminate|].
  intros _ ->.
  destruct (_notes_cache st) as [|kv l] eqn:Hc; simpl.
  - repeat split; eauto; congruence.
  - repeat split; eauto; congruence.
Qed.

Lemma refresh_fetch_failure_witness :
  res_outcome (refresh_notes_cache
                 (Samples.world_at 1000 Samples.repo_down Samples.open_pull) false
                 (Samples.state_with "open"))
    = Returns Samples.one_note.
Proof.
  apply (refresh_fetch_failure
           (Samples.world_at 1000 Samples.repo_down Samples.open_pull) false
           (Samples.state_with "open") (ValueError "Failed to fetch knowledge base")).
  - reflexivity.
  - reflexivity.
  - discriminate.
Defined.

Lemma search_knowledge_itemizes_at_most_10_witness :
  exists items omitted,
    search_matches "HELLO" Samples.twelve_notes = (items ++ omitted)%list
    /\ List.length items = 10%nat
    /\ List.length omitted = 2%nat
    /\ search_knowledge "HELLO" (Some Samples.twelve_notes)
       = "Found 12 note(s) matching 'HELLO':" ++ nl ++ nl
         ++ String.concat "" (map format_match items)
         ++ "...and 2 more results.".
Proof.
  destruct (search_knowledge_itemizes_at_most_10 "HELLO" (Some Samples.twelve_notes))
    as (items & omitted & Hsplit & Hle & Hfull & Hout).
  exists items, omitted.
  assert (Hlen : (List.length items + List.length omitted = 12)%nat).
  { rewrite <- length_app, <- Hsplit. reflexivity. }
  assert (Hom : omitted <> []).
  { intros ->. simpl in Hlen. lia. }
  specialize (Hfull Hom).
  assert (Hlo : List.length omitted = 2%nat) by lia.
  split; [exact Hsplit|]. split; [exact Hfull|]. split; [exact Hlo|].
  rewrite Hout, Hfull, Hlo.
  destruct omitted as [|o os]; [congruence|].
  destruct (search_matches "HELLO" (state_notes (Some Samples.twelve_notes))) eqn:Hm;
    [discriminate|].
  reflexivity.
Defined.

(** ** github_webhook *)

Lemma refresh_keeps_ledger (w : world) (force : bool) (st : state) :
  _submitted_prs (res_state (refresh_notes_cache w force st)) = _submitted_prs st.
Proof.
  unfold refresh_notes_cache.
  destruct (negb force && nonempty (_notes_cache st) && cache_valid (w_now w) st);
    [reflexivity|].
  destruct (not_given (KNOWLEDGE_REPO (w_environ w))); [reflexivity|].
  destruct (fetch_knowledge_base _ _); [reflexivity|].
  destruct (nonempty (_notes_cache st)); reflexivity.
Qed.

Lemma refresh_forced_once (w : world) (st : state) :
  let r := refresh_notes_cache w true st in
  count_forced_refreshes r = 1%nat /\ count_refreshes r = 1%nat
  /\ exists notes, res_outcome r = Returns notes.
Proof.
  unfold refresh_notes_cache. simpl negb. simpl andb.
  destruct (not_given (KNOWLEDGE_REPO (w_environ w))); [simpl; eauto|].
  destruct (fetch_knowledge_base _ _); [simpl; eauto|].
  destruct (nonempty (_notes_cache st)); simpl; eauto.
Qed.

Lemma update_tracked_present (n : Z) (f : submitted_pr -> submitted_pr) (st : state)
    (rec : submitted_pr) :
  _submitted_prs st !! n = Some rec ->
  _submitted_prs (update_tracked (Some n) f st) = <[n := f rec]> (_submitted_prs st).
Proof. intros H. unfold update_tracked. now rewrite H. Qed.

Lemma update_tracked_absent (number : option Z) (f : submitted_pr -> submitted_pr)
    (st : state) :
  (number = None \/ exists n, number = Some n /\ _submitted_prs st !! n = None) ->
  update_tracked number f st = st.
Proof.
  intros [-> | (n & -> & H)]; [reflexivity|]. unfold update_tracked. now rewrite H.
Qed.

Section WebhookFacts.

Variable hmac_sha256 : list Byte.byte -> list Byte.byte -> list Byte.byte.

(** C3: a [pull_request] event with action [closed] that passes the
    signature gate and parses; [merged] and [number] are what its
    [pull_request] object holds ([JBool true] and [JInt n] in the events
    that GitHub sends).  Merged and tracked: the record gets the status
    [merged] and the time of the call as merge timestamp, everything else
    in it and every other record stay, and exactly one refresh, a forced
    one, is triggered.  Closed unmerged and tracked: the record gets the
    status [closed] and the time of the call as close timestamp, and
    nothing else happens.  Not tracked: the handler returns and the ledger
    is as before. *)
Theorem github_webhook_closed (w : world) (rq : request) (st : state)
    (p pr number merged : json) :
  check_signature hmac_sha256 w rq = Returns tt ->
  rq_json rq = Some p ->
  rq_event rq = Some "pull_request" ->
  jget "action" (JStr "") p = Returns (JStr "closed") ->
  jget "pull_request" (JObj []) p = Returns pr ->
  jget "number" JNull pr = Returns number ->
  jget "merged" (JBool false) pr = Returns merged ->
  let r := github_webhook hmac_sha256 w rq st in
  (forall n rec,
      jtruthy merged = true -> ledger_key number = Returns (Some n) ->
      _submitted_prs st !! n = Some rec ->
      (exists rec',
          _submitted_prs (res_state r) !! n = Some rec'
          /\ sp_status rec' = "merged" /\ sp_merged_at rec' = Some (w_utcnow w)
          /\ sp_closed_at rec' = sp_closed_at rec /\ same_submission rec rec')
      /\ (forall k, k <> n -> _submitted_prs (res_state r) !! k = _submitted_prs st !! k)
      /\ count_forced_refreshes r = 1%nat /\ count_refreshes r = 1%nat
      /\ res_outcome r = Returns (PrMerged number))
  /\ (forall n rec,
      jtruthy merged = false -> ledger_key number = Returns (Some n) ->
      _submitted_prs st !! n = Some rec ->
      (exists rec',
          _submitted_prs (res_state r) !! n = Some rec'
          /\ sp_status rec' = "closed" /\ sp_closed_at rec' = Some (w_utcnow w)
          /\ sp_merged_at rec' = sp_merged_at rec /\ same_submission rec rec')
      /\ (forall k, k <> n -> _submitted_prs (res_state r) !! k = _submitted_prs st !! k)
      /\ res_effects r = []
      /\ res_outcome r = Returns (PrClosed number))
  /\ ((ledger_key number = Returns None
       \/ exists n, ledger_key number = Returns (Some n) /\ _submitted_prs st !! n = None) ->
      _submitted_prs (res_state r) = _submitted_prs st
      /\ exists msg, res_outcome r = Returns msg).
Proof.
  intros Hsig Hjson Hev Hact Hpr Hnum Hmer r. subst r.
  unfold github_webhook. rewrite Hsig, Hjson, Hev. simpl get_default.
  unfold dispatch. rewrite Hact, Hpr, Hnum, Hmer.
  change (String.eqb "pull_request" "pull_request") with true.
  change (jeq_str (JStr "closed") "closed") with true. cbv iota.
  pose proof (refresh_forced_once w st) as (Hf & Hr & notes & Hout).
  pose proof (refresh_keeps_ledger w true st) as Hkeep.
  split; [|split].
  - intros n rec Hm Hn Hin. rewrite Hm, Hn. cbn [res_state res_effects res_outcome].
    rewrite (update_tracked_present n _ _ rec) by now rewrite Hkeep.
    rewrite Hkeep.
    split; [|split; [|split; [exact Hf|split; [exact Hr|reflexivity]]]].
    + eexists. rewrite lookup_insert_eq. split; [reflexivity|].
      repeat split; reflexivity.
    + intros k Hk. now rewrite lookup_insert_ne by congruence.
  - intros n rec Hm Hn Hin. rewrite Hm, Hn. cbn [res_state res_effects res_outcome].
    rewrite (update_tracked_present n _ _ rec Hin).
    split; [|split; [|split; reflexivity]].
    + eexists. rewrite lookup_insert_eq. split; [reflexivity|].
      repeat split; reflexivity.
    + intros k Hk. now rewrite lookup_insert_ne by congruence.
  - intros Habs.
    assert (Hkey : exists key, ledger_key number = Returns key
                               /\ (key = None
                                   \/ exists n, key = Some n /\ _submitted_prs st !! n = None)).
    { destruct Habs as [H|(n & H & Hnone)]; eauto 6. }
    destruct Hkey as (key & -> & Hkey).
    destruct (jtruthy merged); cbn [res_state res_effects res_outcome]; (split; [|eauto]).
    + rewrite update_tracked_absent; [exact Hkeep|].
      destruct Hkey as [H | (n & Hn & Hnone)]; [now left|right].
      exists n. split; [exact Hn|]. now rewrite Hkeep.
    + now rewrite update_tracked_absent.
Qed.

End WebhookFacts.

Lemma github_webhook_closed_witness :
  let r := github_webhook Samples.toy_hmac
             (Samples.world_at 10 Samples.repo_up Samples.open_pull)
             (Samples.closed_event true 7) (Samples.state_with "open") in
  (exists rec',
      _submitted_prs (res_state r) !! 7%Z = Some rec'
      /\ sp_status rec' = "merged" /\ sp_merged_at rec' = Some "2024-01-01T00:00:00"
      /\ sp_closed_at rec' = None /\ same_submission (Samples.tracked "open") rec')
  /\ count_forced_refreshes r = 1%nat.
Proof.
  pose proof (github_webhook_closed Samples.toy_hmac
                (Samples.world_at 10 Samples.repo_up Samples.open_pull)
                (Samples.closed_event true 7) (Samples.state_with "open")
                (Samples.closed_payload true 7)
                (JObj [("number", JInt 7); ("merged", JBool true)]) (JInt 7) (JBool true)
                eq_refl eq_refl eq_refl eq_refl eq_refl eq_refl eq_refl) as [H _].
  specialize (H 7%Z (Samples.tracked "open") eq_refl eq_refl (lookup_singleton_eq _ _)).
  destruct H as (Hl & _ & Hc & _). split; [exact Hl|exact Hc].
Defined.

(** ** The ledger under webhook events and status polls *)

Lemma set_merged_at_status (t : string) (r : submitted_pr) :
  sp_status (set_merged_at t r) = sp_status r.
Proof. reflexivity. Qed.

Lemma set_closed_at_status (t : string) (r : submitted_pr) :
  sp_status (set_closed_at t r) = sp_status r.
Proof. reflexivity. Qed.

Lemma track_status_status (result : pr_status) (r : submitted_pr) :
  sp_status (track_status result r) = st_status result.
Proof.
  unfold track_status.
  destruct (truthy (st_merged_at result)), (truthy (st_closed_at result)); reflexivity.
Qed.

Lemma update_tracked_lookup (number : option Z) (f : submitted_pr -> submitted_pr)
    (st : state) (n : Z) (rec : submitted_pr) :
  _submitted_prs st !! n = Some rec ->
  _submitted_prs (update_tracked number f st) !! n = Some rec
  \/ _submitted_prs (update_tracked number f st) !! n = Some (f rec).
Proof.
  intros Hin. unfold update_tracked.
  destruct number as [k|]; [|now left].
  destruct (_submitted_prs st !! k) as [rk|] eqn:Hk; [|now left].
  cbn [with_prs _submitted_prs].
  destruct (decide (k = n)) as [->|Hne].
  - right. rewrite lookup_insert_eq. congruence.
  - left. now rewrite lookup_insert_ne.
Qed.

(** The statuses that [get_pr_status] computes. *)
Lemma get_pr_status_values (client : bool) (pull : outcome pull_request) (n : Z)
    (s : pr_status) :
  get_pr_status client pull n = Returns s ->
  st_status s = "open" \/ settled (st_status s).
Proof.
  unfold get_pr_status, settled.
  destruct client; [|discriminate]. simpl.
  destruct pull as [pr|e]; [|discriminate].
  intros [= <-]. cbn [st_status].
  destruct (pr_merged pr); [auto|].
  destruct (String.eqb (pr_state pr) "closed"); auto.
Qed.

Lemma endpoint_outcome_any_state (w : world) (n : Z) (st st' : state) :
  res_outcome (get_pr_status_endpoint w n st)
  = res_outcome (get_pr_status_endpoint w n st').
Proof.
  unfold get_pr_status_endpoint.
  destruct (not_given (KNOWLEDGE_REPO (w_environ w))); [reflexivity|].
  destruct (get_pr_status _ _ _) as [s|[]]; reflexivity.
Qed.

Lemma endpoint_values (w : world) (n : Z) (st : state) (s : pr_status) :
  res_outcome (get_pr_status_endpoint w n st) = Returns s ->
  st_status s = "open" \/ settled (st_status s).
Proof.
  unfold get_pr_status_endpoint.
  destruct (not_given (KNOWLEDGE_REPO (w_environ w))); [discriminate|].
  destruct (get_pr_status _ _ _) as [s'|e] eqn:Hs.
  - intros [= <-]. eapply get_pr_status_values, Hs.
  - destruct e; discriminate.
Qed.

(** A poll leaves the status of a record alone or sets it to the status
    it read from the remote repository. *)
Lemma poll_status (w : world) (k : Z) (st : state) (n : Z) (rec : submitted_pr) :
  _submitted_prs st !! n = Some rec ->
  exists rec', _submitted_prs (res_state (get_pr_status_endpoint w k st)) !! n = Some rec'
    /\ (sp_status rec' = sp_status rec
        \/ polled_status n (Poll w k) = Some (sp_status rec')).
Proof.
  intros Hin. unfold polled_status.
  rewrite (endpoint_outcome_any_state w k initial_state st).
  unfold get_pr_status_endpoint.
  destruct (not_given (KNOWLEDGE_REPO (w_environ w))); [eauto|].
  destruct (get_pr_status _ _ _) as [s|e].
  - cbn [res_state res_outcome _submitted_prs].
    destruct (_submitted_prs st !! k) as [rk|] eqn:Hk; [|eauto].
    destruct (decide (k = n)) as [->|Hne].
    + exists (track_status s rk). rewrite lookup_insert_eq. split; [reflexivity|].
      right. rewrite Z.eqb_refl. now rewrite track_status_status.
    + exists rec. rewrite lookup_insert_ne by exact Hne. auto.
  - destruct e; eauto.
Qed.

Section LedgerFacts.

Variable hmac_sha256 : list Byte.byte -> list Byte.byte -> list Byte.byte.

(** A webhook event leaves the status of a record alone or sets it to
    [merged] or [closed]. *)
Lemma webhook_status (w : world) (rq : request) (st : state) (n : Z)
    (rec : submitted_pr) :
  _submitted_prs st !! n = Some rec ->
  exists rec',
    _submitted_prs (res_state (github_webhook hmac_sha256 w rq st)) !! n = Some rec'
    /\ (sp_status rec' = sp_status rec \/ settled (sp_status rec')).
Proof.
  intros Hin. unfold github_webhook.
  destruct (check_signature hmac_sha256 w rq); [|eauto].
  destruct (rq_json rq) as [p|]; [|eauto].
  unfold dispatch.
  destruct (String.eqb _ "pull_request").
  - destruct (jget "action" _ p) as [action|]; [|eauto].
    destruct (jget "pull_request" _ p) as [pr|]; [|eauto].
    destruct (jget "number" _ pr) as [number|]; [|eauto].
    destruct (jeq_str action "closed"); [|eauto].
    destruct (jget "merged" _ pr) as [merged|]; [|eauto].
    destruct (jtruthy merged), (ledger_key number) as [key|e]; cbn [res_state].
    + match goal with
      | |- context [update_tracked ?num ?f ?s] =>
          destruct (update_tracked_lookup num f s n rec) as [H|H]
      end.
      * now rewrite refresh_keeps_ledger.
      * eauto.
      * eexists. split; [exact H|]. right. left. reflexivity.
    + rewrite refresh_keeps_ledger. eauto.
    + match goal with
      | |- context [update_tracked ?num ?f ?s] =>
          destruct (update_tracked_lookup num f s n rec Hin) as [H|H]
      end.
      * eauto.
      * eexists. split; [exact H|]. right. right. reflexivity.
    + eauto.
  - destruct (String.eqb _ "push"); [|eauto].
    destruct (jget "ref" _ p) as [ref|]; [|eauto].
    destruct (jeq_str ref _); [|eauto].
    cbn [res_state]. rewrite refresh_keeps_ledger. eauto.
Qed.

(** C5, amended: a webhook event sets a tracked status to [merged] or
    [closed] only, and a poll sets it to the status that the remote
    repository reports.  So, under every sequence of webhook events and
    status polls in which no poll of the pull request reads it as open, a
    record whose status is [merged] or [closed] keeps a status of
    [merged] or [closed]. *)
Theorem settled_stays_settled (ops : list operation) (st : state) (n : Z)
    (rec : submitted_pr) :
  _submitted_prs st !! n = Some rec ->
  settled (sp_status rec) ->
  Forall (fun o => polled_status n o <> Some "open") ops ->
  exists rec',
    _submitted_prs (run hmac_sha256 ops st) !! n = Some rec'
    /\ settled (sp_status rec').
Proof.
  revert st rec. induction ops as [|o ops IH]; intros st rec Hin Hset Hall.
  - exists rec. auto.
  - inversion Hall as [|o' ops' Ho Hops]; subst.
    unfold run. cbn [fold_left]. fold (run hmac_sha256 ops (step hmac_sha256 st o)).
    destruct o as [w rq | w k]; cbn [step].
    + destruct (webhook_status w rq st n rec Hin) as (rec1 & H1 & Hs).
      apply (IH _ rec1 H1); [|exact Hops].
      destruct Hs as [Hs|Hs]; [now rewrite Hs|exact Hs].
    + destruct (poll_status w k st n rec Hin) as (rec1 & H1 & Hs).
      apply (IH _ rec1 H1); [|exact Hops].
      destruct Hs as [Hs|Hs]; [now rewrite Hs|].
      assert (Hv : sp_status rec1 = "open" \/ settled (sp_status rec1)).
      { unfold polled_status in Hs. destruct (k =? n)%Z; [|discriminate].
        destruct (res_outcome (get_pr_status_endpoint w k initial_state)) as [s|] eqn:Hs';
          [|discriminate].
        injection Hs as <-. eapply endpoint_values, Hs'. }
      destruct Hv as [Hv|Hv]; [|exact Hv].
      exfalso. apply Ho. now rewrite Hs, Hv.
Qed.

End LedgerFacts.

Lemma settled_stays_settled_witness :
  exists rec',
    _submitted_prs
      (run Samples.toy_hmac
         [Poll (Samples.world_at 10 Samples.repo_up Samples.merged_pull) 7;
          Webhook (Samples.world_at 20 Samples.repo_up Samples.open_pull)
                  (Samples.closed_event false 7)]
         (Samples.state_with "closed")) !! 7%Z = Some rec'
    /\ settled (sp_status rec').
Proof.
  apply (settled_stays_settled Samples.toy_hmac _ (Samples.state_with "closed") 7%Z
           (Samples.tracked "closed")).
  - apply lookup_singleton_eq.
  - right. reflexivity.
  - repeat constructor; vm_compute; discriminate.
Defined.

(** C5 as stated fails: a record that a webhook closed is set back to
    [open] by a poll that reads the pull request as open (reopened on the
    remote side). *)
Lemma status_forward_counterexample :
  ~ (forall rec',
        _submitted_prs
          (run Samples.toy_hmac
             [Poll (Samples.world_at 10 Samples.repo_up Samples.open_pull) 7]
             (Samples.state_with "closed")) !! 7%Z = Some rec' ->
        forward (sp_status (Samples.tracked "closed")) (sp_status rec')).
Proof.
  intros H.
  specialize (H (track_status (mk_status 7 "open" None None "https://example/pr/7")
                              (Samples.tracked "closed"))).
  assert (Hl : _submitted_prs
          (run Samples.toy_hmac
             [Poll (Samples.world_at 10 Samples.repo_up Samples.open_pull) 7]
             (Samples.state_with "closed")) !! 7%Z
          = Some (track_status (mk_status 7 "open" None None "https://example/pr/7")
                              (Samples.tracked "closed"))).
  { unfold run, Samples.state_with. cbn. apply lookup_insert_eq. }
  specialize (H Hl). destruct H as [H | [H _]]; simpl in H; discriminate.
Qed.

(** ** verify_webhook_signature *)

Lemma prefix_app (p s : string) : String.prefix p (p ++ s) = true.
Proof.
  induction p as [|c p IH]; [now destruct s|].
  rewrite str_app_cons. simpl. destruct (ascii_dec c c); [exact IH|congruence].
Qed.

Lemma is_ascii_str_app (s t : string) :
  is_ascii_str (s ++ t) = is_ascii_str s && is_ascii_str t.
Proof.
  induction s as [|c s IH]; [reflexivity|].
  rewrite str_app_cons. simpl. now rewrite IH, andb_assoc.
Qed.

Lemma hex_digits_ascii (b : Byte.byte) :
  is_ascii_char (hex_digit (Byte.to_nat b / 16)) = true
  /\ is_ascii_char (hex_digit (Byte.to_nat b mod 16)) = true.
Proof. destruct b; split; reflexivity. Qed.

Lemma hex_cons (b : Byte.byte) (bs : list Byte.byte) :
  hex (b :: bs)
  = String (hex_digit (Byte.to_nat b / 16))
           (String (hex_digit (Byte.to_nat b mod 16)) (hex bs)).
Proof. reflexivity. Qed.

Lemma hex_is_ascii (bs : list Byte.byte) : is_ascii_str (hex bs) = true.
Proof.
  induction bs as [|b bs IH]; [reflexivity|].
  destruct (hex_digits_ascii b) as [H1 H2]. rewrite hex_cons. cbn [is_ascii_str].
  now rewrite H1, H2, IH.
Qed.

Lemma hex_byte_value (b : Byte.byte) :
  (hex_value (hex_digit (Byte.to_nat b / 16)) * 16
   + hex_value (hex_digit (Byte.to_nat b mod 16)))%nat = Byte.to_nat b.
Proof. destruct b; reflexivity. Qed.

Lemma hex_pair_inj (b b' : Byte.byte) :
  hex_digit (Byte.to_nat b / 16) = hex_digit (Byte.to_nat b' / 16) ->
  hex_digit (Byte.to_nat b mod 16) = hex_digit (Byte.to_nat b' mod 16) ->
  b = b'.
Proof.
  intros H1 H2.
  assert (Hn : Byte.to_nat b = Byte.to_nat b').
  { rewrite <- (hex_byte_value b), <- (hex_byte_value b'). now rewrite H1, H2. }
  pose proof (Byte.of_to_nat b) as Hb. rewrite Hn, Byte.of_to_nat in Hb. congruence.
Qed.

Lemma hex_inj (bs bs' : list Byte.byte) : hex bs = hex bs' -> bs = bs'.
Proof.
  revert bs'. induction bs as [|b bs IH]; intros [|b' bs'] H;
    [reflexivity|discriminate|discriminate|].
  rewrite !hex_cons in H.
  f_equal; [apply hex_pair_inj; congruence|apply IH; congruence].
Qed.

Section SignatureFacts.

Variable hmac_sha256 : list Byte.byte -> list Byte.byte -> list Byte.byte.

Lemma expected_signature_ascii (payload : list Byte.byte) (secret : string) :
  is_ascii_str (expected_signature hmac_sha256 payload secret) = true.
Proof.
  unfold expected_signature. rewrite is_ascii_str_app, hex_is_ascii. reflexivity.
Qed.

Lemma expected_signature_prefix (payload : list Byte.byte) (secret : string) :
  startswith "sha256=" (expected_signature hmac_sha256 payload secret) = true.
Proof. apply prefix_app. Qed.

Lemma expected_signature_inj (payload payload' : list Byte.byte) (secret : string) :
  expected_signature hmac_sha256 payload secret
  = expected_signature hmac_sha256 payload' secret ->
  hmac_sha256 (encode_utf8 secret) payload = hmac_sha256 (encode_utf8 secret) payload'.
Proof.
  unfold expected_signature. intros H.
  apply hex_inj. exact (String.app_inj _ _ _ H).
Qed.

(** C4: the verification returns true exactly when the header is present
    (not the empty string a missing header is read as), starts with
    [sha256=] and is [sha256=] followed by the lowercase hexadecimal
    HMAC-SHA256 digest of the payload under the secret; it returns false
    when the header is missing or does not start with [sha256=]; and the
    signature of a payload does not verify another payload whose digest
    differs. *)
Theorem verify_webhook_signature_correct
    (payload : list Byte.byte) (signature secret : string) :
  (verify_webhook_signature hmac_sha256 payload signature secret = Returns true
   <-> signature <> ""
       /\ startswith "sha256=" signature = true
       /\ signature = "sha256=" ++ hex (hmac_sha256 (encode_utf8 secret) payload))
  /\ (signature = "" \/ startswith "sha256=" signature = false ->
      verify_webhook_signature hmac_sha256 payload signature secret = Returns false)
  /\ (forall payload',
      hmac_sha256 (encode_utf8 secret) payload'
        <> hmac_sha256 (encode_utf8 secret) payload ->
      verify_webhook_signature hmac_sha256 payload'
        (expected_signature hmac_sha256 payload secret) secret = Returns false).
Proof.
  split; [|split].
  - unfold verify_webhook_signature. split.
    + destruct (String.eqb_spec signature "") as [->|Hne]; [discriminate|].
      destruct (startswith "sha256=" signature) eqn:Hp; [|discriminate].
      simpl orb. cbv iota. unfold compare_digest.
      destruct (is_ascii_str signature && is_ascii_str _); [|discriminate].
      intros [= Heq]. apply String.eqb_eq in Heq. auto.
    + intros (Hne & Hp & Heq).
      destruct (String.eqb_spec signature "") as [->|_]; [congruence|].
      rewrite Hp. simpl orb. cbv iota. unfold compare_digest.
      fold (expected_signature hmac_sha256 payload secret) in Heq. rewrite Heq.
      rewrite expected_signature_ascii. simpl andb. cbv iota.
      now rewrite String.eqb_refl.
  - unfold verify_webhook_signature. intros [-> | ->]; [reflexivity|].
    now rewrite orb_true_r.
  - intros payload' Hdiff. unfold verify_webhook_signature.
    rewrite expected_signature_prefix. simpl negb. rewrite orb_false_r.
    destruct (String.eqb_spec (expected_signature hmac_sha256 payload secret) "")
      as [He|_]; [discriminate|].
    unfold compare_digest. rewrite !expected_signature_ascii. simpl andb. cbv iota.
    f_equal. apply String.eqb_neq. intros Heq. apply Hdiff. symmetry.
    now apply expected_signature_inj.
Qed.

End SignatureFacts.

Lemma verify_webhook_signature_correct_witness :
  verify_webhook_signature Samples.toy_hmac [Byte.x68; Byte.x69] "" "key" = Returns false
  /\ verify_webhook_signature Samples.toy_hmac [Byte.x68; Byte.x6a]
       (expected_signature Samples.toy_hmac [Byte.x68; Byte.x69] "key") "key"
     = Returns false.
Proof.
  destruct (verify_webhook_signature_correct Samples.toy_hmac [Byte.x68; Byte.x69] "" "key")
    as (_ & Hmissing & Hother).
  split.
  - apply Hmissing. left. reflexivity.
  - apply Hother. vm_compute. discriminate.
Defined.

(** ** list_notes and the topics of fetch_knowledge_base *)

Lemma In_insert_by {A : Type} (key : A -> string) (x y : A) (l : list A) :
  In x (insert_by key y l) <-> x = y \/ In x l.
Proof.
  induction l as [|z l IH]; simpl; [intuition congruence|].
  destruct (str_leb (key y) (key z)); simpl; [intuition congruence|].
  rewrite IH. intuition congruence.
Qed.

Lemma In_sorted_by {A : Type} (key : A -> string) (x : A) (l : list A) :
  In x (sorted_by key l) <-> In x l.
Proof.
  induction l as [|y l IH]; simpl; [reflexivity|].
  rewrite In_insert_by, IH. intuition congruence.
Qed.

Lemma length_insert_by {A : Type} (key : A -> string) (y : A) (l : list A) :
  List.length (insert_by key y l) = S (List.length l).
Proof.
  induction l as [|z l IH]; simpl; [reflexivity|].
  destruct (str_leb (key y) (key z)); simpl; [reflexivity|]. now rewrite IH.
Qed.

Lemma length_sorted_by {A : Type} (key : A -> string) (l : list A) :
  List.length (sorted_by key l) = List.length l.
Proof.
  induction l as [|y l IH]; simpl; [reflexivity|].
  now rewrite length_insert_by, IH.
Qed.

Lemma topic_append_new (topic : string) (e : entry) (by_topic : list (string * list entry)) :
  held (topic_append topic e by_topic) topic e.
Proof.
  induction by_topic as [|[k es] rest IH]; simpl.
  - exists [e]. simpl. auto.
  - destruct (String.eqb_spec k topic) as [->|Hne].
    + exists (es ++ [e])%list. split; [now left|]. apply in_or_app. simpl. auto.
    + destruct IH as (es' & H1 & H2). exists es'. split; [now right|exact H2].
Qed.

Lemma topic_append_old (topic : string) (e : entry) (by_topic : list (string * list entry))
    (topic' : string) (e' : entry) :
  held by_topic topic' e' -> held (topic_append topic e by_topic) topic' e'.
Proof.
  intros (es' & Hin & He).
  induction by_topic as [|[k es] rest IH]; simpl; [contradiction|].
  destruct Hin as [Heq|Hin].
  - injection Heq as -> ->.
    destruct (String.eqb topic' topic).
    + exists (es' ++ [e])%list. split; [now left|]. apply in_or_app. auto.
    + exists es'. split; [now left|exact He].
  - destruct (String.eqb k topic).
    + exists es'. split; [now right|exact He].
    + destruct (IH Hin) as (es'' & H1 & H2). exists es''. split; [now right|exact H2].
Qed.

Lemma group_notes_holds (notes : list (string * note_data)) (path : string) (nd : note_data) :
  In (path, nd) notes ->
  held (group_notes notes) (path_topic path) (path, get_default (nd_title nd) path).
Proof.
  unfold group_notes.
  assert (Hgen : forall acc,
    (In (path, nd) notes
     \/ held acc (path_topic path) (path, get_default (nd_title nd) path)) ->
    held (fold_left
            (fun by_topic kv =>
               topic_append (path_topic (fst kv))
                 (fst kv, get_default (nd_title (snd kv)) (fst kv)) by_topic)
            notes acc)
         (path_topic path) (path, get_default (nd_title nd) path)).
  { induction notes as [|kv notes IH]; intros acc [Hin|Hacc]; simpl.
    - contradiction.
    - exact Hacc.
    - destruct Hin as [->|Hin].
      + apply IH. right. apply topic_append_new.
      + apply IH. now left.
    - apply IH. right. now apply topic_append_old. }
  intros Hin. apply Hgen. now left.
Qed.

Lemma listing_holds (notes : list (string * note_data)) (topic : string) (e : entry) :
  held (group_notes notes) topic e -> held (listing notes) topic e.
Proof.
  intros (es & Hin & He). exists (sorted_by entry_title es). split.
  - unfold listing. apply in_map_iff. exists (topic, es). split; [reflexivity|].
    now apply In_sorted_by.
  - now apply In_sorted_by.
Qed.

Lemma format_topic_section (g : string * list entry) :
  format_topic g = format_section (fst g, sorted_by entry_title (snd g)).
Proof.
  unfold format_topic, format_section. cbn [fst snd]. now rewrite length_sorted_by.
Qed.

Lemma list_notes_listing (kv : string * note_data) (notes : list (string * note_data)) :
  list_notes (Some (kv :: notes))
  = "Knowledge Base: " ++ str_of_nat (List.length (kv :: notes)) ++ " note(s) across "
    ++ str_of_nat (List.length (listing (kv :: notes))) ++ " topic(s)" ++ nl ++ nl
    ++ String.concat "" (map format_section (listing (kv :: notes)))
    ++ "Use search_knowledge to find specific information, or get_note to read a full note.".
Proof.
  unfold list_notes, listing. cbn [state_notes].
  rewrite length_map, length_sorted_by, map_map.
  rewrite (map_ext format_topic _ format_topic_section). reflexivity.
Qed.

Lemma In_dict_set {V : Type} (key : string) (v : V) (d : list (string * V))
    (k : string) (w : V) :
  In (k, w) (dict_set key v d) -> (k = key /\ w = v) \/ In (k, w) d.
Proof.
  induction d as [|[k' w'] d IH]; simpl.
  - intros [[= <- <-]|[]]. auto.
  - destruct (String.eqb_spec k' key) as [->|Hne]; simpl.
    + intros [[= <- <-]|H]; auto.
    + intros [H|H]; [auto|]. destruct (IH H); auto.
Qed.

(** What [fetch_knowledge_base] attaches as the topic of a note: the
    cluster of its filename in the manifest, ["General"] when it has
    none. *)
Lemma fetch_topics (client : bool) (r : remote) (notes : list (string * note_data))
    (path : string) (nd : note_data) :
  fetch_knowledge_base client r = Returns notes ->
  In (path, nd) notes ->
  nd_topic nd
  = Some (default (JStr "General") (build_note_to_cluster (rm_clusters r) !! path)).
Proof.
  unfold fetch_knowledge_base. destruct client; [|discriminate]. simpl negb. cbv iota.
  destruct (rm_contents r) as [contents|e]; [|discriminate].
  intros [= <-].
  set (m := build_note_to_cluster (rm_clusters r)).
  assert (Hgen : forall acc,
    (forall p d, In (p, d) acc -> nd_topic d = Some (default (JStr "General") (m !! p))) ->
    forall p d, In (p, d) (fold_left (add_file m) contents acc) ->
                nd_topic d = Some (default (JStr "General") (m !! p))).
  { induction contents as [|f contents IH]; intros acc Hacc p d; simpl; [apply Hacc|].
    apply IH. intros p' d' Hin. unfold add_file in Hin.
    destruct (String.eqb (cf_type f) "file" && endswith ".md" (cf_name f));
      [|now apply Hacc].
    destruct (cf_decoded f) as [file_content|]; [|now apply Hacc].
    apply In_dict_set in Hin. destruct Hin as [[-> ->]|Hin]; [reflexivity|now apply Hacc]. }
  apply Hgen. intros p d [].
Qed.

Lemma split_char_head (c : ascii) (d rest : string) :
  all_chars (fun x => negb (Ascii.eqb x c)) d = true ->
  split_char c (d ++ String c rest) = d :: split_char c rest.
Proof.
  induction d as [|x d IH]; intros H.
  - rewrite str_app_empty_l. cbn [split_char]. now rewrite Ascii.eqb_refl.
  - cbn [all_chars] in H. apply andb_prop in H as [Hx Hd].
    rewrite str_app_cons. cbn [split_char]. apply negb_true_iff in Hx.
    now rewrite Hx, (IH Hd).
Qed.

Lemma split_char_whole (c : ascii) (s : string) :
  all_chars (fun x => negb (Ascii.eqb x c)) s = true -> split_char c s = [s].
Proof.
  induction s as [|x s IH]; intros H; [reflexivity|].
  cbn [all_chars] in H. apply andb_prop in H as [Hx Hs].
  cbn [split_char]. apply negb_true_iff in Hx. now rewrite Hx, (IH Hs).
Qed.

Lemma split_char_length (c : ascii) (s : string) : (1 <= List.length (split_char c s))%nat.
Proof.
  induction s as [|x s IH]; cbn [split_char]; [cbn; lia|].
  destruct (Ascii.eqb x c); [cbn; lia|].
  destruct (split_char c s); cbn in *; lia.
Qed.

(** The topic of a path: its first directory, [General] when it has
    none. *)
Lemma path_topic_directory (dir rest : string) :
  no_slash dir = true -> path_topic (dir ++ "/" ++ rest) = dir.
Proof.
  intros H. unfold path_topic.
  change (dir ++ "/" ++ rest) with (dir ++ String "/" rest).
  rewrite (split_char_head "/" dir rest H).
  pose proof (split_char_length "/" rest) as Hl. cbn [List.length first_item hd].
  destruct (Nat.ltb_spec 1 (S (List.length (split_char "/" rest)))); [reflexivity|lia].
Qed.

Lemma path_topic_general (path : string) :
  no_slash path = true -> path_topic path = "General".
Proof. intros H. unfold path_topic. now rewrite (split_char_whole "/" path H). Qed.

(** C8, amended: in the listing of a non-empty store every note stands,
    with its title, in the section of the first directory of its path:
    a path [dir/rest], where [dir] holds no slash, stands in the section
    [dir], and a path without slash in the section ["General"].  The text
    of [list_notes] is the header, the sections of that listing and the
    closing line.  The topic that [fetch_knowledge_base] attached to the
    note (the cluster of the manifest, ["General"] by default) plays no
    part in it. *)
Theorem list_notes_groups_by_directory
    (notes : list (string * note_data)) (path : string) (nd : note_data) :
  In (path, nd) notes ->
  (forall dir rest,
      path = dir ++ "/" ++ rest -> no_slash dir = true ->
      exists es,
        In (dir, es) (listing notes) /\ In (path, get_default (nd_title nd) path) es)
  /\ (no_slash path = true ->
      exists es,
        In ("General", es) (listing notes)
        /\ In (path, get_default (nd_title nd) path) es)
  /\ list_notes (Some notes)
     = "Knowledge Base: " ++ str_of_nat (List.length notes) ++ " note(s) across "
       ++ str_of_nat (List.length (listing notes)) ++ " topic(s)" ++ nl ++ nl
       ++ String.concat "" (map format_section (listing notes))
       ++ "Use search_knowledge to find specific information, or get_note to read a full note.".
Proof.
  intros Hin.
  assert (H : exists es,
             In (path_topic path, es) (listing notes)
             /\ In (path, get_default (nd_title nd) path) es).
  { apply listing_holds. now apply group_notes_holds. }
  split; [|split].
  - intros dir rest Hp Hd. rewrite <- (path_topic_directory dir rest Hd), <- Hp. exact H.
  - intros Hp. rewrite <- (path_topic_general path Hp). exact H.
  - destruct notes as [|kv notes']; [contradiction|]. apply list_notes_listing.
Qed.

Lemma list_notes_groups_by_directory_witness :
  exists es,
    In ("docs", es) (listing Examples.two_notes)
    /\ In ("docs/b.md", get_default (nd_title Examples.beta) "docs/b.md") es.
Proof.
  destruct (list_notes_groups_by_directory Examples.two_notes "docs/b.md" Examples.beta)
    as [H _].
  - right. left. reflexivity.
  - apply (H "docs" "b.md"); reflexivity.
Defined.

(** C8 as stated fails: the note that the fetch puts under the manifest
    topic ["Engineering"] is not listed under that topic (it is listed
    under ["General"]). *)
Lemma list_notes_topic_counterexample :
  fetch_knowledge_base true Samples.repo_up = Returns Samples.one_note
  /\ nd_topic Samples.alpha = Some (JStr "Engineering")
  /\ ~ listed_under Samples.one_note "a.md" "Engineering".
Proof.
  split; [vm_compute; reflexivity|]. split; [reflexivity|].
  intros (es & t & Hsec & _). vm_compute in Hsec.
  destruct Hsec as [H|[]]. discriminate.
Qed.

(** ** Reversal and stripping *)

Lemma rev_acc_app (s acc : string) : rev_acc s acc = rev_acc s "" ++ acc.
Proof.
  revert acc. induction s as [|c s IH]; intros acc; [reflexivity|].
  simpl. rewrite (IH (String c acc)), (IH (String c "")).
  now rewrite str_app_assoc.
Qed.

Lemma rev_cons (c : ascii) (s : string) : rev (String c s) = rev s ++ String c "".
Proof. unfold rev. simpl. apply rev_acc_app. Qed.

Lemma rev_empty_inv (s : string) : rev s = "" -> s = "".
Proof.
  destruct s as [|c s]; [reflexivity|]. rewrite rev_cons.
  destruct (rev s); discriminate.
Qed.

Lemma rev_snoc (s : string) (c : ascii) : rev (s ++ String c "") = String c (rev s).
Proof.
  induction s as [|d s IH]; [reflexivity|].
  rewrite str_app_cons, !rev_cons, IH. reflexivity.
Qed.

Lemma drop_while_snoc (p : ascii -> bool) (s : string) (c : ascii) :
  drop_while p (s ++ String c "")
  = match drop_while p s with
    | "" => if p c then "" else String c ""
    | r => r ++ String c ""
    end.
Proof.
  induction s as [|d s IH]; [reflexivity|].
  rewrite str_app_cons. simpl. destruct (p d); [exact IH|reflexivity].
Qed.

Lemma strip_with_rstrip (p : ascii -> bool) (s : string) :
  strip_with p s = rstrip_with p (drop_while p s).
Proof. reflexivity. Qed.

Lemma rstrip_with_cons (p : ascii -> bool) (c : ascii) (s : string) :
  rstrip_with p (String c s)
  = match rstrip_with p s with
    | "" => if p c then "" else String c ""
    | r => String c r
    end.
Proof.
  unfold rstrip_with. rewrite rev_cons, drop_while_snoc.
  destruct (drop_while p (rev s)) as [|d r] eqn:Hd.
  - simpl. destruct (p c); reflexivity.
  - rewrite rev_snoc.
    destruct (rev (String d r)) eqn:Hr; [|reflexivity].
    apply rev_empty_inv in Hr. discriminate.
Qed.

Lemma rstrip_with_empty_iff (p : ascii -> bool) (s : string) :
  rstrip_with p s = "" <-> drop_while p s = "".
Proof.
  induction s as [|c s IH]; [split; reflexivity|].
  rewrite rstrip_with_cons. simpl.
  destruct (rstrip_with p s) as [|d r] eqn:Hr; destruct (p c) eqn:Hc.
  - split; [intros _; now apply IH|reflexivity].
  - split; discriminate.
  - split; [discriminate|]. intros H. apply IH in H. discriminate.
  - split; discriminate.
Qed.

Lemma rstrip_with_app (p : ascii -> bool) (x y : string) :
  rstrip_with p (x ++ y)
  = match rstrip_with p y with
    | "" => rstrip_with p x
    | r => x ++ r
    end.
Proof.
  induction x as [|c x IH];
    [rewrite str_app_empty_l; now destruct (rstrip_with p y)|].
  rewrite str_app_cons, rstrip_with_cons, IH.
  destruct (rstrip_with p y) as [|d r] eqn:Hy.
  - now rewrite rstrip_with_cons.
  - rewrite str_app_cons. destruct (x ++ String d r) eqn:Hx; [|reflexivity].
    destruct x; discriminate.
Qed.

Lemma rstrip_with_idem (p : ascii -> bool) (s : string) :
  rstrip_with p (rstrip_with p s) = rstrip_with p s.
Proof.
  induction s as [|c s IH]; [reflexivity|].
  rewrite rstrip_with_cons.
  destruct (rstrip_with p s) as [|d r] eqn:Hr.
  - destruct (p c) eqn:Hc; [reflexivity|].
    rewrite rstrip_with_cons. change (rstrip_with p "") with "". now rewrite Hc.
  - rewrite rstrip_with_cons, IH. reflexivity.
Qed.

(** What [rstrip] removes is whitespace at the end. *)
Lemma rstrip_with_split (p : ascii -> bool) (s : string) :
  exists w, s = rstrip_with p s ++ w /\ drop_while p w = "".
Proof.
  induction s as [|c s (w & Hs & Hw)]; [now exists ""|].
  rewrite rstrip_with_cons.
  destruct (rstrip_with p s) as [|d r] eqn:Hr.
  - destruct (p c) eqn:Hc.
    + exists (String c s). split; [reflexivity|]. simpl. rewrite Hc.
      now apply rstrip_with_empty_iff.
    + exists w. split; [|exact Hw]. rewrite str_app_cons. f_equal. exact Hs.
  - exists w. split; [|exact Hw]. rewrite str_app_cons. f_equal. exact Hs.
Qed.

Lemma drop_while_app (p : ascii -> bool) (a w : string) :
  drop_while p a <> "" -> drop_while p (a ++ w) = drop_while p a ++ w.
Proof.
  induction a as [|c a IH]; [intros H; now elim H|].
  rewrite str_app_cons. simpl. destruct (p c); [exact IH|reflexivity].
Qed.

Lemma drop_while_blank_app (p : ascii -> bool) (ws s : string) :
  drop_while p ws = "" -> drop_while p (ws ++ s) = drop_while p s.
Proof.
  induction ws as [|c ws IH]; [reflexivity|].
  rewrite str_app_cons. simpl. destruct (p c); [exact IH|discriminate].
Qed.

Lemma drop_while_idem (p : ascii -> bool) (s : string) :
  drop_while p (drop_while p s) = drop_while p s.
Proof.
  induction s as [|c s IH]; [reflexivity|].
  simpl. destruct (p c) eqn:Hc; [exact IH|]. simpl. now rewrite Hc.
Qed.

Lemma take_drop_while (p : ascii -> bool) (s : string) :
  s = take_while p s ++ drop_while p s.
Proof.
  induction s as [|c s IH]; [reflexivity|].
  simpl. destruct (p c); [|reflexivity]. rewrite str_app_cons. now f_equal.
Qed.

Lemma drop_while_take_while (p : ascii -> bool) (s : string) :
  drop_while p (take_while p s) = "".
Proof.
  induction s as [|c s IH]; [reflexivity|].
  simpl. destruct (p c) eqn:Hc; [|reflexivity]. simpl. now rewrite Hc.
Qed.

Lemma drop_while_head (p : ascii -> bool) (s : string) (c : ascii) (r : string) :
  drop_while p s = String c r -> p c = false.
Proof.
  induction s as [|d s IH]; [discriminate|].
  simpl. destruct (p d) eqn:Hd; [exact IH|]. now intros [= <- _].
Qed.

Lemma strip_with_empty_iff (p : ascii -> bool) (s : string) :
  strip_with p s = "" <-> rstrip_with p s = "".
Proof.
  unfold strip_with. now rewrite !rstrip_with_empty_iff, drop_while_idem.
Qed.

(** Stripping does not see whitespace that was stripped at the right. *)
Lemma strip_with_rstrip_with (p : ascii -> bool) (s : string) :
  strip_with p (rstrip_with p s) = strip_with p s.
Proof.
  destruct (rstrip_with p s) as [|d r] eqn:Hr.
  - symmetry. now apply strip_with_empty_iff.
  - rewrite <- Hr. destruct (rstrip_with_split p s) as (w & Hs & Hw).
    unfold strip_with. rewrite Hs at 2.
    rewrite drop_while_app.
    + rewrite rstrip_with_app.
      now rewrite (proj2 (rstrip_with_empty_iff p w) Hw).
    + intros H. apply rstrip_with_empty_iff in H. rewrite rstrip_with_idem in H.
      congruence.
Qed.

Lemma strip_with_head (p : ascii -> bool) (c : ascii) (s : string) :
  p c = false -> strip_with p (String c s) = rstrip_with p (String c s).
Proof. intros H. unfold strip_with. simpl. now rewrite H. Qed.

Lemma take_while_app_all (q : ascii -> bool) (a b : string) :
  take_while q (a ++ b) = a ++ b -> take_while q a = a /\ take_while q b = b.
Proof.
  induction a as [|c a IH]; [auto|].
  rewrite str_app_cons. simpl. destruct (q c); [|discriminate].
  intros [= H]. destruct (IH H) as [Ha Hb]. split; [now f_equal|exact Hb].
Qed.

Lemma take_while_all_app (q : ascii -> bool) (a b : string) :
  take_while q a = a -> take_while q (a ++ b) = a ++ take_while q b.
Proof.
  induction a as [|c a IH]; [reflexivity|].
  rewrite str_app_cons. simpl. destruct (q c); [|discriminate].
  intros [= H]. rewrite str_app_cons. f_equal. now apply IH.
Qed.

Lemma first_item_split_char (c : ascii) (s : string) :
  first_item (split_char c s) = take_while (fun x => negb (Ascii.eqb x c)) s.
Proof.
  induction s as [|d s IH]; [reflexivity|].
  simpl. destruct (Ascii.eqb d c); [reflexivity|]. simpl.
  destruct (split_char c s) as [|w ws]; simpl in *; now rewrite <- IH.
Qed.

Lemma first_line_take_while (s : string) :
  first_item (split_char "010" s) = take_while not_nl s.
Proof. apply first_item_split_char. Qed.

Lemma take_while_line_end (x tail : string) :
  one_line x -> line_end tail -> take_while not_nl (x ++ tail) = x.
Proof.
  intros Hx Ht. rewrite take_while_all_app by exact Hx.
  destruct Ht as [->|(rest & ->)]; simpl; apply str_app_empty_r.
Qed.

Lemma one_line_rstrip (s : string) : one_line s -> one_line (rstrip_with isspace s).
Proof.
  intros Hs. destruct (rstrip_with_split isspace s) as (w & Heq & _).
  unfold one_line in *. rewrite Heq in Hs. now apply take_while_app_all in Hs.
Qed.

Lemma line_end_rstrip (tail : string) :
  line_end tail -> line_end (rstrip_with isspace tail).
Proof.
  intros [->|(rest & ->)]; [now left|].
  rewrite rstrip_with_cons. change (isspace "010") with true.
  destruct (rstrip_with isspace rest); [now left|right; eauto].
Qed.

(** The stripped content when the content starts, after blank space,
    with a line [x] whose first character is not a space: its first line
    is [x], with or without the whitespace at its end. *)
Lemma strip_first_line (ws x tail : string) (c : ascii) (x' : string) :
  blank ws -> x = String c x' -> isspace c = false -> one_line x -> line_end tail ->
  exists x1 tail1,
    strip (ws ++ x ++ tail) = x1 ++ tail1
    /\ line_end tail1 /\ one_line x1
    /\ (x1 = x \/ x1 = rstrip_with isspace x)
    /\ rstrip_with isspace x1 = rstrip_with isspace x.
Proof.
  intros Hws -> Hc Hx Ht. unfold strip, strip_with.
  rewrite (drop_while_blank_app isspace ws _ Hws).
  rewrite str_app_cons. simpl drop_while. rewrite Hc. rewrite <- str_app_cons.
  rewrite rstrip_with_app.
  destruct (rstrip_with isspace tail) as [|d r] eqn:Hr.
  - exists (rstrip_with isspace (String c x')), "".
    rewrite str_app_empty_r. split; [reflexivity|]. split; [now left|].
    split; [now apply one_line_rstrip|]. split; [now right|].
    apply rstrip_with_idem.
  - exists (String c x'), (String d r). split; [reflexivity|].
    split; [rewrite <- Hr; now apply line_end_rstrip|].
    split; [exact Hx|]. split; [now left|reflexivity].
Qed.

Lemma rstrip_keeps_prefix (c d : ascii) (h : string) :
  rstrip_with isspace h <> "" ->
  rstrip_with isspace (String c (String d h))
  = String c (String d (rstrip_with isspace h)).
Proof.
  intros H. rewrite !rstrip_with_cons.
  destruct (rstrip_with isspace h); [congruence|reflexivity].
Qed.

(** A heading line [# h] with text in [h], at the head of the content:
    the first line of the stripped content is [# ] followed by [h] or by
    [h] without the whitespace at its end. *)
Lemma strip_heading_line (ws h tail : string) :
  blank ws -> one_line h -> strip h <> "" -> line_end tail ->
  exists h1 tail1,
    strip (ws ++ "# " ++ h ++ tail) = "# " ++ h1 ++ tail1
    /\ line_end tail1 /\ one_line h1 /\ strip h1 = strip h.
Proof.
  intros Hws Hh Hne Ht.
  assert (Hr : rstrip_with isspace h <> "").
  { intros H. apply Hne. now apply strip_with_empty_iff. }
  assert (Hx : one_line ("# " ++ h)).
  { unfold one_line in *. change ("# " ++ h) with (String "#" (String " " h)).
    simpl. now rewrite Hh. }
  destruct (strip_first_line ws ("# " ++ h) tail "#" (" " ++ h) Hws eq_refl eq_refl Hx Ht)
    as (x1 & tail1 & Hs & Ht1 & Hx1 & Hor & _).
  rewrite <- (str_app_assoc "# " h tail), Hs.
  destruct Hor as [->| ->].
  - exists h, tail1. rewrite str_app_assoc. auto.
  - exists (rstrip_with isspace h), tail1.
    change ("# " ++ h) with (String "#" (String " " h)).
    rewrite (rstrip_keeps_prefix _ _ _ Hr).
    split; [reflexivity|]. split; [exact Ht1|].
    split; [now apply one_line_rstrip|]. apply strip_with_rstrip_with.
Qed.

(** ** draft_note *)

Lemma slug_char_not_hyphen (c : ascii) : slug_char c = true -> Ascii.eqb "-" c = false.
Proof.
  intros H. destruct (Ascii.eqb_spec "-" c) as [<-|]; [discriminate|reflexivity].
Qed.

Lemma re_sub_in_run_head (s : string) :
  drop_while (Ascii.eqb "-") (re_sub_hyphen_from true s) = re_sub_hyphen_from true s.
Proof.
  induction s as [|c s IH]; [reflexivity|]. simpl.
  destruct (slug_char c) eqn:Hc; [|exact IH].
  cbn [drop_while]. now rewrite (slug_char_not_hyphen c Hc).
Qed.

(** Stripping the hyphens on the left removes the hyphen of a leading
    run. *)
Lemma re_sub_lstrip (s : string) :
  drop_while (Ascii.eqb "-") (re_sub_hyphen s) = re_sub_hyphen_from true s.
Proof.
  unfold re_sub_hyphen. destruct s as [|c s]; [reflexivity|]. simpl.
  destruct (slug_char c) eqn:Hc.
  - cbn [drop_while]. now rewrite (slug_char_not_hyphen c Hc).
  - cbn [drop_while]. change (Ascii.eqb "-" "-") with true. cbv iota.
    apply re_sub_in_run_head.
Qed.

Lemma runs_from_nonempty (p : ascii -> bool) (s current : string) (w : string) :
  In w (runs_from p current s) -> w <> "".
Proof.
  revert current. induction s as [|c s IH]; intros current; simpl.
  - destruct current as [|d cur]; [contradiction|].
    intros [<-|[]] H. apply rev_empty_inv in H. discriminate.
  - destruct (p c); [apply IH|].
    destruct current as [|d cur]; [apply IH|].
    intros [<-|H]; [|now apply (IH "")].
    intros H. apply rev_empty_inv in H. discriminate.
Qed.

Lemma join_empty_inv (sep : string) (ws : list string) :
  (forall w, In w ws -> w <> "") -> join sep ws = "" -> ws = [].
Proof.
  destruct ws as [|w ws]; [reflexivity|]. intros Hne H. exfalso.
  apply (Hne w); [now left|].
  simpl in H. destruct ws; [exact H|]. destruct w; [reflexivity|discriminate].
Qed.

Lemma join_cons (sep w : string) (ws : list string) :
  join sep (w :: ws) = match ws with [] => w | _ => w ++ sep ++ join sep ws end.
Proof. reflexivity. Qed.

(** The runs of the specification against the substitution of the code,
    inside a run of letters and digits ([current] is not empty) and
    outside. *)
Lemma runs_re_sub (s : string) :
  (forall current, current <> "" ->
     join "-" (runs_from slug_char current s)
     = rev current ++ rstrip_with (Ascii.eqb "-") (re_sub_hyphen_from false s))
  /\ join "-" (runs_from slug_char "" s)
     = rstrip_with (Ascii.eqb "-") (re_sub_hyphen_from true s).
Proof.
  induction s as [|c s [IHin IHout]].
  - split; [|reflexivity]. intros current Hne. simpl.
    destruct current; [congruence|]. simpl. now rewrite str_app_empty_r.
  - assert (Hword : slug_char c = true ->
        rstrip_with (Ascii.eqb "-") (String c (re_sub_hyphen_from false s))
        = String c (rstrip_with (Ascii.eqb "-") (re_sub_hyphen_from false s))).
    { intros Hc. rewrite rstrip_with_cons, (slug_char_not_hyphen c Hc).
      now destruct (rstrip_with _ _). }
    split.
    + intros current Hne. simpl. destruct (slug_char c) eqn:Hc.
      * rewrite IHin by discriminate. rewrite (Hword eq_refl), rev_cons, str_app_assoc.
        reflexivity.
      * destruct current as [|d cur]; [congruence|].
        rewrite join_cons, IHout, rstrip_with_cons.
        change (Ascii.eqb "-" "-") with true. cbv iota.
        destruct (runs_from slug_char "" s) as [|w ws] eqn:Hr.
        -- simpl in IHout. rewrite <- IHout. now rewrite str_app_empty_r.
        -- rewrite <- IHout.
           destruct (join "-" (w :: ws)) eqn:Hj; [|reflexivity].
           apply join_empty_inv in Hj; [discriminate|].
           intros w' Hw'. rewrite <- Hr in Hw'. eapply runs_from_nonempty, Hw'.
    + simpl. destruct (slug_char c) eqn:Hc; [|exact IHout].
      rewrite IHin by discriminate. now rewrite (Hword eq_refl).
Qed.

(** The slug of the code is the slug of the specification. *)
Lemma slugify_spec (t : string) : slugify t = spec_slugify t.
Proof.
  unfold slugify, spec_slugify, strip_char, strip_with.
  change (runs_from slug_letter) with (runs_from slug_char).
  rewrite re_sub_lstrip. symmetry. apply runs_re_sub.
Qed.

Lemma dict_mem_In {V : Type} (key : string) (d : list (string * V)) :
  dict_mem key d = true <-> exists v, In (key, v) d.
Proof.
  unfold dict_mem. rewrite existsb_exists. split.
  - intros ([k v] & Hin & Heq). simpl in Heq. apply String.eqb_eq in Heq. subst.
    eauto.
  - intros (v & Hin). exists (key, v). split; [exact Hin|]. apply String.eqb_refl.
Qed.

Lemma drop_prefix (p s : string) : drop (String.length p) (p ++ s) = s.
Proof. induction p as [|c p IH]; [now destruct s|]. rewrite str_app_cons. exact IH. Qed.

Lemma derive_title_heading_line (ws h tail : string) :
  blank ws -> one_line h -> strip h <> "" -> line_end tail ->
  derive_title (ws ++ "# " ++ h ++ tail) = strip h.
Proof.
  intros Hws Hh Hne Ht.
  destruct (strip_heading_line ws h tail Hws Hh Hne Ht)
    as (h1 & tail1 & Hs & Ht1 & Hh1 & Heq).
  unfold derive_title. rewrite Hs, first_line_take_while.
  assert (Hx : one_line ("# " ++ h1)).
  { unfold one_line in *. change ("# " ++ h1) with (String "#" (String " " h1)).
    simpl. now rewrite Hh1. }
  rewrite <- (str_app_assoc "# " h1 tail1), (take_while_line_end _ _ Hx Ht1).
  unfold startswith. rewrite prefix_app.
  change (drop 2 ("# " ++ h1)) with (drop (String.length "# ") ("# " ++ h1)).
  now rewrite drop_prefix.
Qed.

(** C7, amended.  With the title omitted ([None] or empty), the title is
    the text of the heading on the first line of the content, blank space
    before it aside: for a first line [# h], [h] having text, it is [h]
    stripped; when the first line does not start with [# ], it is
    ["Untitled Note"]; a title that is given is kept.  With the path
    omitted, the path is the slug of the title, given or derived
    (lowercase, the runs of letters [a] to [z] and digits joined by single
    hyphens), followed by [.md]; a path that is given is kept.  The note
    is new exactly when no note of the store has that path.  Content
    whose first line is [# Feature Flags] gives the title
    ["Feature Flags"] and the path ["feature-flags.md"]. *)
Theorem draft_note_derivation (content : string) (title path : option string)
    (notes : list (string * note_data)) :
  let e := draft_note_event content title path (Some (Some notes)) in
  (not_given title = true ->
     (forall ws h tail,
         content = ws ++ "# " ++ h ++ tail ->
         blank ws -> one_line h -> strip h <> "" -> line_end tail ->
         de_title e = strip h)
     /\ (startswith "# " (first_item (split_char "010" (strip content))) = false ->
         de_title e = "Untitled Note"))
  /\ (forall t, title = Some t -> t <> "" -> de_title e = t)
  /\ (not_given path = true -> de_path e = spec_slugify (de_title e) ++ ".md")
  /\ (forall p, path = Some p -> p <> "" -> de_path e = p)
  /\ (de_is_new e = true <-> ~ exists nd, In (de_path e, nd) notes)
  /\ (not_given title = true -> not_given path = true ->
      forall tail,
        content = "# Feature Flags" ++ tail -> line_end tail ->
        de_title e = "Feature Flags" /\ de_path e = "feature-flags.md").
Proof.
  cbv zeta. unfold draft_note_event.
  cbn [de_title de_path de_is_new state_notes].
  split; [|split; [|split; [|split; [|split]]]].
  - intros ->. split.
    + intros ws h tail -> Hws Hh Hne Ht. now apply derive_title_heading_line.
    + unfold derive_title. now intros ->.
  - intros t -> Ht. cbn [not_given get_default].
    now destruct (String.eqb_spec t "").
  - intros ->. now rewrite slugify_spec.
  - intros p0 -> Hp. cbn [not_given get_default].
    now destruct (String.eqb_spec p0 "").
  - rewrite negb_true_iff, <- not_true_iff_false, dict_mem_In. reflexivity.
  - intros -> -> tail -> Ht.
    change ("# Feature Flags" ++ tail) with ("" ++ "# " ++ "Feature Flags" ++ tail).
    rewrite (derive_title_heading_line "" "Feature Flags" tail);
      [split; reflexivity|reflexivity|reflexivity|discriminate|exact Ht].
Qed.

Lemma draft_note_derivation_witness :
  de_title (draft_note_event ("# Feature Flags" ++ nl ++ "How we ship.") None None
              (Some (Some Samples.one_note))) = "Feature Flags"
  /\ de_path (draft_note_event ("# Feature Flags" ++ nl ++ "How we ship.") None None
                (Some (Some Samples.one_note))) = "feature-flags.md".
Proof.
  destruct (draft_note_derivation ("# Feature Flags" ++ nl ++ "How we ship.") None None
              Samples.one_note) as (_ & _ & _ & _ & _ & H).
  apply (H eq_refl eq_refl (nl ++ "How we ship.")).
  - reflexivity.
  - right. exists "How we ship.". reflexivity.
Defined.

(** C7 as stated fails.  A content whose first top-level heading stands on
    its second line has a heading, and gets the title ["Untitled Note"]:
    the heading is looked for on the first line only.  And a letter
    outside [a] to [z] is alphanumeric and is not kept: the title [Caf]
    followed by the letter e with acute accent (code point 233) gets the
    path [caf.md]. *)
Lemma draft_note_title_counterexample :
  stated_title ("Notes" ++ nl ++ "# Feature Flags") = "Feature Flags"
  /\ de_title (draft_note_event ("Notes" ++ nl ++ "# Feature Flags") None None None)
     = "Untitled Note"
  /\ de_title (draft_note_event ("Notes" ++ nl ++ "# Feature Flags") None None None)
     <> stated_title ("Notes" ++ nl ++ "# Feature Flags")
  /\ stated_slugify ("Caf" ++ String "233" "") = "caf" ++ String "233" ""
  /\ de_path (draft_note_event "Menu" (Some ("Caf" ++ String "233" "")) None None)
     = "caf.md"
  /\ de_path (draft_note_event "Menu" (Some ("Caf" ++ String "233" "")) None None)
     <> stated_slugify ("Caf" ++ String "233" "") ++ ".md".
Proof. repeat split; vm_compute; solve [reflexivity | discriminate]. Qed.

(** A heading without text.  A first line [# ] followed by more lines is
    taken as a heading: the title is empty and the path is [.md]. *)
Lemma draft_note_empty_heading :
  de_title (draft_note_event ("# " ++ nl ++ "Body") None None None) = ""
  /\ de_path (draft_note_event ("# " ++ nl ++ "Body") None None None) = ".md".
Proof. split; vm_compute; reflexivity. Qed.

(** ** extract_title_from_content *)

Lemma one_line_cons (c : ascii) (s : string) :
  one_line (String c s) -> Ascii.eqb c "010" = false /\ one_line s.
Proof.
  unfold one_line, not_nl. simpl.
  destruct (Ascii.eqb c "010"); simpl; [discriminate|]. intros [= H]. auto.
Qed.

Lemma dot_plus_eol_end (tail : string) :
  line_end tail -> dot_plus_eol tail = None /\ at_eol tail = true.
Proof. intros [->|(rest & ->)]; split; reflexivity. Qed.

(** [(.+)$] takes a line up to its end. *)
Lemma dot_plus_eol_line (y tail : string) :
  y <> "" -> one_line y -> line_end tail -> dot_plus_eol (y ++ tail) = Some y.
Proof.
  intros Hne Hy Ht. induction y as [|c y IH]; [congruence|].
  apply one_line_cons in Hy as [Hc Hy].
  rewrite str_app_cons. simpl. rewrite Hc.
  destruct y as [|d y'].
  - rewrite str_app_empty_l. destruct (dot_plus_eol_end tail Ht) as [-> ->]. reflexivity.
  - now rewrite IH.
Qed.

(** [\s+] runs over the whitespace before the text of the heading. *)
Lemma spaces_then_group_skip (ws y : string) (c : ascii) (g : string) :
  isspace c = true -> blank ws ->
  spaces_then_group y = None -> dot_plus_eol y = Some g ->
  spaces_then_group (String c (ws ++ y)) = Some g.
Proof.
  revert c. unfold blank. induction ws as [|d ws IH]; intros c Hc Hws Hy Hg.
  - rewrite str_app_empty_l. simpl. now rewrite Hc, Hy.
  - simpl in Hws. destruct (isspace d) eqn:Hd; [|discriminate].
    rewrite str_app_cons.
    change (spaces_then_group (String c (String d (ws ++ y))))
      with (if isspace c
            then match spaces_then_group (String d (ws ++ y)) with
                 | Some g => Some g
                 | None => dot_plus_eol (String d (ws ++ y))
                 end
            else None).
    now rewrite Hc, (IH d Hd Hws Hy Hg).
Qed.

(** The claim's first half holds: a content that starts (after blank
    space) with a heading line [# h], [h] having text, has the title [h]
    stripped. *)
Lemma extract_title_heading_line (ws h tail filename : string) :
  blank ws -> one_line h -> strip h <> "" -> line_end tail ->
  extract_title_from_content (ws ++ "# " ++ h ++ tail) filename = strip h.
Proof.
  intros Hws Hh Hne Ht.
  destruct (strip_heading_line ws h tail Hws Hh Hne Ht)
    as (h1 & tail1 & Hs & Ht1 & Hh1 & Heq).
  unfold extract_title_from_content. rewrite Hs.
  change ("# " ++ h1 ++ tail1) with (String "#" (String " " (h1 ++ tail1))).
  cbn [re_match_heading].
  pose proof (take_drop_while isspace h1) as Hsplit.
  destruct (drop_while isspace h1) as [|c y] eqn:Hy.
  - exfalso. apply Hne. rewrite <- Heq. unfold strip, strip_with. now rewrite Hy.
  - assert (Hc : isspace c = false) by exact (drop_while_head _ _ _ _ Hy).
    assert (Hline : one_line (String c y)).
    { unfold one_line in Hh1. rewrite Hsplit in Hh1.
      now apply take_while_app_all in Hh1. }
    rewrite Hsplit, str_app_assoc.
    rewrite (spaces_then_group_skip _ _ " " (String c y)).
    + rewrite <- Heq. unfold strip, strip_with. rewrite Hy.
      simpl drop_while. now rewrite Hc.
    + reflexivity.
    + apply drop_while_take_while.
    + rewrite str_app_cons. simpl. now rewrite Hc.
    + apply dot_plus_eol_line; [discriminate|exact Hline|exact Ht1].
Qed.

(** C6: where the code leaves the claim.  A content whose first line is a
    bare [#] has no [# Heading] line, so the title is to come from the
    filename (["X"] for [x.md]); the code returns the text of the next line
    instead, because [\s+] runs over the newline.  And a filename that holds
    [.md] before its extension loses that too: [a.md.md] gives ["A"], not
    ["A.Md"]. *)
Theorem extract_title_bare_hash :
  extract_title_from_content ("#" ++ nl ++ "Body") "x.md" = "Body"
  /\ spec_extract_title ("#" ++ nl ++ "Body") "x.md" = "X"
  /\ extract_title_from_content "Body" "a.md.md" = "A"
  /\ spec_extract_title "Body" "a.md.md" = "A.Md".
Proof. repeat split; vm_compute; reflexivity. Qed.

(** * Further properties of the code *)

(** ** fetch_knowledge_base *)

Lemma dict_mem_dict_set {V : Type} (key : string) (v : V) (d : list (string * V))
    (k : string) :
  dict_mem k (dict_set key v d) = String.eqb key k || dict_mem k d.
Proof.
  unfold dict_mem. induction d as [|[k' w] d IH]; simpl.
  - now rewrite orb_false_r.
  - destruct (String.eqb_spec k' key) as [->|Hne]; simpl.
    + destruct (String.eqb key k); reflexivity.
    + rewrite IH. destruct (String.eqb k' k), (String.eqb key k); reflexivity.
Qed.

Lemma dict_set_keys {V : Type} (key : string) (v : V) (d : list (string * V)) :
  map fst (dict_set key v d)
  = if dict_mem key d then map fst d else (map fst d ++ [key])%list.
Proof.
  unfold dict_mem. induction d as [|[k w] d IH]; simpl; [reflexivity|].
  destruct (String.eqb_spec k key) as [->|Hne]; simpl; [reflexivity|].
  rewrite IH. now destruct (existsb _ d).
Qed.

Lemma dict_mem_keys {V : Type} (key : string) (d : list (string * V)) :
  dict_mem key d = true <-> In key (map fst d).
Proof.
  rewrite dict_mem_In, in_map_iff. split.
  - intros (v & H). now exists (key, v).
  - intros ([k v] & <- & H). now exists v.
Qed.

Lemma dict_set_NoDup {V : Type} (key : string) (v : V) (d : list (string * V)) :
  NoDup (map fst d) -> NoDup (map fst (dict_set key v d)).
Proof.
  intros Hd. rewrite dict_set_keys.
  destruct (dict_mem key d) eqn:Hm; [exact Hd|].
  apply (proj2 (NoDup_app (map fst d) [key])). split; [exact Hd|]. split.
  - intros k Hk Hk'. apply list_elem_of_In in Hk, Hk'.
    destruct Hk' as [<-|[]]. apply dict_mem_keys in Hk. congruence.
  - apply NoDup_singleton.
Qed.


Lemma add_file_readable (m : gmap string json) (acc : list (string * note_data))
    (f : content_file) :
  add_file m acc f
  = if readable f
    then match cf_decoded f with
         | Returns c =>
             dict_set (cf_name f)
               (mk_note (Some c) (Some (extract_title_from_content c (cf_name f)))
                        (Some (cf_name f))
                        (Some (default (JStr "General") (m !! cf_name f))))
               acc
         | Raises _ => acc
         end
    else acc.
Proof.
  unfold add_file, readable.
  destruct (String.eqb (cf_type f) "file" && endswith ".md" (cf_name f));
    [|reflexivity].
  destruct (cf_decoded f); reflexivity.
Qed.

(** X1: the mapping that a fetch returns has no path twice; every note
    carries its own key as its path, and every path ends with [.md]. *)
Theorem fetch_paths_unique (client : bool) (r : remote)
    (notes : list (string * note_data)) :
  fetch_knowledge_base client r = Returns notes ->
  NoDup (map fst notes)
  /\ forall path nd, In (path, nd) notes ->
       nd_path nd = Some path /\ endswith ".md" path = true.
Proof.
  unfold fetch_knowledge_base. destruct client; [|discriminate]. simpl negb. cbv iota.
  destruct (rm_contents r) as [contents|e]; [|discriminate].
  intros [= <-].
  set (m := build_note_to_cluster (rm_clusters r)).
  assert (Hgen : forall acc,
    (NoDup (map fst acc)
     /\ forall p d, In (p, d) acc -> nd_path d = Some p /\ endswith ".md" p = true) ->
    NoDup (map fst (fold_left (add_file m) contents acc))
    /\ forall p d, In (p, d) (fold_left (add_file m) contents acc) ->
         nd_path d = Some p /\ endswith ".md" p = true).
  { induction contents as [|f contents IH]; intros acc Hacc; [exact Hacc|].
    simpl. apply IH. rewrite add_file_readable.
    destruct (readable f) eqn:Hr; [|exact Hacc].
    destruct (cf_decoded f) as [c|]; [|exact Hacc].
    destruct Hacc as [Hnd Hall]. split; [now apply dict_set_NoDup|].
    intros p d Hin. apply In_dict_set in Hin. destruct Hin as [[-> ->]|Hin].
    - split; [reflexivity|]. unfold readable in Hr.
      now apply andb_prop in Hr as [Hr _]; apply andb_prop in Hr as [_ Hr].
    - now apply Hall. }
  apply Hgen. split; [constructor|intros p d []].
Qed.

Lemma fetch_paths_unique_witness :
  NoDup (map fst Samples.one_note).
Proof.
  apply (fetch_paths_unique true Samples.repo_up Samples.one_note).
  vm_compute. reflexivity.
Defined.

Lemma fetch_returns (r : remote) (contents : list content_file) :
  rm_contents r = Returns contents ->
  fetch_knowledge_base true r
  = Returns (fold_left (add_file (build_note_to_cluster (rm_clusters r))) contents []).
Proof. intros H. unfold fetch_knowledge_base. now rewrite H. Qed.

Lemma fetch_keys (m : gmap string json) (contents : list content_file) (path : string) :
  forall acc,
  dict_mem path (fold_left (add_file m) contents acc) = true
  <-> dict_mem path acc = true
      \/ exists f, In f contents /\ readable f = true /\ cf_name f = path.
Proof.
  induction contents as [|f contents IH]; intros acc; simpl.
  - split; [auto|]. intros [H|(f & [] & _)]. exact H.
  - rewrite IH, add_file_readable. destruct (readable f) eqn:Hr.
    + destruct (cf_decoded f) as [c|e] eqn:Hd.
      * rewrite dict_mem_dict_set, orb_true_iff, String.eqb_eq. split.
        -- intros [[Hn|Hm]|(g & Hg & Hrg & Hng)]; eauto 8.
        -- intros [Hm|(g & [<-|Hg] & Hrg & Hng)]; eauto 8.
      * unfold readable in Hr. rewrite Hd, andb_false_r in Hr. discriminate.
    + split.
      * intros [Hm|(g & Hg & Hrg & Hng)]; eauto 8.
      * intros [Hm|(g & [<-|Hg] & Hrg & Hng)]; [auto|congruence|eauto 8].
Qed.

(** X2: whatever the entries of the listing are, the fetch returns, and
    the paths of the mapping are exactly the names of the entries that are
    files, end with [.md] and decode: what does not decode is skipped, and
    so is what is no file or has another extension. *)
Theorem fetch_paths_are_readable_files (r : remote) (contents : list content_file) :
  rm_contents r = Returns contents ->
  exists notes,
    fetch_knowledge_base true r = Returns notes
    /\ forall path,
         dict_mem path notes = true
         <-> exists f, In f contents /\ readable f = true /\ cf_name f = path.
Proof.
  intros H. eexists. split; [exact (fetch_returns r contents H)|].
  intros path. rewrite fetch_keys. split; [|auto]. intros [Hm|Hf]; [discriminate|exact Hf].
Qed.

Lemma fetch_paths_are_readable_files_witness :
  exists notes,
    fetch_knowledge_base true Examples.repo_mixed = Returns notes
    /\ forall path,
         dict_mem path notes = true
         <-> exists f, In f Examples.mixed_listing /\ readable f = true /\ cf_name f = path.
Proof.
  apply (fetch_paths_are_readable_files Examples.repo_mixed Examples.mixed_listing).
  reflexivity.
Defined.

(** *** The manifest *)

Lemma assign_names_in (name : string) (files : list string) (m : gmap string json)
    (note : string) :
  In note files -> assign_names name files m !! note = Some (JStr name).
Proof.
  unfold assign_names. revert m.
  induction files as [|f files IH]; intros m; [intros []|]. simpl.
  destruct (in_dec string_dec note files) as [Hin|Hout].
  - intros _. now apply IH.
  - intros [->|Hin]; [|contradiction].
    clear IH. revert m Hout. induction files as [|g files IH]; intros m Hout; simpl.
    + apply lookup_insert_eq.
    + assert (g <> note) by (intros ->; apply Hout; now left).
      rewrite insert_insert_ne by congruence. apply IH. intros H'. apply Hout. now right.
Qed.

Lemma assign_names_out (name : string) (files : list string) (m : gmap string json)
    (note : string) :
  ~ In note files -> assign_names name files m !! note = m !! note.
Proof.
  unfold assign_names. revert m.
  induction files as [|f files IH]; intros m Hout; [reflexivity|]. simpl.
  rewrite IH by (intros H; apply Hout; now right).
  apply lookup_insert_ne. intros ->. apply Hout. now left.
Qed.

(** The loops of the code on a manifest of the clustering script: they
    run to the end. *)
Lemma assign_cluster_names (name : string) (files : list string) (m : gmap string json) :
  assign_cluster (JStr name) (map JStr files) m = (assign_names name files m, Returns tt).
Proof.
  unfold assign_names. revert m.
  induction files as [|f files IH]; intros m; [reflexivity|].
  cbn [map assign_cluster set_item fold_left]. apply IH.
Qed.

Lemma jget_name (c : cluster) :
  jget "name" (JStr "General") (json_of_cluster c)
  = Returns (JStr (get_default (cl_name c) "General")).
Proof. destruct c as [[n|] [l|]]; reflexivity. Qed.

Lemma jget_notes (c : cluster) :
  jget "notes" (JList []) (json_of_cluster c)
  = Returns (JList (map JStr (default [] (cl_notes c)))).
Proof. destruct c as [[n|] [l|]]; reflexivity. Qed.

Lemma assign_clusters_app (good rest : list json) (m : gmap string json) :
  assign_clusters (List.app good rest) m
  = match assign_clusters good m with
    | (m', Returns _) => assign_clusters rest m'
    | (m', Raises e) => (m', Raises e)
    end.
Proof.
  revert m. induction good as [|c good IH]; intros m; [reflexivity|].
  cbn [List.app assign_clusters].
  destruct (jget "name" _ c); [|reflexivity].
  destruct (jget "notes" _ c) as [notes|]; [|reflexivity].
  destruct (jiter notes) as [files|]; [|reflexivity].
  destruct (assign_cluster _ files m) as [m' [[]|e]]; [apply IH|reflexivity].
Qed.

Lemma assign_clusters_manifest (clusters : list cluster) (m : gmap string json) :
  assign_clusters (map json_of_cluster clusters) m
  = (manifest_mapping clusters m, Returns tt).
Proof.
  unfold manifest_mapping. revert m.
  induction clusters as [|c clusters IH]; intros m; [reflexivity|].
  cbn [map assign_clusters fold_left].
  rewrite jget_name, jget_notes. cbn [jiter].
  rewrite assign_cluster_names. apply IH.
Qed.

Lemma build_manifest (clusters : list cluster) :
  build_note_to_cluster (Returns (json_of_manifest (mk_clusters (Some clusters))))
  = manifest_mapping clusters ∅.
Proof.
  unfold build_note_to_cluster, json_of_manifest. cbn [cd_clusters jget dict_get].
  change (String.eqb "clusters" "clusters") with true. cbv iota. cbn [jiter].
  now rewrite assign_clusters_manifest.
Qed.

(** An entry that is no object ends the reading of the manifest; what the
    clusters before it assigned stays. *)
Lemma build_broken_manifest (good : list cluster) (bad : json) (rest : list json) :
  not_an_object bad ->
  build_note_to_cluster
    (Returns (JObj [("clusters", JList (List.app (map json_of_cluster good) (bad :: rest)))]))
  = manifest_mapping good ∅.
Proof.
  intros Hbad. unfold build_note_to_cluster. cbn [jget dict_get].
  change (String.eqb "clusters" "clusters") with true. cbv iota. cbn [jiter].
  rewrite assign_clusters_app, assign_clusters_manifest. cbn [assign_clusters].
  destruct bad; try reflexivity. contradiction.
Qed.

Lemma fetch_fields (m : gmap string json) (contents : list content_file)
    (path : string) (nd : note_data) :
  forall acc,
  In (path, nd) (fold_left (add_file m) contents acc) ->
  In (path, nd) acc
  \/ exists f content,
       In f contents /\ cf_name f = path /\ cf_decoded f = Returns content
       /\ nd_content nd = Some content
       /\ nd_title nd = Some (extract_title_from_content content path).
Proof.
  induction contents as [|f contents IH]; intros acc; cbn [fold_left].
  - now left.
  - intros Hin. destruct (IH _ Hin) as [Hacc|(g & c & Hg & Hrest)].
    + rewrite add_file_readable in Hacc.
      destruct (readable f); [|now left].
      destruct (cf_decoded f) as [c|e] eqn:Hd; [|now left].
      apply In_dict_set in Hacc as [[Hp ->]|Hacc]; [|now left].
      right. exists f, c. rewrite Hp. split; [now left|]. repeat split; auto.
    + right. exists g, c. split; [now right|exact Hrest].
Qed.

(** X3: where the fields of a fetched note come from.  Whatever the
    manifest is, the fetch returns once the listing is read, and each note
    of the mapping comes from an entry of the listing with its path as
    name: its content is the decoded text of that entry and its title is
    extracted from that text and the name.  Its topic is what the
    manifest assigned to its path, [General] when it assigned nothing.
    When the manifest is missing or is not JSON, every note has the topic
    [General].  For a manifest as the clustering script writes it, the
    topic is the name of the last cluster that lists the note.  When the
    list of clusters holds an entry that is no object, the reading stops
    there and the topics of the clusters before that entry are kept. *)
Theorem fetch_note_fields (r : remote) (contents : list content_file) :
  rm_contents r = Returns contents ->
  exists notes,
    fetch_knowledge_base true r = Returns notes
    /\ forall path nd, In (path, nd) notes ->
         (exists f content,
            In f contents /\ cf_name f = path /\ cf_decoded f = Returns content
            /\ nd_content nd = Some content
            /\ nd_title nd = Some (extract_title_from_content content path))
         /\ nd_topic nd
            = Some (default (JStr "General")
                      (build_note_to_cluster (rm_clusters r) !! path))
         /\ (forall e, rm_clusters r = Raises e -> nd_topic nd = Some (JStr "General"))
         /\ (forall clusters,
               rm_clusters r = Returns (json_of_manifest (mk_clusters (Some clusters))) ->
               nd_topic nd
               = Some (default (JStr "General") (manifest_mapping clusters ∅ !! path)))
         /\ (forall good bad rest,
               rm_clusters r
               = Returns (JObj [("clusters",
                                 JList (List.app (map json_of_cluster good) (bad :: rest)))]) ->
               not_an_object bad ->
               nd_topic nd
               = Some (default (JStr "General") (manifest_mapping good ∅ !! path))).
Proof.
  intros Hc. eexists. split; [exact (fetch_returns r contents Hc)|].
  intros path nd Hin.
  pose proof (fetch_topics true r _ path nd (fetch_returns r contents Hc) Hin) as Ht.
  split; [|split; [exact Ht|split; [|split]]].
  - destruct (fetch_fields _ contents path nd [] Hin) as [[]|(f & c & H)].
    now exists f, c.
  - intros e He. rewrite He in Ht. exact Ht.
  - intros clusters Hm. now rewrite Hm, build_manifest in Ht.
  - intros good bad rest Hm Hbad. now rewrite Hm, build_broken_manifest in Ht.
Qed.

Lemma fetch_note_fields_witness :
  exists notes,
    fetch_knowledge_base true Examples.repo_broken = Returns notes
    /\ forall path nd, In (path, nd) notes ->
         nd_topic nd
         = Some (default (JStr "General")
                   (manifest_mapping [mk_cluster (Some "Engineering") (Some ["a.md"])] ∅
                    !! path)).
Proof.
  destruct (fetch_note_fields Examples.repo_broken Examples.mixed_listing eq_refl)
    as (notes & Hf & H).
  exists notes. split; [exact Hf|]. intros path nd Hin.
  destruct (H path nd Hin) as (_ & _ & _ & _ & Hb).
  apply (Hb [mk_cluster (Some "Engineering") (Some ["a.md"])] (JStr "oops")
            [json_of_cluster (mk_cluster (Some "Ops") (Some ["a.md"]))]).
  - reflexivity.
  - exact I.
Defined.

(** X4: a note that several clusters of the manifest list gets the topic
    of the last cluster that lists it; a cluster without a name counts as
    ["General"]. *)
Theorem manifest_last_cluster_wins (before after : list cluster) (c : cluster)
    (note : string) :
  In note (default [] (cl_notes c)) ->
  (forall c', In c' after -> ~ In note (default [] (cl_notes c'))) ->
  build_note_to_cluster
    (Returns (json_of_manifest (mk_clusters (Some (before ++ c :: after)%list)))) !! note
  = Some (JStr (get_default (cl_name c) "General")).
Proof.
  intros Hin Hafter. rewrite build_manifest. unfold manifest_mapping.
  rewrite fold_left_app. cbn [fold_left].
  set (m := assign_names _ _ (fold_left _ before ∅)).
  assert (Hm : m !! note = Some (JStr (get_default (cl_name c) "General"))).
  { subst m. now apply assign_names_in. }
  clearbody m. revert m Hm.
  induction after as [|c' after IH]; intros m Hm; [exact Hm|]. simpl.
  apply IH.
  - intros c'' H. apply Hafter. now right.
  - rewrite assign_names_out; [exact Hm|]. apply Hafter. now left.
Qed.

Lemma manifest_last_cluster_wins_witness :
  build_note_to_cluster
    (Returns
       (json_of_manifest
          (mk_clusters (Some ([mk_cluster (Some "Ops") (Some ["a.md"; "b.md"])]
                                ++ mk_cluster (Some "Engineering") (Some ["a.md"])
                                :: [mk_cluster None (Some ["c.md"])])%list))))
    !! "a.md"
  = Some (JStr "Engineering").
Proof.
  apply (manifest_last_cluster_wins
           [mk_cluster (Some "Ops") (Some ["a.md"; "b.md"])]
           [mk_cluster None (Some ["c.md"])]
           (mk_cluster (Some "Engineering") (Some ["a.md"])) "a.md").
  - left. reflexivity.
  - intros c' [<-|[]] [H|[]]. discriminate.
Defined.

(** ** get_pr_status *)

(** X5: the status read from the remote repository is [merged] exactly
    when the pull request is merged, whatever its state; [closed] exactly
    when it is not merged and its state is [closed]; [open] otherwise. *)
Theorem get_pr_status_cases (pr : pull_request) (n : Z) :
  exists s,
    get_pr_status true (Returns pr) n = Returns s
    /\ st_pr_number s = n
    /\ (st_status s = "merged" <-> pr_merged pr = true)
    /\ (st_status s = "closed" <-> pr_merged pr = false /\ pr_state pr = "closed")
    /\ (st_status s = "open" <-> pr_merged pr = false /\ pr_state pr <> "closed").
Proof.
  unfold get_pr_status. simpl negb. cbv iota. eexists. split; [reflexivity|].
  cbn [st_pr_number st_status]. split; [reflexivity|].
  destruct (pr_merged pr); [intuition (try discriminate; congruence)|].
  destruct (String.eqb_spec (pr_state pr) "closed") as [He|Hne];
    intuition (try discriminate; congruence).
Qed.

(** ** verify_webhook_signature: when it raises *)

Section SignatureRaises.

Variable hmac_sha256 : list Byte.byte -> list Byte.byte -> list Byte.byte.

(** X6: the verification returns a boolean for every header made of ASCII
    characters and for every header without the prefix [sha256=]; it
    raises [TypeError], instead of returning false, exactly when the
    header has the prefix and a character outside ASCII. *)
Theorem verify_webhook_signature_raises
    (payload : list Byte.byte) (signature secret : string) :
  (is_ascii_str signature = true \/ startswith "sha256=" signature = false ->
   exists b, verify_webhook_signature hmac_sha256 payload signature secret = Returns b)
  /\ (verify_webhook_signature hmac_sha256 payload signature secret = Raises TypeError
      <-> startswith "sha256=" signature = true /\ non_ascii signature).
Proof.
  unfold verify_webhook_signature, non_ascii, compare_digest.
  rewrite expected_signature_ascii, andb_true_r.
  destruct (String.eqb_spec signature "") as [->|Hne]; simpl orb.
  - split; [eauto|]. split; [discriminate|]. intros [H _]. discriminate.
  - destruct (startswith "sha256=" signature); simpl.
    + destruct (is_ascii_str signature); split; eauto.
      * split; [discriminate|]. intros [_ H]. discriminate.
      * intros [H|H]; discriminate.
      * split; auto.
    + split; [eauto|]. split; [discriminate|]. intros [H _]. discriminate.
Qed.

End SignatureRaises.

Lemma verify_webhook_signature_raises_witness :
  exists b,
    verify_webhook_signature Samples.toy_hmac [Byte.x68] "sha256=00" "key" = Returns b.
Proof.
  apply (verify_webhook_signature_raises Samples.toy_hmac [Byte.x68] "sha256=00" "key").
  left. reflexivity.
Defined.

(** ** refresh_notes_cache: what a call may change *)

(** X7: a call never touches the ledger and performs at most one fetch.
    It leaves the globals as they are, or, when the fetch succeeds,
    replaces the cache by the fetched mapping as a whole and stamps it
    with the clock.  What it returns is the cache after the call or the
    empty mapping. *)
Theorem refresh_all_or_nothing (w : world) (force : bool) (st : state) :
  let r := refresh_notes_cache w force st in
  _submitted_prs (res_state r) = _submitted_prs st
  /\ (count_fetches r <= 1)%nat
  /\ (res_state r = st
      \/ exists notes,
           count_fetches r = 1%nat
           /\ fetch_knowledge_base (w_client w)
                (w_repo w (get_default (KNOWLEDGE_REPO (w_environ w)) "")
                        (KNOWLEDGE_BRANCH (w_environ w))) = Returns notes
           /\ res_state r = mk_state notes (w_stamp w) (_submitted_prs st))
  /\ (res_outcome r = Returns (_notes_cache (res_state r))
      \/ res_outcome r = Returns []).
Proof.
  cbv zeta. split; [apply refresh_keeps_ledger|].
  unfold refresh_notes_cache.
  destruct (negb force && nonempty (_notes_cache st) && cache_valid (w_now w) st);
    [cbn; auto|].
  destruct (not_given (KNOWLEDGE_REPO (w_environ w))); [cbn; auto|].
  destruct (fetch_knowledge_base _ _) as [notes|e] eqn:Hf.
  - cbn. split; [lia|]. split; [right; eauto|auto].
  - destruct (nonempty (_notes_cache st)); cbn; auto.
Qed.

Lemma refresh_timestamp_step (w : world) (force : bool) (st : state) :
  _cache_timestamp (res_state (refresh_notes_cache w force st)) = _cache_timestamp st
  \/ _cache_timestamp (res_state (refresh_notes_cache w force st)) = w_stamp w.
Proof.
  unfold refresh_notes_cache.
  destruct (negb force && nonempty (_notes_cache st) && cache_valid (w_now w) st);
    [cbn; auto|].
  destruct (not_given (KNOWLEDGE_REPO (w_environ w))); [cbn; auto|].
  destruct (fetch_knowledge_base _ _) as [notes|e]; [cbn; auto|].
  destruct (nonempty (_notes_cache st)); cbn; auto.
Qed.

(** X8: under a clock that does not run backwards (every reading is at
    least the timestamp of the cache and the readings of the earlier
    calls), the timestamp of the cache never decreases over a sequence of
    refresh calls. *)
Theorem cache_timestamp_monotone (calls : list (world * bool)) (st : state) :
  StronglySorted Qle (_cache_timestamp st :: map (fun c => w_stamp (fst c)) calls) ->
  (_cache_timestamp st <= _cache_timestamp (refresh_all calls st))%Q.
Proof.
  revert st. induction calls as [|[w force] calls IH]; intros st Hs.
  - apply Qle_refl.
  - unfold refresh_all. cbn [fold_left fst snd].
    fold (refresh_all calls (res_state (refresh_notes_cache w force st))).
    apply StronglySorted_inv in Hs as [Hrest Hhead]. cbn [map fst] in *.
    assert (Hle : (_cache_timestamp st
                   <= _cache_timestamp (res_state (refresh_notes_cache w force st)))%Q).
    { destruct (refresh_timestamp_step w force st) as [->| ->]; [apply Qle_refl|].
      now apply Forall_inv in Hhead. }
    eapply Qle_trans; [exact Hle|]. apply IH.
    destruct (refresh_timestamp_step w force st) as [->| ->].
    + apply StronglySorted_inv in Hrest as [Hrest' _].
      constructor; [exact Hrest'|]. now apply Forall_inv_tail in Hhead.
    + exact Hrest.
Qed.

Lemma cache_timestamp_monotone_witness :
  (_cache_timestamp (Samples.state_with "open")
   <= _cache_timestamp
        (refresh_all [(Samples.world_at 400 Samples.repo_up Samples.open_pull, false);
                      (Samples.world_at 500 Samples.repo_down Samples.open_pull, true)]
                     (Samples.state_with "open")))%Q.
Proof.
  apply (cache_timestamp_monotone
           [(Samples.world_at 400 Samples.repo_up Samples.open_pull, false);
            (Samples.world_at 500 Samples.repo_down Samples.open_pull, true)]
           (Samples.state_with "open")).
  repeat constructor; vm_compute; discriminate.
Defined.

(** ** github_webhook: rejections and refreshes *)

Section WebhookMore.

Variable hmac_sha256 : list Byte.byte -> list Byte.byte -> list Byte.byte.

Lemma ledger_key_raises (v : json) (e : exn) : ledger_key v = Raises e -> e = TypeError.
Proof. destruct v as [| | |[| |]| | |]; cbn; congruence. Qed.

Lemma update_tracked_cache (key : option Z) (f : submitted_pr -> submitted_pr) (st : state) :
  _notes_cache (update_tracked key f st) = _notes_cache st
  /\ _cache_timestamp (update_tracked key f st) = _cache_timestamp st.
Proof.
  unfold update_tracked. destruct key as [k|]; [|auto].
  destruct (_submitted_prs st !! k); cbn; auto.
Qed.

(** What an exception of the handler leaves behind: nothing, unless it is
    the [TypeError] of an unhashable number, raised after the refresh of
    a merge. *)
Lemma dispatch_raises (w : world) (event_type : string) (p : json) (st : state) (e : exn) :
  res_outcome (dispatch w event_type p st) = Raises e ->
  _submitted_prs (res_state (dispatch w event_type p st)) = _submitted_prs st
  /\ ((res_state (dispatch w event_type p st) = st
       /\ res_effects (dispatch w event_type p st) = [])
      \/ (e = TypeError /\ refreshing_event w event_type p = true)).
Proof.
  unfold dispatch, refreshing_event, closed_and_merged.
  destruct (String.eqb event_type "pull_request").
  - destruct (jget "action" _ p) as [action|]; [|cbn; auto].
    destruct (jget "pull_request" _ p) as [pr|]; [|cbn; auto].
    destruct (jget "number" _ pr) as [number|]; [|cbn; auto].
    destruct (jeq_str action "closed"); [|discriminate].
    destruct (jget "merged" _ pr) as [merged|]; [|cbn; auto].
    destruct (jtruthy merged), (ledger_key number) as [key|e'] eqn:Hk;
      cbn [res_outcome res_state res_effects]; try discriminate.
    + intros [= <-]. split; [apply refresh_keeps_ledger|]. right.
      split; [now apply ledger_key_raises in Hk|reflexivity].
    + auto.
  - destruct (String.eqb event_type "push"); [|discriminate].
    destruct (jget "ref" _ p) as [ref|]; [|cbn; auto].
    destruct (jeq_str ref _); discriminate.
Qed.

(** X9: the requests that the webhook does not answer.  At the gate: a
    request is rejected with status 401 when a secret is configured and
    the signature does not verify, with the [TypeError] of a signature
    outside ASCII, and with status 400 when the body is not JSON; without
    a secret no signature is asked for.  A request rejected at the gate
    leaves no trace: the globals are as before and nothing is refreshed.
    Beyond the gate the handler catches nothing: a body that is no
    object ends a [pull_request] or [push] event in an [AttributeError].
    Whatever the exception, the ledger is
    as before; the cache is as before and nothing was refreshed, except
    for the [TypeError] of a number that is a list or an object in an
    event that reports a merge, which is raised after the refresh. *)
Theorem github_webhook_rejection (w : world) (rq : request) (st : state) :
  let r := github_webhook hmac_sha256 w rq st in
  (forall e, check_signature hmac_sha256 w rq = Raises e ->
     res_outcome r = Raises e /\ res_state r = st /\ res_effects r = []
     /\ (e = HTTPException 401 "Invalid webhook signature" \/ e = TypeError))
  /\ (truthy (GITHUB_WEBHOOK_SECRET (w_environ w)) = true ->
      verify_webhook_signature hmac_sha256 (rq_body rq)
        (get_default (rq_signature rq) "")
        (get_default (GITHUB_WEBHOOK_SECRET (w_environ w)) "") = Returns false ->
      res_outcome r = Raises (HTTPException 401 "Invalid webhook signature"))
  /\ (truthy (GITHUB_WEBHOOK_SECRET (w_environ w)) = false ->
      check_signature hmac_sha256 w rq = Returns tt)
  /\ (check_signature hmac_sha256 w rq = Returns tt -> rq_json rq = None ->
      res_outcome r = Raises (HTTPException 400 "Invalid JSON payload")
      /\ res_state r = st /\ res_effects r = [])
  /\ (forall p, check_signature hmac_sha256 w rq = Returns tt -> rq_json rq = Some p ->
      not_an_object p ->
      rq_event rq = Some "pull_request" \/ rq_event rq = Some "push" ->
      res_outcome r = Raises AttributeError)
  /\ (forall e, res_outcome r = Raises e ->
      _submitted_prs (res_state r) = _submitted_prs st
      /\ ((res_state r = st /\ res_effects r = [])
          \/ (e = TypeError
              /\ exists p, rq_json rq = Some p
                           /\ refreshing_event w (get_default (rq_event rq) "") p = true))).
Proof.
  cbv zeta. split; [|split; [|split; [|split; [|split]]]].
  - intros e He. unfold github_webhook. rewrite He. cbn.
    repeat split. unfold check_signature in He.
    destruct (truthy (GITHUB_WEBHOOK_SECRET (w_environ w))); [|discriminate].
    destruct (verify_webhook_signature _ _ _ _) as [[|]|e'] eqn:Hv;
      [discriminate|injection He as <-; now left|injection He as <-].
    right. unfold verify_webhook_signature, compare_digest in Hv.
    destruct (_ || _); [discriminate|].
    destruct (_ && _); [discriminate|]. congruence.
  - unfold github_webhook, check_signature. intros -> ->. reflexivity.
  - unfold check_signature. intros ->. reflexivity.
  - unfold github_webhook. intros -> ->. cbn. auto.
  - unfold github_webhook. intros p -> -> Hp [-> | ->];
      destruct p; first [contradiction | reflexivity].
  - intros e. unfold github_webhook.
    destruct (check_signature hmac_sha256 w rq); [|cbn; auto].
    destruct (rq_json rq) as [p|]; [|cbn; auto].
    intros He. destruct (dispatch_raises w _ p st e He) as [Hl [H|[-> H]]]; eauto 6.
Qed.

(** X10: a request that passes the gate refreshes the cache exactly when
    it reports a closed pull request that was merged or a push to the
    default branch ([KNOWLEDGE_BRANCH], [main] when unset): then one
    refresh, a forced one; otherwise none, and the cache is as before. *)
Theorem github_webhook_refreshes (w : world) (rq : request) (st : state) (p : json) :
  check_signature hmac_sha256 w rq = Returns tt ->
  rq_json rq = Some p ->
  let r := github_webhook hmac_sha256 w rq st in
  if refreshing_event w (get_default (rq_event rq) "") p
  then count_forced_refreshes r = 1%nat /\ count_refreshes r = 1%nat
  else res_effects r = []
       /\ _notes_cache (res_state r) = _notes_cache st
       /\ _cache_timestamp (res_state r) = _cache_timestamp st.
Proof.
  intros Hsig Hjson. cbv zeta. unfold github_webhook. rewrite Hsig, Hjson.
  unfold refreshing_event, closed_and_merged, push_to, dispatch.
  pose proof (refresh_forced_once w st) as (Hf & Hr & _).
  destruct (String.eqb_spec (get_default (rq_event rq) "") "pull_request") as [He|Hne].
  - rewrite He. change (String.eqb "pull_request" "push") with false.
    cbn [andb orb]. rewrite orb_false_r.
    destruct (jget "action" _ p) as [action|]; [|cbn; auto].
    destruct (jget "pull_request" _ p) as [pr|]; [|cbn; auto].
    destruct pr as [| | | | | |entries]; cbn [jget]; try (cbn; auto; fail).
    destruct (jeq_str action "closed"); cbn [andb]; [|cbn; auto].
    destruct (jtruthy _), (ledger_key _) as [key|e];
      cbn [res_state res_effects]; auto.
    split; [reflexivity|]. apply update_tracked_cache.
  - cbn [andb orb].
    destruct (String.eqb (get_default (rq_event rq) "") "push"); [|cbn; auto].
    cbn [andb]. destruct (jget "ref" _ p) as [ref|]; [|cbn; auto].
    destruct (jeq_str ref _); [split; [exact Hf|exact Hr]|cbn; auto].
Qed.

End WebhookMore.

Lemma github_webhook_rejection_witness :
  let r := github_webhook Samples.toy_hmac
             (Samples.world_at 10 Samples.repo_up Samples.open_pull)
             Examples.unhashable_event (Samples.state_with "open") in
  _submitted_prs (res_state r) = _submitted_prs (Samples.state_with "open")
  /\ ((res_state r = Samples.state_with "open" /\ res_effects r = [])
      \/ (TypeError = TypeError
          /\ exists p, rq_json Examples.unhashable_event = Some p
                       /\ refreshing_event
                            (Samples.world_at 10 Samples.repo_up Samples.open_pull)
                            (get_default (rq_event Examples.unhashable_event) "") p
                          = true)).
Proof.
  destruct (github_webhook_rejection Samples.toy_hmac
              (Samples.world_at 10 Samples.repo_up Samples.open_pull)
              Examples.unhashable_event (Samples.state_with "open"))
    as (_ & _ & _ & _ & _ & H).
  apply (H TypeError). reflexivity.
Defined.

Lemma github_webhook_refreshes_witness :
  count_forced_refreshes
    (github_webhook Samples.toy_hmac
       (Samples.world_at 10 Samples.repo_up Samples.open_pull)
       (mk_request None (Some "push") []
          (Some (JObj [("ref", JStr "refs/heads/main")])))
       (Samples.state_with "open")) = 1%nat.
Proof.
  apply (github_webhook_refreshes Samples.toy_hmac
           (Samples.world_at 10 Samples.repo_up Samples.open_pull)
           (mk_request None (Some "push") []
              (Some (JObj [("ref", JStr "refs/heads/main")])))
           (Samples.state_with "open")
           (JObj [("ref", JStr "refs/heads/main")]) eq_refl eq_refl).
Defined.

(** ** The ledger: what webhook events and polls keep *)

Lemma same_submission_refl (r : submitted_pr) : same_submission r r.
Proof. repeat split. Qed.

Lemma same_submission_trans (r1 r2 r3 : submitted_pr) :
  same_submission r1 r2 -> same_submission r2 r3 -> same_submission r1 r3.
Proof. unfold same_submission. intuition congruence. Qed.

Lemma track_status_same (result : pr_status) (r : submitted_pr) :
  same_submission r (track_status result r).
Proof.
  unfold track_status.
  destruct (truthy (st_merged_at result)), (truthy (st_closed_at result));
    repeat split.
Qed.

Lemma update_tracked_keeps (number : option Z) (f : submitted_pr -> submitted_pr)
    (st : state) (n : Z) :
  (forall r, same_submission r (f r)) ->
  match _submitted_prs st !! n with
  | None => _submitted_prs (update_tracked number f st) !! n = None
  | Some r => exists r', _submitted_prs (update_tracked number f st) !! n = Some r'
                         /\ same_submission r r'
  end.
Proof.
  intros Hf. unfold update_tracked.
  destruct number as [k|];
    [|destruct (_submitted_prs st !! n) as [r|]; eauto using same_submission_refl].
  destruct (_submitted_prs st !! k) as [rk|] eqn:Hk;
    [|destruct (_submitted_prs st !! n) as [r|]; eauto using same_submission_refl].
  cbn [with_prs _submitted_prs].
  destruct (decide (k = n)) as [->|Hne].
  - rewrite Hk, lookup_insert_eq. eauto.
  - rewrite lookup_insert_ne by exact Hne.
    destruct (_submitted_prs st !! n) as [r|]; eauto using same_submission_refl.
Qed.

Section LedgerKeeps.

Variable hmac_sha256 : list Byte.byte -> list Byte.byte -> list Byte.byte.

Lemma step_keeps (st : state) (o : operation) (n : Z) :
  match _submitted_prs st !! n with
  | None => _submitted_prs (step hmac_sha256 st o) !! n = None
  | Some r => exists r', _submitted_prs (step hmac_sha256 st o) !! n = Some r'
                         /\ same_submission r r'
  end.
Proof.
  assert (Hid : match _submitted_prs st !! n with
                | None => _submitted_prs st !! n = None
                | Some r => exists r', _submitted_prs st !! n = Some r'
                                       /\ same_submission r r'
                end).
  { destruct (_submitted_prs st !! n) as [r|] eqn:H; eauto using same_submission_refl. }
  destruct o as [w rq|w k]; cbn [step].
  - unfold github_webhook.
    destruct (check_signature hmac_sha256 w rq); [|exact Hid].
    destruct (rq_json rq) as [p|]; [|exact Hid].
    unfold dispatch.
    destruct (String.eqb _ "pull_request").
    + destruct (jget "action" _ p) as [action|]; [|exact Hid].
      destruct (jget "pull_request" _ p) as [pr|]; [|exact Hid].
      destruct (jget "number" _ pr) as [number|]; [|exact Hid].
      destruct (jeq_str action "closed"); [|exact Hid].
      destruct (jget "merged" _ pr) as [merged|]; [|exact Hid].
      destruct (jtruthy merged), (ledger_key number) as [key|e]; cbn [res_state].
      * rewrite <- (refresh_keeps_ledger w true st).
        apply update_tracked_keeps. intros r. repeat split.
      * now rewrite refresh_keeps_ledger.
      * apply update_tracked_keeps. intros r. repeat split.
      * exact Hid.
    + destruct (String.eqb _ "push"); [|exact Hid].
      destruct (jget "ref" _ p) as [ref|]; [|exact Hid].
      destruct (jeq_str ref _); [|exact Hid].
      cbn [res_state]. now rewrite refresh_keeps_ledger.
  - unfold get_pr_status_endpoint.
    destruct (not_given (KNOWLEDGE_REPO (w_environ w))); [exact Hid|].
    destruct (get_pr_status _ _ _) as [s|e]; [|destruct e; exact Hid].
    cbn [res_state _submitted_prs].
    destruct (_submitted_prs st !! k) as [rk|] eqn:Hk; [|exact Hid].
    destruct (decide (k = n)) as [->|Hne].
    + rewrite Hk, lookup_insert_eq. eauto using track_status_same.
    + rewrite lookup_insert_ne by exact Hne. exact Hid.
Qed.

(** X11: webhook events and status polls neither add nor remove a record
    of the ledger, and leave to every record its pull request number, its
    URL, its branch, its contributor, its files and its submission time:
    only the status and the merge and close timestamps move. *)
Theorem ledger_records_kept (ops : list operation) (st : state) (n : Z) :
  match _submitted_prs st !! n with
  | None => _submitted_prs (run hmac_sha256 ops st) !! n = None
  | Some r => exists r', _submitted_prs (run hmac_sha256 ops st) !! n = Some r'
                         /\ same_submission r r'
  end.
Proof.
  revert st. induction ops as [|o ops IH]; intros st.
  - cbn. destruct (_submitted_prs st !! n) as [r|]; eauto using same_submission_refl.
  - unfold run. cbn [fold_left]. fold (run hmac_sha256 ops (step hmac_sha256 st o)).
    pose proof (step_keeps st o n) as Hstep.
    pose proof (IH (step hmac_sha256 st o)) as Hrun.
    destruct (_submitted_prs st !! n) as [r|].
    + destruct Hstep as (r1 & H1 & Hs1). rewrite H1 in Hrun.
      destruct Hrun as (r2 & H2 & Hs2). eauto using same_submission_trans.
    + now rewrite Hstep in Hrun.
Qed.

End LedgerKeeps.

(** X12: a status poll touches no record but the one of the polled pull
    request, and never the cache.  When it fails it changes nothing at
    all, and the failure is a 500 (repository or credentials not
    configured) or a 404 (the remote repository did not answer). *)
Theorem poll_is_local (w : world) (n : Z) (st : state) :
  let r := get_pr_status_endpoint w n st in
  (forall k, k <> n -> _submitted_prs (res_state r) !! k = _submitted_prs st !! k)
  /\ _notes_cache (res_state r) = _notes_cache st
  /\ _cache_timestamp (res_state r) = _cache_timestamp st
  /\ (forall e, res_outcome r = Raises e ->
        res_state r = st
        /\ exists code detail, e = HTTPException code detail
                               /\ (code = 500%Z \/ code = 404%Z))
  /\ (_submitted_prs st !! n = None -> _submitted_prs (res_state r) = _submitted_prs st).
Proof.
  cbv zeta.
  assert (Hfail : forall code detail, code = 500%Z \/ code = 404%Z ->
    let r := mk_result (A := pr_status) (Raises (HTTPException code detail)) st [] in
    (forall k, k <> n -> _submitted_prs (res_state r) !! k = _submitted_prs st !! k)
    /\ _notes_cache (res_state r) = _notes_cache st
    /\ _cache_timestamp (res_state r) = _cache_timestamp st
    /\ (forall e, res_outcome r = Raises e ->
          res_state r = st
          /\ exists code detail, e = HTTPException code detail
                                 /\ (code = 500%Z \/ code = 404%Z))
    /\ (_submitted_prs st !! n = None ->
        _submitted_prs (res_state r) = _submitted_prs st)).
  { intros code detail Hc. cbn.
    split; [auto|]. split; [auto|]. split; [auto|]. split; [|auto].
    intros e' [= <-]. eauto 6. }
  unfold get_pr_status_endpoint.
  destruct (not_given (KNOWLEDGE_REPO (w_environ w))); [apply Hfail; auto|].
  destruct (get_pr_status _ _ _) as [s|e].
  - cbn [res_state res_outcome _submitted_prs _notes_cache _cache_timestamp].
    split; [|split; [reflexivity|split; [reflexivity|split; [discriminate|]]]].
    + intros k Hk. destruct (_submitted_prs st !! n); [|reflexivity].
      now rewrite lookup_insert_ne by congruence.
    + intros ->. reflexivity.
  - destruct e; apply Hfail; auto.
Qed.

Lemma poll_is_local_witness :
  _submitted_prs
    (res_state (get_pr_status_endpoint
                  (Samples.world_at 10 Samples.repo_up Samples.merged_pull) 7
                  (Samples.state_with "open"))) !! 8%Z
  = _submitted_prs (Samples.state_with "open") !! 8%Z.
Proof.
  destruct (poll_is_local (Samples.world_at 10 Samples.repo_up Samples.merged_pull) 7
              (Samples.state_with "open")) as [H _].
  apply (H 8%Z). discriminate.
Defined.

(** ** track_pr, contribute_batch and contribute *)

(** X13: tracking a pull request makes its record an open one, stamped
    with the time of the call and without merge or close time, whatever
    the ledger held for that number before; the other records are left
    alone.  A request without number, or with the number 0, is refused
    with status 400 and changes nothing. *)
Theorem track_pr_resets (w : world) (d : pr_data) (st : state) :
  let r := track_pr w d st in
  (forall n, pd_pr_number d = Some n -> n <> 0%Z ->
     (exists rec,
        _submitted_prs (res_state r) !! n = Some rec
        /\ sp_pr_number rec = n /\ sp_status rec = "open"
        /\ sp_submitted_at rec = w_utcnow w
        /\ sp_merged_at rec = None /\ sp_closed_at rec = None)
     /\ (forall k, k <> n -> _submitted_prs (res_state r) !! k = _submitted_prs st !! k)
     /\ res_outcome r = Returns ("Tracking PR #" ++ str_of_Z n))
  /\ (pd_pr_number d = None \/ pd_pr_number d = Some 0%Z ->
      res_outcome r = Raises (HTTPException 400 "pr_number required")
      /\ res_state r = st).
Proof.
  cbv zeta. unfold track_pr. split.
  - intros n -> Hn. destruct (Z.eqb_spec n 0) as [|_]; [contradiction|].
    cbn [res_state res_outcome with_prs _submitted_prs].
    split; [|split; [|reflexivity]].
    + eexists. rewrite lookup_insert_eq. repeat split.
    + intros k Hk. now rewrite lookup_insert_ne by congruence.
  - intros [-> | ->]; auto.
Qed.

Lemma track_pr_resets_witness :
  exists rec,
    _submitted_prs
      (res_state (track_pr (Samples.world_at 10 Samples.repo_up Samples.open_pull)
                    (mk_pr_data (Some 7%Z) None None None None)
                    (Samples.state_with "merged"))) !! 7%Z = Some rec
    /\ sp_pr_number rec = 7%Z /\ sp_status rec = "open"
    /\ sp_submitted_at rec = "2024-01-01T00:00:00"
    /\ sp_merged_at rec = None /\ sp_closed_at rec = None.
Proof.
  destruct (track_pr_resets (Samples.world_at 10 Samples.repo_up Samples.open_pull)
              (mk_pr_data (Some 7%Z) None None None None) (Samples.state_with "merged"))
    as [H _].
  apply (H 7%Z).
  - reflexivity.
  - discriminate.
Defined.

(** X14: a batch contribution that succeeds records the pull request in
    the ledger as an open record with the resolved email of the
    contributor, the paths of the changes and the branch of the pull
    request, and leaves the other records alone; one that fails is
    answered with status 500 and changes nothing.  The cache is never
    touched.  A single contribution ([contribute]) never changes the
    ledger, also when it succeeds. *)
Theorem contribute_batch_tracks (w : world) (github : option (string -> outcome repo))
    (describe : exn -> string) (timestamp : Z) (src : identity_source)
    (body_changes : list file_change) (pr_title : string) (st : state) :
  let r := fst (contribute_batch w github describe timestamp src body_changes pr_title st) in
  (forall res, res_outcome r = Returns res ->
     (exists rec,
        _submitted_prs (res_state r) !! cr_pr_number res = Some rec
        /\ sp_status rec = "open"
        /\ sp_user_email rec = fst (resolve_identity src)
        /\ sp_files rec = map fc_path body_changes
        /\ sp_branch rec = cr_branch res /\ sp_pr_url rec = cr_pr_url res
        /\ sp_submitted_at rec = w_utcnow w)
     /\ forall k, k <> cr_pr_number res ->
          _submitted_prs (res_state r) !! k = _submitted_prs st !! k)
  /\ (forall e, res_outcome r = Raises e ->
        res_state r = st /\ exists detail, e = HTTPException 500 detail)
  /\ _notes_cache (res_state r) = _notes_cache st
  /\ (forall body,
        res_state (fst (contribute w github describe timestamp src body st)) = st).
Proof.
  cbv zeta. split; [|split; [|split]].
  - unfold contribute_batch.
    destruct (not_given (KNOWLEDGE_REPO (w_environ w))); [discriminate|].
    destruct (resolve_identity src) as [user_email user_name].
    destruct (create_pr_batch _ _ _ _ _ _ _ _) as [[res'|e] calls].
    + cbn [fst res_outcome res_state with_prs _submitted_prs]. intros res [= <-].
      split.
      * eexists. rewrite lookup_insert_eq. split; [reflexivity|].
        cbn [sp_status sp_user_email sp_files sp_branch sp_pr_url sp_submitted_at fst].
        rewrite map_map. repeat split.
      * intros k Hk. now rewrite lookup_insert_ne by congruence.
    + destruct e; discriminate.
  - unfold contribute_batch.
    destruct (not_given (KNOWLEDGE_REPO (w_environ w)));
      [cbn; intros e [= <-]; eauto|].
    destruct (resolve_identity src) as [user_email user_name].
    destruct (create_pr_batch _ _ _ _ _ _ _ _) as [[res'|e'] calls];
      [discriminate|].
    destruct e'; cbn; intros e [= <-]; unfold failed_to_create; eauto.
  - unfold contribute_batch.
    destruct (not_given (KNOWLEDGE_REPO (w_environ w))); [reflexivity|].
    destruct (resolve_identity src) as [user_email user_name].
    destruct (create_pr_batch _ _ _ _ _ _ _ _) as [[res'|e'] calls];
      [reflexivity|destruct e'; reflexivity].
  - intros body. unfold contribute.
    destruct (not_given (KNOWLEDGE_REPO (w_environ w))); [reflexivity|].
    destruct (resolve_identity src) as [user_email user_name].
    destruct (create_pr _ _ _ _ _ _ _ _ _ _) as [[res'|e'] calls];
      [reflexivity|destruct e'; reflexivity].
Qed.

Lemma contribute_batch_tracks_witness :
  let r := fst (contribute_batch (Samples.world_at 10 Samples.repo_up Samples.open_pull)
                  Examples.github_ok (fun _ => "") 5 Examples.jane
                  Examples.two_file_changes "Docs" initial_state) in
  exists rec,
    _submitted_prs (res_state r) !! 8%Z = Some rec
    /\ sp_status rec = "open"
    /\ sp_user_email rec = "jane.doe@example.com"
    /\ sp_files rec = ["intro.md"; "guide.md"].
Proof.
  destruct (contribute_batch_tracks (Samples.world_at 10 Samples.repo_up Samples.open_pull)
              Examples.github_ok (fun _ => "") 5 Examples.jane
              Examples.two_file_changes "Docs" initial_state) as [H _].
  destruct (H (mk_pr_result "https://example/pr/8" 8 (branch_name "Docs" 5) (Some 2%nat))
              eq_refl) as [(rec & Hl & Hs & He & Hf & _) _].
  exists rec. split; [exact Hl|]. split; [exact Hs|]. split; [exact He|exact Hf].
Defined.

(** ** The identity of a contributor *)

Lemma prefix_empty (s : string) : String.prefix "" s = true.
Proof. now destruct s. Qed.

Lemma contains_after (c : ascii) (p e : string) :
  contains (String c "") (p ++ String c e) = true.
Proof.
  unfold contains. generalize 0%nat.
  induction p as [|d p IH]; intros i.
  - rewrite str_app_empty_l. simpl.
    destruct (Ascii.ascii_dec c c); [now rewrite prefix_empty|congruence].
  - rewrite str_app_cons. simpl.
    destruct (Ascii.ascii_dec c d); [now rewrite prefix_empty|apply IH].
Qed.

Lemma contains_none (c : ascii) (s : string) :
  all_chars (fun d => negb (Ascii.eqb d c)) s = true -> contains (String c "") s = false.
Proof.
  unfold contains. generalize 0%nat.
  induction s as [|d s IH]; intros i H; [reflexivity|].
  simpl in H. apply andb_prop in H as [Hd Hs].
  simpl. destruct (Ascii.ascii_dec c d) as [->|_].
  - now rewrite Ascii.eqb_refl in Hd.
  - now apply IH.
Qed.

Lemma split_once_first (c : ascii) (p e : string) :
  all_chars (fun d => negb (Ascii.eqb d c)) p = true ->
  split_once c (p ++ String c e) = [p; e].
Proof.
  intros Hp. unfold split_once.
  assert (H : take_while (fun d => negb (Ascii.eqb d c)) (p ++ String c e) = p
              /\ drop_while (fun d => negb (Ascii.eqb d c)) (p ++ String c e) = String c e).
  { induction p as [|d p IH].
    - rewrite str_app_empty_l. simpl. now rewrite Ascii.eqb_refl.
    - simpl in Hp. apply andb_prop in Hp as [Hd Hp]. rewrite str_app_cons. simpl.
      rewrite Hd. destruct (IH Hp) as [-> ->]. split; reflexivity. }
  destruct H as [-> ->]. reflexivity.
Qed.

Lemma truthy_given (s : string) : s <> "" -> truthy (Some s) = true.
Proof.
  intros H. unfold truthy, not_given.
  destruct (String.eqb_spec s ""); [contradiction|reflexivity].
Qed.

(** X15: who a contribution is attributed to.  A header
    [X-Goog-Authenticated-User-Email] of the form [issuer:email] decides:
    the email is everything after the first colon (also when it is
    empty), the name is derived from it, and the development variables
    are not consulted.  A header without colon is ignored: then
    [DEV_USER_EMAIL], when set and not empty, is the email, with
    [DEV_USER_NAME] as name when that is set and not empty; and with
    neither, the contribution is anonymous. *)
Theorem resolve_identity_precedence (src : identity_source) :
  (forall issuer email,
     iap_header src = Some (issuer ++ ":" ++ email) ->
     no_colon issuer = true ->
     resolve_identity src = (email, name_of_email email))
  /\ (no_colon (get_default (iap_header src) "") = true ->
      (forall e, DEV_USER_EMAIL src = Some e -> e <> "" ->
         fst (resolve_identity src) = e
         /\ (forall n, DEV_USER_NAME src = Some n -> n <> "" ->
               snd (resolve_identity src) = n)
         /\ (not_given (DEV_USER_NAME src) = true ->
               snd (resolve_identity src) = name_of_email e))
      /\ (not_given (DEV_USER_EMAIL src) = true ->
          resolve_identity src
          = ("anonymous@knowledge-agent.local", "Anonymous Contributor"))).
Proof.
  split.
  - intros issuer email Hh Hi. unfold resolve_identity. rewrite Hh.
    cbn [get_default].
    change (issuer ++ ":" ++ email) with (issuer ++ String ":" email).
    rewrite contains_after, (split_once_first ":" issuer email Hi).
    destruct (String.eqb_spec (issuer ++ String ":" email) "") as [E|_].
    + destruct issuer; discriminate E.
    + reflexivity.
  - intros Hh. apply contains_none in Hh.
    unfold resolve_identity. rewrite Hh, andb_false_r. split.
    + intros e He Hne. rewrite He, (truthy_given e Hne). cbn [fst snd get_default].
      split; [reflexivity|]. split.
      * intros n Hn Hne'. now rewrite Hn, (truthy_given n Hne').
      * intros Hn. unfold truthy. now rewrite Hn.
    + intros He. unfold truthy. now rewrite He.
Qed.

Lemma resolve_identity_precedence_witness :
  resolve_identity Examples.jane = ("jane.doe@example.com", "Jane Doe").
Proof.
  destruct (resolve_identity_precedence Examples.jane) as [H _].
  apply (H "accounts.google.com" "jane.doe@example.com"); reflexivity.
Defined.

(** ** Branch names *)

Lemma length_take (n : nat) (s : string) :
  String.length (take n s) = Nat.min n (String.length s).
Proof.
  revert s. induction n as [|n IH]; intros [|c s]; simpl; try reflexivity.
  now rewrite IH.
Qed.

Lemma length_map_chars (f : ascii -> ascii) (s : string) :
  String.length (map_chars f s) = String.length s.
Proof. induction s as [|c s IH]; simpl; [reflexivity|now rewrite IH]. Qed.

Lemma all_chars_take (p : ascii -> bool) (n : nat) (s : string) :
  all_chars p s = true -> all_chars p (take n s) = true.
Proof.
  revert s. induction n as [|n IH]; intros [|c s]; simpl; try reflexivity.
  intros H. apply andb_prop in H as [-> H]. now apply IH.
Qed.

Lemma all_chars_map (p : ascii -> bool) (f : ascii -> ascii) (s : string) :
  (forall c, p (f c) = true) -> all_chars p (map_chars f s) = true.
Proof. intros H. induction s as [|c s IH]; simpl; [reflexivity|now rewrite H]. Qed.

(** X16: the part of a branch name that comes from the title is cut from
    the lower-cased title: it is as long as that, 30 characters at most,
    and holds nothing but letters, digits and hyphens, whatever the title
    is: no space, slash or dot of a title reaches the name of a
    branch. *)
Theorem safe_title_shape (t : string) :
  String.length (safe_title t) = Nat.min 30 (String.length (lower t))
  /\ (String.length (safe_title t) <= 30)%nat
  /\ all_chars branch_char (safe_title t) = true.
Proof.
  unfold safe_title. split; [|split].
  - now rewrite length_take, length_map_chars.
  - rewrite length_take. lia.
  - apply all_chars_take, all_chars_map. intros c. unfold branch_char.
    destruct (isalnum c) eqn:E; [now rewrite E|reflexivity].
Qed.

(** ** create_pr and create_pr_batch *)

(** What [write_file] does, case by case. *)
Lemma write_file_cases (r : repo) (base_branch branch : string) (a : author)
    (file_path content message : string) (is_new : bool) :
  let create := CreateFile file_path message content branch a in
  let created :=
    match create_file r file_path message content branch a with
    | Returns _ => Returns true
    | Raises e => Raises e
    end in
  write_file r base_branch branch a file_path content message is_new
  = if is_new then (created, [create])
    else match get_contents r file_path base_branch with
         | Raises _ => (created, [GetContents file_path base_branch; create])
         | Returns sha =>
             match update_file r file_path message content sha branch a with
             | Returns _ =>
                 (Returns false,
                  [GetContents file_path base_branch;
                   UpdateFile file_path message content sha branch a])
             | Raises _ =>
                 (created,
                  [GetContents file_path base_branch;
                   UpdateFile file_path message content sha branch a; create])
             end
         end.
Proof.
  cbv zeta. unfold write_file, try_except, invoke, mbind, remote_bind, mret, remote_ret.
  destruct is_new.
  - now destruct (create_file r file_path message content branch a).
  - destruct (get_contents r file_path base_branch) as [sha|e].
    + destruct (update_file r file_path message content sha branch a);
        [reflexivity|].
      now destruct (create_file r file_path message content branch a).
    + now destruct (create_file r file_path message content branch a).
Qed.

Lemma write_file_returns (r : repo) (base_branch branch : string) (a : author)
    (c : change) (created : bool) (l : list call) :
  write_file r base_branch branch a (ch_path c) (ch_content c)
    (action_of (default false (ch_is_new c)) ++ " " ++ get_default (ch_title c) (ch_path c))
    (default false (ch_is_new c)) = (Returns created, l) ->
  created = negb (updates r base_branch branch a c)
  /\ List.length (List.filter (written r) l) = 1%nat
  /\ Forall (fun x => is_pull x = false) l.
Proof.
  rewrite write_file_cases. unfold updates. cbv zeta.
  destruct (default false (ch_is_new c)); cbn [negb andb action_of].
  - destruct (create_file _ _ _ _ _ _) eqn:Ec; intros [= <- <-]; cbn [List.filter written].
    rewrite Ec. repeat split; auto.
  - destruct (get_contents _ _ _) as [sha|e].
    + destruct (update_file _ _ _ _ _ _ _) eqn:Eu.
      * intros [= <- <-]. cbn [List.filter written]. rewrite Eu. repeat split; auto.
      * destruct (create_file _ _ _ _ _ _) eqn:Ec; intros [= <- <-].
        cbn [List.filter written]. rewrite Eu, Ec. repeat split; auto.
    + destruct (create_file _ _ _ _ _ _) eqn:Ec; intros [= <- <-].
      cbn [List.filter written]. rewrite Ec. repeat split; auto.
Qed.

Lemma write_file_writes_to (r : repo) (base_branch branch : string) (a : author)
    (file_path content message : string) (is_new : bool) :
  Forall (writes_to branch a)
    (snd (write_file r base_branch branch a file_path content message is_new)).
Proof.
  rewrite write_file_cases. cbv zeta.
  destruct is_new; [cbn; repeat constructor|].
  destruct (get_contents _ _ _); [destruct (update_file _ _ _ _ _ _ _)|];
    cbn; repeat constructor.
Qed.

Lemma bind_snd_Forall {A B : Type} (P : call -> Prop) (m : remote_call A)
    (f : A -> remote_call B) :
  Forall P (snd m) -> (forall x, Forall P (snd (f x))) -> Forall P (snd (m ≫= f)).
Proof.
  intros Hm Hf. destruct m as [[x|e] l]; unfold mbind, remote_bind; [|exact Hm].
  specialize (Hf x). destruct (f x) as [o l']. cbn in *. now apply Forall_app.
Qed.

Lemma bind_returns {A B : Type} (m : remote_call A) (f : A -> remote_call B)
    (b : B) (l : list call) :
  m ≫= f = (Returns b, l) ->
  exists x l1 l2, m = (Returns x, l1) /\ f x = (Returns b, l2) /\ l = List.app l1 l2.
Proof.
  destruct m as [[x|e] l1]; unfold mbind, remote_bind; [|discriminate].
  destruct (f x) as [o l2] eqn:E. intros [= -> <-]. eauto 6.
Qed.

Lemma invoke_returns {A : Type} (c : call) (answer : outcome A) (x : A) (l : list call) :
  invoke c answer = (Returns x, l) -> answer = Returns x /\ l = [c].
Proof. unfold invoke. now intros [= -> <-]. Qed.

Lemma bind_snd {A B : Type} (m : remote_call A) (f : A -> remote_call B) :
  snd (m ≫= f)
  = match fst m with
    | Returns x => List.app (snd m) (snd (f x))
    | Raises _ => snd m
    end.
Proof.
  destruct m as [[x|e] l]; unfold mbind, remote_bind; cbn [fst snd]; [|reflexivity].
  destruct (f x) as [o l']. reflexivity.
Qed.

Lemma write_changes_writes_to (r : repo) (base_branch branch : string) (a : author)
    (changes : list change) :
  forall files_added files_updated,
  Forall (writes_to branch a)
    (snd (write_changes r base_branch branch a changes files_added files_updated)).
Proof.
  induction changes as [|c rest IH]; intros fa fu; [constructor|].
  cbn [write_changes]. apply bind_snd_Forall; [apply write_file_writes_to|].
  intros [|]; apply IH.
Qed.

Lemma write_changes_returns (r : repo) (base_branch branch : string) (a : author)
    (changes : list change) :
  forall files_added files_updated files l,
  write_changes r base_branch branch a changes files_added files_updated
  = (Returns files, l) ->
  fst files
  = List.app files_added (map added_line (added_paths r base_branch branch a changes))
  /\ snd files
     = List.app files_updated
         (map updated_line (updated_paths r base_branch branch a changes))
  /\ List.length (List.filter (written r) l) = List.length changes
  /\ Forall (fun x => is_pull x = false) l.
Proof.
  unfold added_paths, updated_paths.
  induction changes as [|c rest IH]; intros fa fu files l.
  - intros [= <- <-]. cbn. rewrite !app_nil_r. auto.
  - cbn [write_changes].
    destruct (write_file _ _ _ _ _ _ _ _) as [[created|e] l1] eqn:Ew;
      unfold mbind, remote_bind; [|discriminate].
    apply write_file_returns in Ew as (-> & Hone & Hp).
    cbn [List.filter].
    destruct (updates r base_branch branch a c); cbn [negb map];
      destruct (write_changes _ _ _ _ rest _ _) as [o l2] eqn:Er;
      intros [= -> <-]; apply IH in Er as (-> & -> & Hn & Hp2);
      rewrite List.filter_app, List.length_app, Hone, Hn, <- !List.app_assoc;
      repeat split; auto; now apply Forall_app.
Qed.



Lemma open_branch_quiet (r : repo) (base_branch branch : string) :
  Forall (fun c => is_write c = false /\ is_pull c = false)
    (snd (open_branch r base_branch branch)).
Proof.
  unfold open_branch, invoke, mbind, remote_bind.
  destruct (get_branch r base_branch); cbn; repeat constructor.
Qed.

Lemma open_pull_quiet (r : repo) (title body head base : string) (n : option nat) :
  Forall (fun c => is_write c = false) (snd (open_pull r title body head base n)).
Proof.
  unfold open_pull, invoke, mbind, remote_bind, mret, remote_ret.
  destruct (create_pull r title body head base); cbn; repeat constructor.
Qed.

Lemma Forall_weaken (P Q : call -> Prop) (l : list call) :
  (forall c, P c -> Q c) -> Forall P l -> Forall Q l.
Proof. intros H. induction 1; constructor; auto. Qed.

Lemma quiet_writes_to (branch : string) (a : author) (l : list call) :
  Forall (fun c => is_write c = false) l -> Forall (writes_to branch a) l.
Proof. apply Forall_weaken. now intros []. Qed.

(** X18: every write of a contribution goes to the fresh branch
    [kb/...] of that contribution and carries the contributor as
    author, whatever the repository answers and however the
    contribution ends: [create_pr] and [create_pr_batch] never write
    to another branch, and never in another name. *)
Theorem contribution_writes_isolated (github : option (string -> outcome repo))
    (timestamp : Z) (repo_name file_path content title user_name user_email : string)
    (is_new : bool) (target_branch : option string) (changes : list change) :
  Forall (writes_to (branch_name title timestamp) (user_name, user_email))
    (snd (create_pr github timestamp repo_name file_path content title user_name
            user_email is_new target_branch))
  /\ Forall (writes_to (branch_name title timestamp) (user_name, user_email))
       (snd (create_pr_batch github timestamp repo_name changes title user_name
               user_email target_branch)).
Proof.
  unfold create_pr, create_pr_batch.
  destruct github as [get_repo|]; [|split; constructor].
  destruct (get_repo repo_name) as [r|e]; [|split; constructor].
  split.
  - apply bind_snd_Forall.
    + eapply quiet_writes_to, Forall_weaken, open_branch_quiet. now intros c [H _].
    + intros _. apply bind_snd_Forall; [apply write_file_writes_to|].
      intros _. apply quiet_writes_to, open_pull_quiet.
  - apply bind_snd_Forall.
    + eapply quiet_writes_to, Forall_weaken, open_branch_quiet. now intros c [H _].
    + intros _. apply bind_snd_Forall; [apply write_changes_writes_to|].
      intros files. apply quiet_writes_to, open_pull_quiet.
Qed.

Lemma written_is_write (r : repo) (c : call) : is_write c = false -> written r c = false.
Proof. now destruct c. Qed.

Lemma filter_none {A : Type} (p : A -> bool) (l : list A) :
  Forall (fun x => p x = false) l -> List.filter p l = [].
Proof.
  induction 1 as [|x l Hx _ IH]; [reflexivity|]. cbn. now rewrite Hx.
Qed.

Lemma existsb_none {A : Type} (p : A -> bool) (l : list A) :
  Forall (fun x => p x = false) l -> existsb p l = false.
Proof.
  induction 1 as [|x l Hx _ IH]; [reflexivity|]. cbn. now rewrite Hx.
Qed.

Lemma write_changes_no_pull (r : repo) (base_branch branch : string) (a : author)
    (changes : list change) :
  forall files_added files_updated,
  Forall (fun c => is_pull c = false)
    (snd (write_changes r base_branch branch a changes files_added files_updated)).
Proof.
  induction changes as [|c rest IH]; intros fa fu; [constructor|].
  cbn [write_changes]. apply bind_snd_Forall; [|intros [|]; apply IH].
  rewrite write_file_cases. cbv zeta.
  destruct (default false (ch_is_new c)); [cbn; repeat constructor|].
  destruct (get_contents _ _ _); [destruct (update_file _ _ _ _ _ _ _)|];
    cbn; repeat constructor.
Qed.

(** X19: the order of a batch contribution.  No file is written and no
    pull request is opened unless the branch could be created: when the
    base branch cannot be read, or the new branch cannot be created,
    [create_pr_batch] raises that error having done neither.  And a
    pull request is asked for only after every change has been written:
    among the calls, those that wrote a file are then as many as the
    changes, one for each. *)
Theorem create_pr_batch_order (get_repo : string -> outcome repo) (r : repo)
    (timestamp : Z) (repo_name : string) (changes : list change)
    (pr_title user_name user_email : string) (target_branch : option string) :
  get_repo repo_name = Returns r ->
  let branch := branch_name pr_title timestamp in
  let base := base_of r target_branch in
  let run := create_pr_batch (Some get_repo) timestamp repo_name changes pr_title
               user_name user_email target_branch in
  (forall e,
     get_branch r base = Raises e
     \/ (exists sha, get_branch r base = Returns sha
                     /\ create_git_ref r ("refs/heads/" ++ branch) sha = Raises e) ->
     fst run = Raises e
     /\ existsb is_write (snd run) = false /\ existsb is_pull (snd run) = false)
  /\ (existsb is_pull (snd run) = true ->
      List.length (List.filter (written r) (snd run)) = List.length changes).
Proof.
  intros Hr. cbv zeta. unfold create_pr_batch. rewrite Hr. split.
  - intros e He.
    assert (Hob : exists l, open_branch r (base_of r target_branch)
                              (branch_name pr_title timestamp) = (Raises e, l)
                            /\ existsb is_write l = false /\ existsb is_pull l = false).
    { unfold open_branch, invoke, mbind, remote_bind.
      destruct He as [He|(sha & Hs & He)]; [rewrite He|rewrite Hs, He]; eauto. }
    destruct Hob as (l & -> & Hw & Hp). unfold mbind, remote_bind. cbn [fst snd]. auto.
  - pose proof (open_branch_quiet r (base_of r target_branch)
                  (branch_name pr_title timestamp)) as Hq.
    rewrite bind_snd.
    destruct (open_branch _ _ _) as [[[]|e] l1]; cbn [fst snd] in Hq |- *.
    2:{ rewrite existsb_none; [discriminate|].
        eapply Forall_weaken, Hq. now intros c [_ H]. }
    pose proof (write_changes_no_pull r (base_of r target_branch)
                  (branch_name pr_title timestamp) (user_name, user_email) changes [] [])
      as Hn.
    rewrite bind_snd.
    destruct (write_changes _ _ _ _ _ _ _) as [[files|e] l2] eqn:Ew;
      cbn [fst snd] in Hn |- *.
    2:{ rewrite existsb_app, !existsb_none; [discriminate|exact Hn|].
        eapply Forall_weaken, Hq. now intros c [_ H]. }
    apply write_changes_returns in Ew as (_ & _ & Hlen & _).
    pose proof (open_pull_quiet r pr_title
                  (batch_body user_name user_email (fst files) (snd files))
                  (branch_name pr_title timestamp) (base_of r target_branch)
                  (Some (List.length changes))) as Hp.
    destruct (open_pull _ _ _ _ _ _) as [o l3]. cbn [snd] in Hp |- *. intros _.
    rewrite !List.filter_app, !List.length_app, Hlen.
    rewrite (filter_none (written r) l1), (filter_none (written r) l3); [cbn; lia| |].
    + eapply Forall_weaken, Hp. intros c. apply written_is_write.
    + eapply Forall_weaken, Hq. intros c [H _]. now apply written_is_write.
Qed.

Lemma create_pr_batch_order_witness :
  List.length
    (List.filter (written Examples.repo_ok)
       (snd (create_pr_batch Examples.github_ok 5 "org/kb" Examples.two_changes "Docs"
               "Jane" "jane@example.com" None))) = 2%nat.
Proof.
  destruct (create_pr_batch_order (fun _ => Returns Examples.repo_ok) Examples.repo_ok 5
              "org/kb" Examples.two_changes "Docs" "Jane" "jane@example.com" None eq_refl)
    as [_ H].
  apply H. reflexivity.
Defined.

(** X20: a single contribution writes exactly one file, and says
    [Update] also when it created it.  When [create_pr] returns, one call
    wrote a file.  It is the update of the file, with the hash that was
    read, when the contribution was not marked new and the file could be
    read and updated; in every other case it is the creation of the file,
    whose commit message is still [Update <title>] for a contribution
    that was not marked new.  The pull request, the last call, is titled
    after the same action and goes from the fresh branch to the base; the
    result names the branch and has no [files_changed]. *)
Theorem create_pr_writes_once (get_repo : string -> outcome repo) (r : repo)
    (timestamp : Z) (repo_name file_path content title user_name user_email : string)
    (is_new : bool) (target_branch : option string) (res : pr_result)
    (calls : list call) :
  get_repo repo_name = Returns r ->
  create_pr (Some get_repo) timestamp repo_name file_path content title user_name
    user_email is_new target_branch = (Returns res, calls) ->
  let branch := branch_name title timestamp in
  let base := base_of r target_branch in
  let a := (user_name, user_email) in
  let action := action_of is_new in
  let message := action ++ " " ++ title in
  let change := mk_change file_path content (Some title) (Some is_new) in
  (updates r base branch a change = true ->
     exists sha,
       get_contents r file_path base = Returns sha
       /\ List.filter (written r) calls
          = [UpdateFile file_path message content sha branch a])
  /\ (updates r base branch a change = false ->
      List.filter (written r) calls = [CreateFile file_path message content branch a])
  /\ List.last calls (GetBranch "")
     = CreatePull (action ++ ": " ++ title)
         (single_body title file_path action user_name user_email) branch base
  /\ cr_branch res = branch /\ cr_files_changed res = None.
Proof.
  intros Hr. cbv zeta. unfold create_pr. rewrite Hr. intros H.
  pose proof (open_branch_quiet r (base_of r target_branch) (branch_name title timestamp))
    as Hq.
  apply bind_returns in H as ([] & l1 & l' & Hb & H & ->). rewrite Hb in Hq.
  cbn [snd] in Hq.
  apply bind_returns in H as (created & l2 & l3 & Hw & H & ->).
  unfold open_pull in H.
  apply bind_returns in H as ([url number] & l4 & l5 & Hp & H & ->).
  apply invoke_returns in Hp as [Hp ->]. injection H as <- <-.
  cbn [cr_branch cr_files_changed].
  assert (Hf : List.filter (written r)
                 (List.app l1 (List.app l2 (List.app [CreatePull (action_of is_new ++ ": " ++ title)
                    (single_body title file_path (action_of is_new) user_name user_email)
                    (branch_name title timestamp) (base_of r target_branch)] [])))
               = List.filter (written r) l2).
  { rewrite !List.filter_app, (filter_none (written r) l1).
    - cbn [List.app List.filter written]. now rewrite app_nil_r.
    - eapply Forall_weaken, Hq. intros c [Hc _]. now apply written_is_write. }
  rewrite Hf. clear Hf.
  rewrite write_file_cases in Hw. cbv zeta in Hw.
  unfold updates. cbn [ch_path ch_content ch_title ch_is_new default get_default].
  split; [|split; [|split; [|split; reflexivity]]].
  - destruct is_new; cbn [negb andb action_of] in Hw |- *; [discriminate|].
    destruct (get_contents _ _ _) as [sha|e] eqn:Eg; [|discriminate].
    destruct (update_file _ _ _ _ _ _ _) eqn:Eu; [|discriminate].
    intros _. exists sha. split; [reflexivity|].
    inversion Hw; subst. cbn [List.filter written]. now rewrite Eu.
  - destruct is_new; cbn [negb andb action_of] in Hw |- *.
    + intros _.
      destruct (create_file _ _ _ _ _ _) eqn:Ec; inversion Hw; subst.
      cbn [List.filter written]. now rewrite Ec.
    + destruct (get_contents _ _ _) as [sha|e] eqn:Eg.
      * destruct (update_file _ _ _ _ _ _ _) eqn:Eu; [discriminate|]. intros _.
        destruct (create_file _ _ _ _ _ _) eqn:Ec; inversion Hw; subst.
        cbn [List.filter written]. now rewrite Eu, Ec.
      * intros _.
        destruct (create_file _ _ _ _ _ _) eqn:Ec; inversion Hw; subst.
        cbn [List.filter written]. now rewrite Ec.
  - rewrite app_nil_r, !app_assoc. apply last_last.
Qed.

Lemma create_pr_writes_once_witness :
  List.filter (written Examples.repo_ok)
    (snd (create_pr Examples.github_ok 5 "org/kb" "guide.md" "# Guide" "Guide" "Jane"
            "jane@example.com" false None))
  = [UpdateFile "guide.md" "Update Guide" "# Guide" "abc123" "kb/guide-5"
       ("Jane", "jane@example.com")]
  /\ List.filter (written Examples.repo_ok)
       (snd (create_pr Examples.github_ok 5 "org/kb" "new.md" "# New" "New" "Jane"
               "jane@example.com" false None))
     = [CreateFile "new.md" "Update New" "# New" "kb/new-5" ("Jane", "jane@example.com")].
Proof.
  split.
  - destruct (create_pr_writes_once (fun _ => Returns Examples.repo_ok) Examples.repo_ok 5
                "org/kb" "guide.md" "# Guide" "Guide" "Jane" "jane@example.com" false None
                (mk_pr_result "https://example/pr/8" 8 "kb/guide-5" None)
                (snd (create_pr Examples.github_ok 5 "org/kb" "guide.md" "# Guide" "Guide"
                        "Jane" "jane@example.com" false None))
                eq_refl eq_refl) as (H & _).
    destruct (H eq_refl) as (sha & Hs & Hw). injection Hs as <-. exact Hw.
  - destruct (create_pr_writes_once (fun _ => Returns Examples.repo_ok) Examples.repo_ok 5
                "org/kb" "new.md" "# New" "New" "Jane" "jane@example.com" false None
                (mk_pr_result "https://example/pr/8" 8 "kb/new-5" None)
                (snd (create_pr Examples.github_ok 5 "org/kb" "new.md" "# New" "New" "Jane"
                        "jane@example.com" false None))
                eq_refl eq_refl) as (_ & H & _).
    exact (H eq_refl).
Defined.

(** ** get_note *)

Lemma rev_app (s t : string) : rev (s ++ t) = rev t ++ rev s.
Proof.
  induction s as [|c s IH].
  - rewrite str_app_empty_l. symmetry. apply str_app_empty_r.
  - rewrite str_app_cons, !rev_cons, IH. apply str_app_assoc.
Qed.

Lemma rev_involutive (s : string) : rev (rev s) = s.
Proof.
  induction s as [|c s IH]; [reflexivity|].
  now rewrite rev_cons, rev_snoc, IH.
Qed.

Lemma prefix_inv (a b : string) : String.prefix a b = true -> exists c, b = a ++ c.
Proof.
  revert b. induction a as [|x a IH]; intros b H.
  - exists b. now rewrite str_app_empty_l.
  - destruct b as [|y b]; [discriminate|]. simpl in H.
    destruct (ascii_dec x y) as [->|]; [|discriminate].
    destruct (IH b H) as [c ->]. exists c. now rewrite str_app_cons.
Qed.

Lemma endswith_inv (p s : string) : endswith p s = true -> exists t, s = t ++ p.
Proof.
  unfold endswith. intros H. apply prefix_inv in H as [c H].
  exists (rev c). rewrite <- (rev_involutive s), H, rev_app.
  now rewrite rev_involutive.
Qed.

Lemma find_from_prefix (i : nat) (p s : string) :
  String.prefix p s = true -> find_from i p s = Some i.
Proof. intros H. destruct s; cbn [find_from]; now rewrite H. Qed.

Lemma contains_inside (p t u : string) : contains p (t ++ p ++ u) = true.
Proof.
  unfold contains. generalize 0%nat.
  induction t as [|d t IH]; intros i.
  - rewrite str_app_empty_l, find_from_prefix; [reflexivity|apply prefix_app].
  - rewrite str_app_cons. cbn [find_from].
    destruct (String.prefix p (String d (t ++ p ++ u))); [reflexivity|apply IH].
Qed.

(** A path that ends with the requested text contains it: the second
    test of the partial match never decides. *)
Lemma endswith_contains (p s : string) : endswith p s = true -> contains p s = true.
Proof.
  intros H. apply endswith_inv in H as [t ->].
  rewrite <- (str_app_empty_r p) at 2. apply contains_inside.
Qed.

Lemma partial_match_contains (note_path : string) (kv : string * note_data) :
  partial_match note_path kv = contains note_path (fst kv).
Proof.
  unfold partial_match. destruct (contains note_path (fst kv)) eqn:E; [reflexivity|].
  destruct (endswith note_path (fst kv)) eqn:E'; [|reflexivity].
  apply endswith_contains in E'. congruence.
Qed.

Lemma find_first {A : Type} (p : A -> bool) (before after : list A) (x : A) :
  (forall y, In y before -> p y = false) -> p x = true ->
  List.find p (List.app before (x :: after)) = Some x.
Proof.
  intros Hb Hx. induction before as [|y before IH]; cbn.
  - now rewrite Hx.
  - rewrite (Hb y) by now left. apply IH. intros z Hz. apply Hb. now right.
Qed.

Lemma find_nothing {A : Type} (p : A -> bool) (l : list A) :
  (forall y, In y l -> p y = false) -> List.find p l = None.
Proof.
  intros H. induction l as [|y l IH]; [reflexivity|]. cbn.
  rewrite (H y) by now left. apply IH. intros z Hz. apply H. now right.
Qed.

Lemma contains_self (s : string) : contains s s = true.
Proof.
  unfold contains. rewrite find_from_prefix; [reflexivity|].
  rewrite <- (str_app_empty_r s) at 2. apply prefix_app.
Qed.

Lemma dict_get_In {V : Type} (key : string) (d : list (string * V)) (v : V) :
  dict_get key d = Some v -> In (key, v) d.
Proof.
  induction d as [|[k w] d IH]; [discriminate|]. cbn [dict_get].
  destruct (String.eqb_spec k key) as [->|_].
  - intros [= ->]. now left.
  - intros H. right. now apply IH.
Qed.

(** X21: which note [get_note] returns.  A path that is a key of the
    store returns that note, also when the path of an earlier note
    contains it.  A text that is no key returns the first note, in the
    order of the store, whose path contains it: so the empty text
    returns the first note of the store.  When no path contains the
    text, the answer names the first five paths of the store at most. *)
Theorem get_note_finds (note_path : string) (notes : list (string * note_data)) :
  (forall nd, dict_get note_path notes = Some nd ->
     get_note note_path (Some notes) = render_note note_path nd)
  /\ (dict_get note_path notes = None ->
      forall before path nd after,
        notes = List.app before ((path, nd) :: after) ->
        contains note_path path = true ->
        (forall kv, In kv before -> contains note_path (fst kv) = false) ->
        get_note note_path (Some notes) = render_note path nd)
  /\ (forall kv rest, notes = kv :: rest -> dict_get "" notes = None ->
        get_note "" (Some notes) = render_note (fst kv) (snd kv))
  /\ (notes <> [] ->
      (forall kv, In kv notes -> contains note_path (fst kv) = false) ->
      get_note note_path (Some notes)
      = note_not_found note_path (firstn 5 (map fst notes))).
Proof.
  assert (Hpartial : dict_get note_path notes = None ->
      forall before path nd after,
        notes = List.app before ((path, nd) :: after) ->
        contains note_path path = true ->
        (forall kv, In kv before -> contains note_path (fst kv) = false) ->
        get_note note_path (Some notes) = render_note path nd).
  { intros Hk before path nd after -> Hc Hb. unfold get_note. cbn [state_notes].
    rewrite Hk, (find_first (partial_match note_path) before after (path, nd)).
    - now destruct before.
    - intros kv Hin. rewrite partial_match_contains. now apply Hb.
    - now rewrite partial_match_contains. }
  split; [|split; [exact Hpartial|split]].
  - intros nd Hk. unfold get_note. cbn [state_notes]. rewrite Hk.
    destruct notes; [discriminate|reflexivity].
  - intros [path nd] rest -> Hk. unfold get_note. cbn [state_notes]. rewrite Hk.
    cbn [List.find]. rewrite partial_match_contains. cbn [fst snd].
    unfold contains. now rewrite (find_from_prefix 0 "" path (prefix_empty path)).
  - intros Hne Hnone. unfold get_note. cbn [state_notes].
    destruct (dict_get note_path notes) as [nd|] eqn:Hk.
    + exfalso. apply dict_get_In in Hk. specialize (Hnone _ Hk). cbn [fst] in Hnone.
      now rewrite contains_self in Hnone.
    + rewrite find_nothing.
      * destruct notes; [contradiction|reflexivity].
      * intros kv Hin. rewrite partial_match_contains. now apply Hnone.
Qed.

Lemma get_note_finds_witness :
  get_note "b.md" (Some Examples.two_notes) = render_note "docs/b.md" Examples.beta.
Proof.
  destruct (get_note_finds "b.md" Examples.two_notes) as (_ & H & _).
  apply (H eq_refl [("a.md", Samples.alpha)] "docs/b.md" Examples.beta []).
  - reflexivity.
  - reflexivity.
  - intros kv [<-|[]]. reflexivity.
Defined.

(** ** surface_note *)

Lemma surface_note_step (path : string) (highlight_text section_title : option string)
    (st : tool_state) :
  exists st',
    snd (surface_note path highlight_text section_title (Some st)) = Some st'
    /\ ts_notes st' = ts_notes st
    /\ requests (Some st')
       = List.app (requests (Some st))
           (match surface_event_of (state_notes (ts_notes st))
                    (path, highlight_text, section_title) with
            | Some e => [e]
            | None => []
            end).
Proof.
  unfold surface_note, surface_event_of. cbn [fst snd].
  destruct (dict_get path (state_notes (ts_notes st))) as [note|].
  - eexists. cbn [snd]. split; [reflexivity|]. split; reflexivity.
  - exists st. cbn [snd]. split; [reflexivity|]. split; [reflexivity|].
    now rewrite app_nil_r.
Qed.

(** X22: what a session remembers of the notes that were surfaced.
    After any series of calls of [surface_note] on one session, the
    surface requests of the session are those it had before, followed,
    in the order of the calls, by one request for each call whose path
    is a key of the notes and none for the others; the notes of the
    session are as they were. *)
Theorem surface_requests_recorded (calls : list (string * option string * option string))
    (st : tool_state) :
  exists st',
    surface_all calls (Some st) = Some st'
    /\ ts_notes st' = ts_notes st
    /\ requests (Some st')
       = List.app (requests (Some st))
           (omap (surface_event_of (state_notes (ts_notes st))) calls).
Proof.
  revert st. induction calls as [|[[path hl] sec] calls IH]; intros st.
  - exists st. cbn. now rewrite app_nil_r.
  - unfold surface_all. cbn [fold_left fst snd].
    destruct (surface_note_step path hl sec st) as (st1 & -> & Hn & Hr).
    destruct (IH st1) as (st' & Hs & Hn' & Hr').
    exists st'. split; [exact Hs|]. split; [congruence|].
    rewrite Hr', Hr, Hn, <- List.app_assoc. f_equal. cbn [omap list_omap].
    now destruct (surface_event_of _ _).
Qed.

(** ** search_knowledge *)

Lemma contains_empty (s : string) : contains "" s = true.
Proof. unfold contains. destruct s; reflexivity. Qed.

(** X23: the search does not tell upper case from lower case in the
    query.  Two queries that are equal once lower-cased find the same
    notes, in the same order; when they are of the same length too, the
    snippets are the same.  And the empty query finds every note of the
    store. *)
Theorem search_ignores_case (q q' : string) (notes : list (string * note_data)) :
  (lower q = lower q' ->
     map m_path (search_matches q notes) = map m_path (search_matches q' notes)
     /\ map m_title (search_matches q notes) = map m_title (search_matches q' notes)
     /\ (String.length q = String.length q' ->
         search_matches q notes = search_matches q' notes))
  /\ map m_path (search_matches "" notes) = map fst notes.
Proof.
  split.
  - intros H. unfold search_matches.
    assert (Hm : forall kv,
      match_note q' kv
      = option_map (fun m => mk_match (m_path m) (m_title m)
                               (strip (snippet_of q' (get_default (nd_content (snd kv)) ""))))
          (match_note q kv)).
    { intros kv. unfold match_note. cbv zeta. rewrite H.
      now destruct (_ || _). }
    split; [|split].
    + induction notes as [|kv notes IH]; [reflexivity|].
      cbn [omap list_omap]. rewrite (Hm kv).
      destruct (match_note q kv); cbn [option_map map m_path]; now rewrite IH.
    + induction notes as [|kv notes IH]; [reflexivity|].
      cbn [omap list_omap]. rewrite (Hm kv).
      destruct (match_note q kv); cbn [option_map map m_title]; now rewrite IH.
    + intros Hl.
      assert (Hs : forall content, snippet_of q' content = snippet_of q content).
      { intros content. unfold snippet_of, len. cbv zeta. now rewrite H, Hl. }
      induction notes as [|kv notes IH]; [reflexivity|].
      cbn [omap list_omap]. rewrite (Hm kv), Hs, IH.
      unfold match_note. cbv zeta. now destruct (_ || _).
  - unfold search_matches. induction notes as [|kv notes IH]; [reflexivity|].
    cbn [omap list_omap]. unfold match_note at 1. cbv zeta.
    change (lower "") with "". rewrite contains_empty. cbn [orb mbind option_bind].
    cbn [map m_path]. cbn [map] in IH. now rewrite IH.
Qed.

Lemma search_ignores_case_witness :
  search_matches "ALPHA" Examples.two_notes = search_matches "alpha" Examples.two_notes.
Proof.
  destruct (search_ignores_case "ALPHA" "alpha" Examples.two_notes) as [H _].
  destruct (H eq_refl) as (_ & _ & Hs). apply Hs. reflexivity.
Defined.

Lemma length_rev (s : string) : String.length (rev s) = String.length s.
Proof.
  induction s as [|c s IH]; [reflexivity|].
  rewrite rev_cons, str_length_app, IH. simpl. lia.
Qed.

Lemma length_drop_while (p : ascii -> bool) (s : string) :
  (String.length (drop_while p s) <= String.length s)%nat.
Proof.
  induction s as [|c s IH]; [reflexivity|]. simpl. destruct (p c); simpl; lia.
Qed.

Lemma length_strip (s : string) : (String.length (strip s) <= String.length s)%nat.
Proof.
  unfold strip, strip_with, rstrip_with. rewrite length_rev.
  etransitivity; [apply length_drop_while|]. rewrite length_rev.
  apply length_drop_while.
Qed.

(** X24: a snippet is short whatever the note: it has at most 206
    characters more than the query (a hundred of context on each side
    of the match and two ellipses), and at most 203 characters when the
    query is not found in the content. *)
Theorem snippet_bounded (query content : string) :
  (String.length (strip (snippet_of query content)) <= String.length query + 206)%nat
  /\ (find (lower query) (lower content) = (-1)%Z ->
      (String.length (strip (snippet_of query content)) <= 203)%nat).
Proof.
  assert (H203 : (String.length
                    (if (200 <? len content)%Z then take 200 content ++ "..." else content)
                  <= 203)%nat).
  { destruct (Z.ltb_spec 200 (len content)) as [Hl|Hl].
    - rewrite str_length_app, length_take.
      change (String.length "...") with 3%nat. lia.
    - unfold len in Hl. lia. }
  split.
  - etransitivity; [apply length_strip|]. unfold snippet_of. cbv zeta.
    destruct (Z.eqb_spec (find (lower query) (lower content)) (-1)) as [_|_];
      cbn [negb].
    + etransitivity; [apply H203|lia].
    + set (pos := find (lower query) (lower content)).
      set (start := Z.max 0 (pos - 100)).
      set (end_ := Z.min (len content) (pos + len query + 100)).
      assert (Hs : (String.length (slice start end_ content)
                    <= String.length query + 200)%nat).
      { unfold slice. rewrite length_take. unfold start, end_, len. lia. }
      destruct (0 <? start)%Z, (end_ <? len content)%Z;
        rewrite ?str_length_app; change (String.length "...") with 3%nat; lia.
  - intros Hf. etransitivity; [apply length_strip|]. unfold snippet_of. cbv zeta.
    rewrite Hf. cbn [Z.eqb negb]. apply H203.
Qed.

Lemma snippet_bounded_witness :
  (String.length (strip (snippet_of "zebra" "hello world")) <= 203)%nat.
Proof.
  destruct (snippet_bounded "zebra" "hello world") as [_ H]. apply H. reflexivity.
Defined.

(** ** The three derivations of a title *)

Lemma split_char_first (c : ascii) (s : string) :
  exists rest, split_char c s = first_item (split_char c s) :: rest.
Proof.
  destruct (split_char c s) as [|w ws] eqn:E; [|eauto].
  destruct s as [|d s]; [discriminate|]. simpl in E.
  destruct (Ascii.eqb d c); [discriminate|]. destruct (split_char c s); discriminate.
Qed.

(** X25: the backend, the drafting tool and the clustering script
    derive the title of a note with three pieces of code.  On a
    content whose first line is a heading [# h], [h] having text, they
    agree: each takes [h] stripped, whatever name the file has. *)
Theorem titles_agree (h tail filename stem : string) :
  one_line h -> strip h <> "" -> line_end tail ->
  let content := "# " ++ h ++ tail in
  extract_title_from_content content filename = strip h
  /\ derive_title content = strip h
  /\ local_title stem content = strip h.
Proof.
  intros Hh Hne Ht. cbv zeta. split; [|split].
  - apply (extract_title_heading_line "" h tail filename); auto. reflexivity.
  - apply (derive_title_heading_line "" h tail); auto. reflexivity.
  - unfold local_title.
    destruct (split_char_first "010" ("# " ++ h ++ tail)) as [rest ->].
    rewrite first_line_take_while.
    assert (Hx : one_line ("# " ++ h)).
    { unfold one_line in *. change ("# " ++ h) with (String "#" (String " " h)).
      simpl. now rewrite Hh. }
    rewrite <- (str_app_assoc "# " h tail), (take_while_line_end _ _ Hx Ht).
    cbn [List.find]. unfold startswith. rewrite prefix_app.
    change (drop 2 ("# " ++ h)) with (drop (String.length "# ") ("# " ++ h)).
    now rewrite drop_prefix.
Qed.

Lemma titles_agree_witness :
  extract_title_from_content ("# " ++ "Feature Flags" ++ nl ++ "How we ship.") "x.md"
  = strip "Feature Flags"
  /\ derive_title ("# " ++ "Feature Flags" ++ nl ++ "How we ship.") = strip "Feature Flags"
  /\ local_title "x" ("# " ++ "Feature Flags" ++ nl ++ "How we ship.")
     = strip "Feature Flags".
Proof.
  apply (titles_agree "Feature Flags" (nl ++ "How we ship.") "x.md" "x").
  - reflexivity.
  - discriminate.
  - right. exists "How we ship.". reflexivity.
Defined.

(** ** list_notes: the listing as a partition of the store *)

Lemma insert_by_perm {A : Type} (key : A -> string) (x : A) (l : list A) :
  Permutation (insert_by key x l) (x :: l).
Proof.
  induction l as [|y l IH]; cbn [insert_by]; [reflexivity|].
  destruct (str_leb (key x) (key y)); [reflexivity|].
  rewrite IH. apply perm_swap.
Qed.

Lemma sorted_by_perm {A : Type} (key : A -> string) (l : list A) :
  Permutation (sorted_by key l) l.
Proof.
  induction l as [|x l IH]; cbn [sorted_by]; [reflexivity|].
  now rewrite insert_by_perm, IH.
Qed.

Lemma str_leb_false (a b : string) : str_leb a b = false -> str_leb b a = true.
Proof.
  unfold str_leb. intros H. destruct (String.leb_total a b) as [H'|H']; congruence.
Qed.

Lemma insert_by_sorted {A : Type} (key : A -> string) (x : A) (l : list A) :
  Sorted (fun a b => str_leb (key a) (key b) = true) l ->
  Sorted (fun a b => str_leb (key a) (key b) = true) (insert_by key x l).
Proof.
  induction l as [|y l IH]; intros Hs; cbn [insert_by].
  - repeat constructor.
  - destruct (str_leb (key x) (key y)) eqn:E.
    + constructor; [exact Hs|]. now constructor.
    + apply Sorted_inv in Hs as [Hs Hd]. constructor; [now apply IH|].
      destruct l as [|z l]; cbn [insert_by].
      * constructor. now apply str_leb_false.
      * destruct (str_leb (key x) (key z)).
        -- constructor. now apply str_leb_false.
        -- constructor. now apply HdRel_inv in Hd.
Qed.

Lemma sorted_by_sorted {A : Type} (key : A -> string) (l : list A) :
  Sorted (fun a b => str_leb (key a) (key b) = true) (sorted_by key l).
Proof.
  induction l as [|x l IH]; cbn [sorted_by]; [constructor|].
  now apply insert_by_sorted.
Qed.

Lemma Sorted_map_key {A : Type} (key : A -> string) (l : list A) :
  Sorted (fun a b => str_leb (key a) (key b) = true) l ->
  Sorted topic_le (map key l).
Proof.
  induction 1 as [|x l Hs IH Hd]; cbn [map]; constructor; [exact IH|].
  destruct Hd; cbn [map]; now constructor.
Qed.

Lemma topic_append_keys (topic : string) (e : entry) (g : list (string * list entry)) :
  map fst (topic_append topic e g)
  = if dict_mem topic g then map fst g else List.app (map fst g) [topic].
Proof.
  unfold dict_mem. induction g as [|[k es] g IH]; cbn; [reflexivity|].
  destruct (String.eqb_spec k topic) as [->|Hne]; cbn; [reflexivity|].
  rewrite IH. now destruct (existsb _ g).
Qed.

Lemma topic_append_NoDup (topic : string) (e : entry) (g : list (string * list entry)) :
  NoDup (map fst g) -> NoDup (map fst (topic_append topic e g)).
Proof.
  intros Hd. rewrite topic_append_keys.
  destruct (dict_mem topic g) eqn:Hm; [exact Hd|].
  apply (proj2 (NoDup_app (map fst g) [topic])). split; [exact Hd|]. split.
  - intros k Hk Hk'. apply list_elem_of_In in Hk, Hk'.
    destruct Hk' as [<-|[]]. apply dict_mem_keys in Hk. congruence.
  - apply NoDup_singleton.
Qed.

Lemma topic_append_concat (topic : string) (e : entry) (g : list (string * list entry)) :
  Permutation (concat (map snd (topic_append topic e g))) (e :: concat (map snd g)).
Proof.
  induction g as [|[k es] g IH]; cbn [topic_append map concat snd]; [reflexivity|].
  destruct (String.eqb k topic); cbn [map concat snd].
  - rewrite <- List.app_assoc. symmetry. apply Permutation_middle.
  - rewrite IH. symmetry. apply Permutation_middle.
Qed.

Lemma topic_append_In (topic : string) (e : entry) (g : list (string * list entry))
    (k : string) (es : list entry) (x : entry) :
  In (k, es) (topic_append topic e g) -> In x es ->
  (k = topic /\ x = e) \/ exists es0, In (k, es0) g /\ In x es0.
Proof.
  induction g as [|[k0 es0] g IH]; cbn [topic_append].
  - intros [[= <- <-]|[]] [<-|[]]. now left.
  - destruct (String.eqb_spec k0 topic) as [->|Hne].
    + intros [[= <- <-]|Hin] Hx.
      * apply in_app_or in Hx as [Hx|[<-|[]]]; [|now left].
        right. exists es0. split; [now left|exact Hx].
      * right. exists es. split; [now right|exact Hx].
    + intros [[= <- <-]|Hin] Hx.
      * right. exists es0. split; [now left|exact Hx].
      * destruct (IH Hin Hx) as [?|(es1 & H1 & H2)]; [now left|].
        right. exists es1. split; [now right|exact H2].
Qed.

Lemma group_notes_invariant (notes : list (string * note_data)) :
  forall acc,
  let g := fold_left
             (fun by_topic kv =>
                topic_append (path_topic (fst kv)) (note_entry kv) by_topic)
             notes acc in
  Permutation (concat (map snd g)) (List.app (concat (map snd acc)) (map note_entry notes))
  /\ (NoDup (map fst acc) -> NoDup (map fst g))
  /\ ((forall k es x, In (k, es) acc -> In x es -> path_topic (entry_path x) = k) ->
      forall k es x, In (k, es) g -> In x es -> path_topic (entry_path x) = k).
Proof.
  induction notes as [|kv notes IH]; intros acc; cbn [fold_left map].
  - cbv zeta. rewrite app_nil_r. auto.
  - destruct (IH (topic_append (path_topic (fst kv)) (note_entry kv) acc))
      as (Hp & Hn & Ht).
    cbv zeta. split; [|split].
    + rewrite Hp, topic_append_concat.
      apply (Permutation_middle (concat (map snd acc)) (map note_entry notes)
               (note_entry kv)).
    + intros Hd. now apply Hn, topic_append_NoDup.
    + intros Hacc. apply Ht. intros k es x Hin Hx.
      destruct (topic_append_In _ _ _ _ _ _ Hin Hx) as [[-> ->]|(es0 & H1 & H2)];
        [reflexivity|now apply (Hacc k es0)].
Qed.

Lemma concat_perm {A : Type} (l l' : list (list A)) :
  Permutation l l' -> Permutation (concat l) (concat l').
Proof.
  induction 1 as [|x l l' _ IH|x y l|l l' l'' _ IH1 _ IH2]; cbn [concat].
  - reflexivity.
  - now rewrite IH.
  - rewrite !List.app_assoc. apply Permutation_app_tail, Permutation_app_comm.
  - now rewrite IH1.
Qed.

Lemma concat_sorted_groups (l : list (string * list entry)) :
  Permutation
    (concat (map snd (map (fun g => (fst g, sorted_by entry_title (snd g))) l)))
    (concat (map snd l)).
Proof.
  induction l as [|g l IH]; cbn [map concat snd]; [reflexivity|].
  now rewrite IH, sorted_by_perm.
Qed.

(** X26: the listing is a partition of the store.  Each note has
    exactly one entry in the listing: the entries of all topics
    together are those of the notes, no more and no less.  No topic
    appears twice, the topics are in the order of [sorted], the entries
    of each topic are in the order of their titles, and an entry
    stands under no topic but the first directory of its path. *)
Theorem listing_partitions (notes : list (string * note_data)) :
  Permutation (concat (map snd (listing notes))) (map note_entry notes)
  /\ NoDup (map fst (listing notes))
  /\ Sorted topic_le (map fst (listing notes))
  /\ Forall (fun g => Sorted title_le (snd g)) (listing notes)
  /\ (forall topic es e,
        In (topic, es) (listing notes) -> In e es ->
        path_topic (entry_path e) = topic).
Proof.
  destruct (group_notes_invariant notes []) as (Hp & Hn & Ht). cbv zeta in Hp, Hn, Ht.
  change (fold_left _ notes []) with (group_notes notes) in Hp, Hn, Ht.
  assert (Hkeys : map fst (listing notes) = map fst (sorted_by fst (group_notes notes))).
  { unfold listing. rewrite map_map. reflexivity. }
  split; [|split; [|split; [|split]]].
  - unfold listing. rewrite concat_sorted_groups.
    rewrite (concat_perm _ _ (Permutation_map snd (sorted_by_perm fst (group_notes notes)))).
    exact Hp.
  - rewrite Hkeys, (Permutation_map fst (sorted_by_perm fst (group_notes notes))).
    apply Hn. constructor.
  - rewrite Hkeys. apply Sorted_map_key, sorted_by_sorted.
  - unfold listing. apply List.Forall_forall. intros g Hg.
    apply in_map_iff in Hg as (g0 & <- & _). cbn [snd].
    apply (sorted_by_sorted entry_title).
  - intros topic es e Hin He. unfold listing in Hin.
    apply in_map_iff in Hin as ([k es0] & [= <- <-] & Hin). cbn [fst snd] in *.
    apply In_sorted_by in Hin, He.
    apply (Ht (fun _ _ _ (H : In _ []) => match H with end) k es0 e Hin He).
Qed.

Lemma listing_partitions_witness :
  path_topic (entry_path ("docs/b.md", "Beta")) = "docs".
Proof.
  destruct (listing_partitions Examples.two_notes) as (_ & _ & _ & _ & H).
  apply (H "docs" [("docs/b.md", "Beta")] ("docs/b.md", "Beta")).
  - right. left. reflexivity.
  - left. reflexivity.
Defined.

(** ** slugify *)











